(** * SmartCare Booking: booking window, availability and ledger

    A shallow embedding of [backend/main.py] and the properties of its
    booking rules.

    Conventions of the embedding:
    - a Python [str] is a Rocq [string]; its characters are read as the
      code points 0..255, which is enough for every literal of the program
      and keeps [str.strip], the digits of [strptime] and the byte order of
      SQLite's TEXT comparison exact;
    - a Python [int] is a [Z]; where the program hands it to code that
      narrows it (the constructor of [date] reads a C [int], SQLite binds a
      signed 64-bit integer) the bound is checked there and
      [OverflowError] raised, as the library does;
    - an exception is a value of [exn]; a function that may raise returns a
      [result];
    - the system clock ([date.today()], [datetime.now()]) is an argument;
    - the SQLite file is a [database] value threaded through the handlers
      that write to it. *)

From Stdlib Require Import ZArith Lia Ascii String.
From stdpp Require Import base tactics option list gmap strings sorting.

Open Scope string_scope.
Open Scope list_scope.
Open Scope Z_scope.

(** ** Exceptions and results *)

Inductive exn : Type :=
  | HTTPException (status_code : Z) (detail : string)
  | ValueError
  | OverflowError.

Inductive result (A : Type) : Type :=
  | Ok (a : A)
  | Raise (e : exn).
Arguments Ok {A} a.
Arguments Raise {A} e.

Definition bind {A B : Type} (r : result A) (k : A -> result B) : result B :=
  match r with
  | Ok a => k a
  | Raise e => Raise e
  end.

Notation "'let*' x ':=' r 'in' k" := (bind r (fun x => k))
  (at level 10, x name, r at level 100, k at level 200).

(** ** The Python library functions the program calls *)

Module Py.

(** [str.isspace] on one character, for the code points below 256. *)
Definition isspace (c : ascii) : bool :=
  let n := Z.of_N (N_of_ascii c) in
  ((9 <=? n) && (n <=? 13)) || ((28 <=? n) && (n <=? 32))
  || (n =? 133) || (n =? 160).

Fixpoint lstrip (s : string) : string :=
  match s with
  | EmptyString => EmptyString
  | String c r => if isspace c then lstrip r else s
  end.

Fixpoint rstrip (s : string) : string :=
  match s with
  | EmptyString => EmptyString
  | String c r =>
      match rstrip r with
      | EmptyString => if isspace c then EmptyString else String c EmptyString
      | r' => String c r'
      end
  end.

(** [str.strip()] *)
Definition strip (s : string) : string := rstrip (lstrip s).

(** *** [datetime.date] *)

Record date : Type := mkdate { year : Z; month : Z; day : Z }.

Definition MINYEAR : Z := 1.
Definition MAXYEAR : Z := 9999.

Definition is_leap (y : Z) : bool :=
  (y mod 4 =? 0) && (negb (y mod 100 =? 0) || (y mod 400 =? 0)).

Definition days_in_month (y m : Z) : Z :=
  if m =? 2 then (if is_leap y then 29 else 28)
  else if (m =? 4) || (m =? 6) || (m =? 9) || (m =? 11) then 30
  else 31.

Definition valid_ymd (y m d : Z) : bool :=
  (MINYEAR <=? y) && (y <=? MAXYEAR) && (1 <=? m) && (m <=? 12)
  && (1 <=? d) && (d <=? days_in_month y m).

Definition valid_date (x : date) : bool := valid_ymd (year x) (month x) (day x).

(** An argument that the constructor reads as a C [int]. *)
Definition fits_c_int (n : Z) : bool :=
  (-2147483648 <=? n) && (n <=? 2147483647).

(** The constructor [date(y, m, d)]: [OverflowError] for an argument that
    is not a C [int], then [ValueError] outside the calendar. *)
Definition date_new (y m d : Z) : result date :=
  if negb (fits_c_int y && fits_c_int m && fits_c_int d) then Raise OverflowError
  else if valid_ymd y m d then Ok (mkdate y m d)
  else Raise ValueError.

(** [d.replace(day=1)]: always inside the calendar when [d] is. *)
Definition replace_day1 (x : date) : date := mkdate (year x) (month x) 1.

Definition date_ltb (a b : date) : bool :=
  (year a <? year b)
  || ((year a =? year b)
      && ((month a <? month b) || ((month a =? month b) && (day a <? day b)))).

Definition date_leb (a b : date) : bool := negb (date_ltb b a).

(** The order of the calendar, as a proposition. *)
Definition date_lt (a b : date) : Prop :=
  year a < year b
  ∨ (year a = year b
     ∧ (month a < month b ∨ (month a = month b ∧ day a < day b))).

Definition date_le (a b : date) : Prop := ¬ date_lt b a.

(** [d + timedelta(days=1)] *)
Definition next_day (x : date) : result date :=
  if day x <? days_in_month (year x) (month x)
  then Ok (mkdate (year x) (month x) (day x + 1))
  else if month x <? 12 then Ok (mkdate (year x) (month x + 1) 1)
  else if year x <? MAXYEAR then Ok (mkdate (year x + 1) 1 1)
  else Raise OverflowError.

(** *** Digits *)

Definition digit_char (n : Z) : ascii := ascii_of_N (Z.to_N (48 + n)).

Definition digit_val (c : ascii) : option Z :=
  let n := Z.of_N (N_of_ascii c) in
  if (48 <=? n) && (n <=? 57) then Some (n - 48) else None.

Definition pad2 (n : Z) : string :=
  String (digit_char (n / 10 mod 10)) (String (digit_char (n mod 10)) EmptyString).

Definition pad4 (n : Z) : string :=
  String (digit_char (n / 1000 mod 10))
    (String (digit_char (n / 100 mod 10)) (pad2 n)).

(** [d.strftime("%Y-%m-%d")]: the year on four digits, month and day on
    two. *)
Definition strftime_Ymd (x : date) : string :=
  pad4 (year x) +:+ "-" +:+ pad2 (month x) +:+ "-" +:+ pad2 (day x).

(** *** [datetime.strptime]

    [_strptime] turns the format into a regular expression, matches it at
    the start of the text with [re.match], and refuses text that the match
    leaves unconsumed.  The three directives used here are
      %Y  (\d\d\d\d)
      %m  (1[0-2]|0[1-9]|[1-9])
      %d  (3[0-1]|[1-2]\d|0[1-9]|[1-9]| [1-9])
    Each matcher below takes the rest of the expression as a continuation
    and tries its alternatives in order, which is the backtracking search
    of [re]. *)

Definition orelse {A : Type} (x y : option A) : option A :=
  match x with Some a => Some a | None => y end.

Definition in_range (c : ascii) (lo hi : Z) : option Z :=
  match digit_val c with
  | Some v => if (lo <=? v) && (v <=? hi) then Some v else None
  | None => None
  end.

Definition re_lit {A : Type} (c : ascii) (k : string -> option A) (s : string)
  : option A :=
  match s with
  | String c' r => if Ascii.eqb c c' then k r else None
  | EmptyString => None
  end.

(** a two-character alternative [[lo1-hi1][lo2-hi2]] read as a number *)
Definition re_two {A : Type} (lo1 hi1 lo2 hi2 : Z)
    (k : Z -> string -> option A) (s : string) : option A :=
  match s with
  | String c1 (String c2 r) =>
      match in_range c1 lo1 hi1, in_range c2 lo2 hi2 with
      | Some a, Some b => k (10 * a + b) r
      | _, _ => None
      end
  | _ => None
  end.

(** a one-character alternative [[lo-hi]] *)
Definition re_one {A : Type} (lo hi : Z)
    (k : Z -> string -> option A) (s : string) : option A :=
  match s with
  | String c r =>
      match in_range c lo hi with
      | Some a => k a r
      | None => None
      end
  | EmptyString => None
  end.

Definition re_Y {A : Type} (k : Z -> string -> option A) (s : string) : option A :=
  re_two 0 9 0 9 (fun hi => re_two 0 9 0 9 (fun lo => k (100 * hi + lo))) s.

Definition re_m {A : Type} (k : Z -> string -> option A) (s : string) : option A :=
  orelse (re_two 1 1 0 2 k s)
    (orelse (re_two 0 0 1 9 k s) (re_one 1 9 k s)).

Definition re_d {A : Type} (k : Z -> string -> option A) (s : string) : option A :=
  orelse (re_two 3 3 0 1 k s)
    (orelse (re_two 1 2 0 9 k s)
       (orelse (re_two 0 0 1 9 k s)
          (orelse (re_one 1 9 k s)
             (re_lit " " (re_one 1 9 k) s)))).

(** [re.match] succeeded and stopped at [rest]: [_strptime] raises
    "unconverted data remains" unless [rest] is empty. *)
Definition consumed {A : Type} (a : A) (rest : string) : option (A * string) :=
  Some (a, rest).

(** [datetime.strptime(s, "%Y-%m-%d").date()] *)
Definition strptime_Ymd (s : string) : result date :=
  match re_Y (fun y => re_lit "-" (re_m (fun m => re_lit "-"
               (re_d (fun d => consumed (y, m, d)))))) s with
  | Some ((y, m, d), EmptyString) => date_new y m d
  | Some (_, String _ _) => Raise ValueError
  | None => Raise ValueError
  end.

(** [datetime.strptime(s, "%Y-%m").date()]: the day defaults to 1. *)
Definition strptime_Ym (s : string) : result date :=
  match re_Y (fun y => re_lit "-" (re_m (fun m => consumed (y, m)))) s with
  | Some ((y, m), EmptyString) => date_new y m 1
  | Some (_, String _ _) => Raise ValueError
  | None => Raise ValueError
  end.

(** *** [datetime.datetime], as far as [generate_slots] uses it *)

Record datetime : Type := mkdatetime { dt_date : date; hour : Z; minute : Z }.

Definition datetime_ltb (a b : datetime) : bool :=
  date_ltb (dt_date a) (dt_date b)
  || (date_leb (dt_date a) (dt_date b)
      && ((hour a <? hour b) || ((hour a =? hour b) && (minute a <? minute b)))).

Fixpoint add_days (n : nat) (x : date) : result date :=
  match n with
  | O => Ok x
  | S n' => let* y := next_day x in add_days n' y
  end.

(** [t + timedelta(minutes=n)] for [n >= 0] *)
Definition add_minutes (t : datetime) (n : Z) : result datetime :=
  let total := hour t * 60 + minute t + n in
  let* d := add_days (Z.to_nat (total / 1440)) (dt_date t) in
  Ok (mkdatetime d (total mod 1440 / 60) (total mod 1440 mod 60)).

(** [t.strftime("%H:%M")] *)
Definition strftime_HM (t : datetime) : string :=
  pad2 (hour t) +:+ ":" +:+ pad2 (minute t).

End Py.

Import Py.

(** ** Booking rules *)

Definition ALLOWED_MONTHS_AHEAD : Z := 3.

Definition WORK_START_HOUR : Z := 9.
Definition WORK_END_HOUR : Z := 17.
Definition SLOT_MINUTES : Z := 30.

(** The loop of [generate_slots].  [None] means the fuel ran out before the
    loop condition became false. *)
Fixpoint slots_loop (fuel : nat) (t end_ : datetime) (slots : list string)
  : option (result (list string)) :=
  match fuel with
  | O => None
  | S fuel' =>
      if datetime_ltb t end_ then
        match add_minutes t SLOT_MINUTES with
        | Ok t' => slots_loop fuel' t' end_ (slots ++ [strftime_HM t])
        | Raise e => Some (Raise e)
        end
      else Some (Ok slots)
  end.

Definition generate_slots_from (fuel : nat) : option (result (list string)) :=
  let t := mkdatetime (mkdate 2000 1 1) WORK_START_HOUR 0 in
  let end_ := mkdatetime (mkdate 2000 1 1) WORK_END_HOUR 0 in
  slots_loop fuel t end_ [].

(** One iteration per minute of the working day is more than the loop needs. *)
Definition slots_fuel : nat := Z.to_nat ((WORK_END_HOUR - WORK_START_HOUR) * 60 + 1).

Definition generate_slots : list string :=
  match generate_slots_from slots_fuel with
  | Some (Ok slots) => slots
  | _ => []
  end.

(** [ALL_SLOTS = generate_slots()], evaluated once when the module is loaded. *)
Definition ALL_SLOTS : list string := Eval vm_compute in generate_slots.
Definition DAILY_CAPACITY : Z := Z.of_nat (length ALL_SLOTS).

Definition first_day_of_month (d : date) : date := replace_day1 d.

Definition add_months (d : date) (months : Z) : result date :=
  let y := year d + (month d - 1 + months) / 12 in
  let m := (month d - 1 + months) mod 12 + 1 in
  date_new y m 1.

Definition invalid_month_format : exn :=
  HTTPException 400 "Invalid month format. Use YYYY-MM".

Definition invalid_date_format : exn :=
  HTTPException 400 "Invalid date format. Use YYYY-MM-DD".

Definition is_month_allowed (today : date) (ym : string) : result bool :=
  let cur := first_day_of_month today in
  let* max_month := add_months cur ALLOWED_MONTHS_AHEAD in
  let* req :=
    match strptime_Ym ym with
    | Ok d => Ok (replace_day1 d)
    | Raise ValueError => Raise invalid_month_format
    | Raise e => Raise e
    end in
  Ok (date_leb cur req && date_leb req max_month).

Definition is_date_allowed (today : date) (ds : string) : result bool :=
  let cur := first_day_of_month today in
  let* max_month := add_months cur ALLOWED_MONTHS_AHEAD in
  let* req :=
    match strptime_Ymd ds with
    | Ok d => Ok d
    | Raise ValueError => Raise invalid_date_format
    | Raise e => Raise e
    end in
  if date_ltb req today then Ok false
  else if date_ltb req cur then Ok false
  else
    let* upper := add_months max_month 1 in
    if date_leb upper req then Ok false
    else Ok true.

(** ** SQLite tables *)

Module Service.
Record row : Type := mk { id : Z; name : string; duration_minutes : Z }.
End Service.

Module Appt.
Record row : Type := mk {
  id : Z;
  patient_name : string;
  phone : string;
  situation_type : string;
  service_id : Z;
  appt_date : string;
  appt_time : string;
  status : string;
  created_at : string
}.

(** [UPDATE appointments SET status=...] on one row *)
Definition set_status (v : string) (a : row) : row :=
  mk (id a) (patient_name a) (phone a) (situation_type a) (service_id a)
     (appt_date a) (appt_time a) v (created_at a).
End Appt.

(** The database file: the two tables, and the counter SQLite keeps in
    [sqlite_sequence] for the AUTOINCREMENT key of [appointments]. *)
Record database : Type := mkdb {
  services : list Service.row;
  appointments : list Appt.row;
  appointments_seq : Z
}.

Definition new_database : database := mkdb [] [] 0.

(** A Python [int] bound to a [?] of a statement.  SQLite integers are
    signed and 64 bits wide; [execute] raises [OverflowError] for a larger
    one, before the statement runs. *)
Definition fits_sqlite_int (n : Z) : bool :=
  (-9223372036854775808 <=? n) && (n <=? 9223372036854775807).

Definition init_db (st : database) : database :=
  if bool_decide (length (services st) = 0%nat)
  then mkdb [ Service.mk 1 "General Consultation" 30;
              Service.mk 2 "Lab Services" 30;
              Service.mk 3 "Follow-up Consultation" 30 ]
            (appointments st) (appointments_seq st)
  else st.

(** [ORDER BY]: rows are inserted one by one in front of the first row that
    does not come before them. *)
Section order_by.
Context {A : Type} (le : A -> A -> bool).

Fixpoint insert_row (x : A) (l : list A) : list A :=
  match l with
  | [] => [x]
  | y :: r => if le x y then x :: y :: r else y :: insert_row x r
  end.

Definition order_by (l : list A) : list A := foldr insert_row [] l.
End order_by.

(** SQLite compares TEXT byte by byte. *)
Definition text_leb (a b : string) : bool := String.leb a b.
Definition text_ltb (a b : string) : bool := String.ltb a b.

Definition get_service (st : database) (service_id : Z) : result Service.row :=
  if negb (fits_sqlite_int service_id) then Raise OverflowError
  else
    match head (filter (λ s, Service.id s = service_id) (services st)) with
    | Some row => Ok row
    | None => Raise (HTTPException 400 "Invalid service_id")
    end.

(** The WHERE clause shared by the availability queries. *)
Definition booked_on (service_id : Z) (appt_date : string) (a : Appt.row) : Prop :=
  Appt.status a = "booked" ∧ Appt.service_id a = service_id
  ∧ Appt.appt_date a = appt_date.

Global Instance booked_on_dec service_id appt_date a :
  Decision (booked_on service_id appt_date a).
Proof. unfold booked_on. apply _. Defined.

Definition count_booked_for_day (st : database) (service_id : Z)
    (appt_date : string) : Z :=
  Z.of_nat (length (filter (booked_on service_id appt_date) (appointments st))).

Definition booked_times (st : database) (appt_date : string) (service_id : Z)
  : list string :=
  order_by text_leb
    (Appt.appt_time <$> filter (booked_on service_id appt_date) (appointments st)).

(** ** API models *)

Module AppointmentCreate.
Record t : Type := mk {
  patient_name : string;
  phone : string;
  situation_type : string;
  service_id : Z;
  appt_date : string;
  appt_time : string
}.
End AppointmentCreate.

Module AppointmentOut.
Record t : Type := mk {
  id : Z;
  patient_name : string;
  phone : string;
  situation_type : string;
  service_id : Z;
  service_name : string;
  appt_date : string;
  appt_time : string;
  status : string;
  created_at : string
}.
End AppointmentOut.

Module CancelResult.
Record t : Type := mk { ok : bool }.
End CancelResult.

Module DayLoad.
Record t : Type := mk {
  date : string;
  count : Z;
  level : string;
  is_full : bool;
  disabled : bool
}.
End DayLoad.

Module CalendarLoad.
Record t : Type := mk {
  month : string;
  service_id : option Z;
  daily_capacity : Z;
  days : list DayLoad.t
}.
End CalendarLoad.

Module BookedTimes.
Record t : Type := mk {
  appt_date : string;
  service_id : Z;
  booked_times : list string
}.
End BookedTimes.

(** ** Routes *)

Definition get_services (st : database) : list Service.row :=
  order_by (λ a b, Service.id a <=? Service.id b) (services st).

Definition get_time_slots : list string * Z := (ALL_SLOTS, DAILY_CAPACITY).

Definition date_not_allowed : exn :=
  HTTPException 400 "Date not allowed. Use today or within next 3 months.".


(** *** [GET /calendar-load] *)

Definition level (c : Z) : string :=
  if c <=? 5 then "Low"
  else if c <=? 12 then "Medium"
  else "High".

(** The WHERE clause of the per-month count. *)
Definition booked_in_range (service_id : Z) (lo hi : string) (a : Appt.row) : Prop :=
  Appt.status a = "booked" ∧ Appt.service_id a = service_id
  ∧ text_leb lo (Appt.appt_date a) = true ∧ text_ltb (Appt.appt_date a) hi = true.

Global Instance booked_in_range_dec service_id lo hi a :
  Decision (booked_in_range service_id lo hi a).
Proof. unfold booked_in_range. apply _. Defined.

(** [GROUP BY appt_date] with [COUNT( * )]: one row per distinct date. *)
Definition group_count (rows : list Appt.row) : list (string * Z) :=
  (λ d, (d, Z.of_nat (length (filter (λ a, Appt.appt_date a = d) rows))))
    <$> remove_dups (Appt.appt_date <$> rows).

(** [for r in cur.fetchall(): counts[r["appt_date"]] = r["c"]] *)
Definition fill_counts (rows : list (string * Z)) : gmap string Z :=
  foldl (λ counts r, <[r.1 := r.2]> counts) ∅ rows.

Definition month_counts (st : database) (service_id : Z) (first_day next_month : date)
  : gmap string Z :=
  fill_counts
    (group_count
       (filter (booked_in_range service_id
                  (strftime_Ymd first_day) (strftime_Ymd next_month))
          (appointments st))).

Definition day_load (today : date) (service_id : option Z) (counts : gmap string Z)
    (d : date) : DayLoad.t :=
  let ds := strftime_Ymd d in
  let c := default 0 (counts !! ds) in
  let is_full :=
    match service_id with
    | Some _ => DAILY_CAPACITY <=? c
    | None => false
    end in
  let is_past := date_ltb d today in
  let disabled := is_past || is_full in
  DayLoad.mk ds c (level c) is_full disabled.

(** The [while d < next_month] loop; [None] when the fuel runs out. *)
Fixpoint days_loop (fuel : nat) (today : date) (service_id : option Z)
    (counts : gmap string Z) (d next_month : date) (days : list DayLoad.t)
  : option (result (list DayLoad.t)) :=
  match fuel with
  | O => None
  | S fuel' =>
      if date_ltb d next_month then
        let days' := days ++ [day_load today service_id counts d] in
        match next_day d with
        | Ok d' => days_loop fuel' today service_id counts d' next_month days'
        | Raise e => Some (Raise e)
        end
      else Some (Ok days)
  end.

(** No month has more than 31 days. *)
Definition days_fuel : nat := 32.

Definition month_not_allowed : exn :=
  HTTPException 400 "Month not allowed. Only current to next 3 months.".

Definition calendar_load (today : date) (st : database) (month : string)
    (service_id : option Z) : option (result CalendarLoad.t) :=
  match is_month_allowed today month with
  | Raise e => Some (Raise e)
  | Ok false => Some (Raise month_not_allowed)
  | Ok true =>
      match strptime_Ym month with
      | Raise e => Some (Raise e)
      | Ok parsed =>
          let first_day := replace_day1 parsed in
          match (if Py.month first_day =? 12
                 then date_new (year first_day + 1) 1 1
                 else date_new (year first_day) (Py.month first_day + 1) 1) with
          | Raise e => Some (Raise e)
          | Ok next_month =>
              match (match service_id with
                     | Some sid =>
                         let* _ := get_service st sid in
                         Ok (month_counts st sid first_day next_month)
                     | None => Ok ∅
                     end) with
              | Raise e => Some (Raise e)
              | Ok counts =>
                  match days_loop days_fuel today service_id counts
                          first_day next_month [] with
                  | None => None
                  | Some (Raise e) => Some (Raise e)
                  | Some (Ok days) =>
                      Some (Ok (CalendarLoad.mk month service_id DAILY_CAPACITY days))
                  end
              end
          end
      end
  end.

(** *** [POST /appointments] *)

Definition invalid_slot : exn := HTTPException 400 "Invalid time slot".
Definition day_full : exn :=
  HTTPException 409 "This day is FULL for the selected service".
Definition slot_taken : exn :=
  HTTPException 409 "This time slot is already booked".

(** The WHERE clause of the double-booking query. *)
Definition booked_at (service_id : Z) (appt_date appt_time : string)
    (a : Appt.row) : Prop :=
  Appt.status a = "booked" ∧ Appt.service_id a = service_id
  ∧ Appt.appt_date a = appt_date ∧ Appt.appt_time a = appt_time.

Global Instance booked_at_dec service_id appt_date appt_time a :
  Decision (booked_at service_id appt_date appt_time a).
Proof. unfold booked_at. apply _. Defined.

Definition count_booked_at (st : database) (service_id : Z)
    (appt_date appt_time : string) : Z :=
  Z.of_nat (length (filter (booked_at service_id appt_date appt_time)
                      (appointments st))).

(** The checks before the first query on [appointments]. *)
Definition validate_request (today : date) (payload : AppointmentCreate.t)
    (st : database) : result Service.row :=
  let* allowed := is_date_allowed today (AppointmentCreate.appt_date payload) in
  if negb allowed then Raise date_not_allowed
  else
    let* service := get_service st (AppointmentCreate.service_id payload) in
    if bool_decide (AppointmentCreate.appt_time payload ∉ ALL_SLOTS)
    then Raise invalid_slot
    else Ok service.

(** FULL day protection *)
Definition check_capacity (payload : AppointmentCreate.t) (st : database)
  : result unit :=
  if DAILY_CAPACITY <=? count_booked_for_day st
                          (AppointmentCreate.service_id payload)
                          (AppointmentCreate.appt_date payload)
  then Raise day_full
  else Ok tt.

(** Prevent double booking (same service + date + time) *)
Definition check_conflict (payload : AppointmentCreate.t) (st : database)
  : result unit :=
  if 0 <? count_booked_at st (AppointmentCreate.service_id payload)
            (AppointmentCreate.appt_date payload)
            (AppointmentCreate.appt_time payload)
  then Raise slot_taken
  else Ok tt.

Definition max_rowid (rows : list Appt.row) : Z :=
  foldr (λ a m, Z.max (Appt.id a) m) 0 rows.

(** The key an AUTOINCREMENT column gives the next row: one more than the
    largest key the table has ever held. *)
Definition next_rowid (st : database) : Z :=
  Z.max (appointments_seq st) (max_rowid (appointments st)) + 1.

(** The row of the INSERT statement. *)
Definition new_row (appt_id : Z) (created_at : string)
    (payload : AppointmentCreate.t) : Appt.row :=
  Appt.mk appt_id
    (strip (AppointmentCreate.patient_name payload))
    (strip (AppointmentCreate.phone payload))
    (AppointmentCreate.situation_type payload)
    (AppointmentCreate.service_id payload)
    (AppointmentCreate.appt_date payload)
    (AppointmentCreate.appt_time payload)
    "booked" created_at.

(** The INSERT, its commit and the response. *)
Definition insert_appointment (now : string) (payload : AppointmentCreate.t)
    (service : Service.row) (st : database) : AppointmentOut.t * database :=
  let created_at := now in
  let appt_id := next_rowid st in
  (AppointmentOut.mk appt_id
     (strip (AppointmentCreate.patient_name payload))
     (strip (AppointmentCreate.phone payload))
     (AppointmentCreate.situation_type payload)
     (AppointmentCreate.service_id payload)
     (Service.name service)
     (AppointmentCreate.appt_date payload)
     (AppointmentCreate.appt_time payload)
     "booked" created_at,
   mkdb (services st)
     (appointments st ++ [new_row appt_id created_at payload]) appt_id).

Definition create_appointment (today : date) (now : string)
    (payload : AppointmentCreate.t) (st : database)
  : result AppointmentOut.t * database :=
  match validate_request today payload st with
  | Raise e => (Raise e, st)
  | Ok service =>
      match check_capacity payload st with
      | Raise e => (Raise e, st)
      | Ok _ =>
          match check_conflict payload st with
          | Raise e => (Raise e, st)
          | Ok _ =>
              let '(out, st') := insert_appointment now payload service st in
              (Ok out, st')
          end
      end
  end.

(** *** [GET /appointments] *)

(** [ORDER BY a.appt_date DESC, a.appt_time DESC] *)
Definition newest_first (x y : Appt.row * Service.row) : bool :=
  match String.compare (Appt.appt_date x.1) (Appt.appt_date y.1) with
  | Gt => true
  | Lt => false
  | Eq => text_leb (Appt.appt_time y.1) (Appt.appt_time x.1)
  end.

Definition out_row (r : Appt.row * Service.row) : AppointmentOut.t :=
  AppointmentOut.mk (Appt.id r.1) (Appt.patient_name r.1) (Appt.phone r.1)
    (Appt.situation_type r.1) (Appt.service_id r.1) (Service.name r.2)
    (Appt.appt_date r.1) (Appt.appt_time r.1) (Appt.status r.1)
    (Appt.created_at r.1).

(** [FROM appointments a JOIN services s ON s.id = a.service_id
     WHERE a.phone = ?] *)
Definition join_by_phone (st : database) (phone : string)
  : list (Appt.row * Service.row) :=
  a ← appointments st;
  s ← services st;
  if bool_decide (Service.id s = Appt.service_id a ∧ Appt.phone a = phone)
  then [(a, s)] else [].

Definition list_appointments (st : database) (phone : string)
  : list AppointmentOut.t :=
  let phone := strip phone in
  out_row <$> order_by newest_first (join_by_phone st phone).

(** *** [PATCH /appointments/{appt_id}/cancel] *)

Definition not_found : exn := HTTPException 404 "Appointment not found".

Definition select_appointment (st : database) (appt_id : Z) : option Appt.row :=
  head (filter (λ a, Appt.id a = appt_id) (appointments st)).

Definition update_cancelled (appt_id : Z) (st : database) : database :=
  mkdb (services st)
    ((λ a, if bool_decide (Appt.id a = appt_id)
           then Appt.set_status "cancelled" a else a) <$> appointments st)
    (appointments_seq st).

Definition cancel_appointment (appt_id : Z) (st : database)
  : result CancelResult.t * database :=
  if negb (fits_sqlite_int appt_id) then (Raise OverflowError, st)
  else
    match select_appointment st appt_id with
    | None => (Raise not_found, st)
    | Some row =>
        if bool_decide (Appt.status row = "cancelled")
        then (Ok (CancelResult.mk true), st)
        else (Ok (CancelResult.mk true), update_cancelled appt_id st)
    end.

(** The dates that [strftime_Ymd] writes on ten characters. *)
Definition printable (d : date) : Prop :=
  (0 <= year d <= 9999) ∧ (0 <= month d <= 99) ∧ (0 <= day d <= 99).

(** The text of a year and a month in the format YYYY-MM, and the texts
    that are well formed in it. *)
Definition format_Ym (y m : Z) : string := pad4 y +:+ "-" +:+ pad2 m.

(** The same with the month on one digit, YYYY-M. *)
Definition short_Ym (y m : Z) : string :=
  pad4 y +:+ "-" +:+ String (digit_char m) EmptyString.

Definition well_formed_Ym (s : string) : Prop :=
  ∃ y m, valid_ymd y m 1 = true ∧ s = format_Ym y m.

(** Every day of the month that starts on [first_day], in order. *)
Definition month_days (first_day : date) : list date :=
  (λ k, mkdate (year first_day) (month first_day) k)
    <$> seqZ 1 (days_in_month (year first_day) (month first_day)).

(** "Newest first (date descending, then time descending)", on the records
    of a listing: [x] may stand before [y]. *)
Definition newer_or_same (x y : AppointmentOut.t) : Prop :=
  text_ltb (AppointmentOut.appt_date y) (AppointmentOut.appt_date x) = true
  ∨ (AppointmentOut.appt_date x = AppointmentOut.appt_date y
     ∧ text_leb (AppointmentOut.appt_time y) (AppointmentOut.appt_time x) = true).

(** A listed record after the cancellation of [appt_id]. *)
Definition cancelled_record (appt_id : Z) (o : AppointmentOut.t) : AppointmentOut.t :=
  if bool_decide (AppointmentOut.id o = appt_id)
  then AppointmentOut.mk (AppointmentOut.id o) (AppointmentOut.patient_name o)
         (AppointmentOut.phone o) (AppointmentOut.situation_type o)
         (AppointmentOut.service_id o) (AppointmentOut.service_name o)
         (AppointmentOut.appt_date o) (AppointmentOut.appt_time o)
         "cancelled" (AppointmentOut.created_at o)
  else o.

(** ** Sequential histories

    Requests handled one after the other, each against the database the
    previous one left.  Every request reads the clock on its own. *)

Inductive request : Type :=
  | Create (today : date) (now : string) (payload : AppointmentCreate.t)
  | Cancel (appt_id : Z).

Definition handle (st : database) (r : request) : database :=
  match r with
  | Create today now payload => (create_appointment today now payload st).2
  | Cancel appt_id => (cancel_appointment appt_id st).2
  end.

Definition run (rs : list request) (st : database) : database :=
  foldl handle st rs.

(** The two ledger invariants. *)
Definition no_double_booking (st : database) : Prop :=
  ∀ service_id appt_date appt_time,
    count_booked_at st service_id appt_date appt_time <= 1.

Definition within_capacity (st : database) : Prop :=
  ∀ service_id appt_date,
    count_booked_for_day st service_id appt_date <= DAILY_CAPACITY.

(** [n] bookings in a row, all of which succeed. *)
Fixpoint all_booked (today : date) (ps : list (string * AppointmentCreate.t))
    (st : database) : option database :=
  match ps with
  | [] => Some st
  | (now, p) :: ps' =>
      match create_appointment today now p st with
      | (Ok _, st') => all_booked today ps' st'
      | (Raise _, _) => None
      end
  end.

(** ** A worked day

    The database after [init_db] on a new file and then one booking of
    every slot of 2026-11-03 for service 1, all made on that day. *)

Definition today_ex : date := mkdate 2026 11 3.
Definition now_ex : string := "2026-11-03T08:15:00".

Definition booking (appt_time : string) : AppointmentCreate.t :=
  AppointmentCreate.mk "Ann Lee" "555-0100" "New patient" 1 "2026-11-03" appt_time.

Definition padded_booking : AppointmentCreate.t :=
  AppointmentCreate.mk "  Ann Lee " "  555-0100 " "New patient" 1 "2026-11-03" "09:00".

Definition first_record : AppointmentOut.t :=
  AppointmentOut.mk 1 "Ann Lee" "555-0100" "New patient" 1 "General Consultation"
    "2026-11-03" "09:00" "booked" now_ex.

Definition one_booking_db : database :=
  run [Create today_ex now_ex (booking "09:00")] (init_db new_database).

(** The first six slots of that day booked. *)
Definition six_bookings_db : database :=
  run ((λ t, Create today_ex now_ex (booking t)) <$> take 6 ALL_SLOTS)
      (init_db new_database).

Definition full_day_bookings : list (string * AppointmentCreate.t) :=
  (λ t, (now_ex, booking t)) <$> ALL_SLOTS.

Definition full_day_db : database :=
  run ((λ t, Create today_ex now_ex (booking t)) <$> ALL_SLOTS)
      (init_db new_database).

(** ** Requests served at the same time

    The server runs each handler on its own thread and each handler opens
    its own connection.  SQLite executes one statement at a time, so a
    handler is a sequence of atomic steps, one per statement it sends, and
    two handlers interleave between statements.  [create_appointment] sends
    four: the service lookup, the day count, the slot count and the INSERT
    (with its commit). *)

Module Concurrent.

Inductive pc : Type :=
  | Received
  | Validated (service : Service.row)
  | CapacityChecked (service : Service.row)
  | ConflictChecked (service : Service.row)
  | Responded (r : result AppointmentOut.t).

Record worker : Type := mkworker {
  w_today : date;
  w_now : string;
  w_payload : AppointmentCreate.t;
  w_pc : pc
}.

Definition at_pc (w : worker) (p : pc) : worker :=
  mkworker (w_today w) (w_now w) (w_payload w) p.

Definition step (w : worker) (st : database) : worker * database :=
  match w_pc w with
  | Received =>
      match validate_request (w_today w) (w_payload w) st with
      | Ok service => (at_pc w (Validated service), st)
      | Raise e => (at_pc w (Responded (Raise e)), st)
      end
  | Validated service =>
      match check_capacity (w_payload w) st with
      | Ok _ => (at_pc w (CapacityChecked service), st)
      | Raise e => (at_pc w (Responded (Raise e)), st)
      end
  | CapacityChecked service =>
      match check_conflict (w_payload w) st with
      | Ok _ => (at_pc w (ConflictChecked service), st)
      | Raise e => (at_pc w (Responded (Raise e)), st)
      end
  | ConflictChecked service =>
      let '(out, st') := insert_appointment (w_now w) (w_payload w) service st in
      (at_pc w (Responded (Ok out)), st')
  | Responded _ => (w, st)
  end.

(** A schedule names, step by step, the worker that runs next. *)
Fixpoint run_schedule (schedule : list nat) (ws : list worker) (st : database)
  : list worker * database :=
  match schedule with
  | [] => (ws, st)
  | i :: schedule' =>
      match ws !! i with
      | Some w =>
          let '(w', st') := step w st in
          run_schedule schedule' (<[i := w']> ws) st'
      | None => run_schedule schedule' ws st
      end
  end.

Definition start (today : date) (now : string) (payload : AppointmentCreate.t)
  : worker := mkworker today now payload Received.

(** Both workers run their three checks, then both run their INSERT. *)
Definition race_schedule : list nat := [0; 0; 0; 1; 1; 1; 0; 1]%nat.

(** The first worker runs to its response before the second starts. *)
Definition serial_schedule : list nat := [0; 0; 0; 0; 1; 1; 1; 1]%nat.

Definition succeeded (w : worker) : bool :=
  match w_pc w with
  | Responded (Ok _) => true
  | _ => false
  end.

End Concurrent.

(** ** What the tables keep

    Facts about the rows of [appointments] that hold on a new database and
    that every request keeps. *)

(** The keys of [appointments] are positive, pairwise distinct and not above
    the AUTOINCREMENT counter. *)
Definition ids_ok (st : database) : Prop :=
  NoDup (Appt.id <$> appointments st)
  ∧ Forall (λ a, 1 <= Appt.id a <= appointments_seq st) (appointments st)
  ∧ 0 <= appointments_seq st.

(** A row as [create_appointment] writes it and [cancel_appointment] leaves
    it. *)
Definition stored_row_ok (st : database) (a : Appt.row) : Prop :=
  (Appt.status a = "booked" ∨ Appt.status a = "cancelled")
  ∧ Appt.appt_time a ∈ ALL_SLOTS
  ∧ (∃ s, get_service st (Appt.service_id a) = Ok s)
  ∧ (∃ d, strptime_Ymd (Appt.appt_date a) = Ok d)
  ∧ strip (Appt.patient_name a) = Appt.patient_name a
  ∧ strip (Appt.phone a) = Appt.phone a.

Definition rows_ok (st : database) : Prop :=
  Forall (stored_row_ok st) (appointments st).

(** A date written with its day on one digit, YYYY-MM-D. *)
Definition short_Ymd (x : date) : string :=
  pad4 (year x) +:+ "-" +:+ pad2 (month x) +:+ "-"
  +:+ String (digit_char (day x)) EmptyString.

(** The primary key of [services]. *)
Definition services_ok (st : database) : Prop :=
  NoDup (Service.id <$> services st).

(** ** The day of an appointment

    The specification counts and orders appointments by their date, a day
    of the calendar.  The table holds the date as the text of the request,
    and the day of that text is the one [strptime] reads in it, as
    [is_date_allowed] does.  The definitions of this section follow the
    words of the specification; [count_booked_for_day] and
    [count_booked_at] above are the queries of the code, which compare the
    text. *)

Global Instance exn_eq_dec : EqDecision exn.
Proof. solve_decision. Defined.

Global Instance date_eq_dec : EqDecision date.
Proof. solve_decision. Defined.

Global Instance result_eq_dec {A} `{EqDecision A} : EqDecision (result A).
Proof. solve_decision. Defined.

(** A booked appointment of the service on the day [d]. *)
Definition spec_booked_on (service_id : Z) (d : date) (a : Appt.row) : Prop :=
  Appt.status a = "booked" ∧ Appt.service_id a = service_id
  ∧ strptime_Ymd (Appt.appt_date a) = Ok d.

Global Instance spec_booked_on_dec service_id d a :
  Decision (spec_booked_on service_id d a).
Proof. unfold spec_booked_on. apply _. Defined.

(** "The count of appointments with status booked for a (service, date)". *)
Definition spec_count_booked_for_day (st : database) (service_id : Z) (d : date)
  : Z :=
  Z.of_nat (length (filter (spec_booked_on service_id d) (appointments st))).

(** The booked appointments that occupy a (service, date, time). *)
Definition spec_count_booked_at (st : database) (service_id : Z) (d : date)
    (appt_time : string) : Z :=
  Z.of_nat (length (filter (λ a, spec_booked_on service_id d a
                                 ∧ Appt.appt_time a = appt_time)
                      (appointments st))).

(** Requests that write 3 November 2026 without the zero, and a request
    for the 20th. *)
Definition short_date_booking (appt_time : string) : AppointmentCreate.t :=
  AppointmentCreate.mk "Bo Ray" "555-0101" "Follow-up" 1 "2026-11-3" appt_time.

Definition later_booking : AppointmentCreate.t :=
  AppointmentCreate.mk "Bo Ray" "555-0101" "Follow-up" 1 "2026-11-20" "09:00".

(** Every slot of 3 November booked under the text "2026-11-3". *)
Definition short_date_day_db : database :=
  run ((λ t, Create today_ex now_ex (short_date_booking t)) <$> ALL_SLOTS)
      (init_db new_database).

(** The 20th booked first, then the 3rd. *)
Definition two_dates_db : database :=
  run [Create today_ex now_ex later_booking;
       Create today_ex now_ex (short_date_booking "09:00")]
      (init_db new_database).

(** * Properties *)

(** The handlers are unfolded by hand in the proofs below. *)
Arguments generate_slots : simpl never.
Arguments ALL_SLOTS : simpl never.
Arguments DAILY_CAPACITY : simpl never.
Arguments create_appointment : simpl never.
Arguments cancel_appointment : simpl never.
Arguments validate_request : simpl never.
Arguments is_date_allowed : simpl never.
Arguments is_month_allowed : simpl never.
#[global] Opaque generate_slots.

(** ** Slot catalog *)

Lemma ALL_SLOTS_eq :
  ALL_SLOTS =
  ["09:00"; "09:30"; "10:00"; "10:30"; "11:00"; "11:30"; "12:00"; "12:30";
   "13:00"; "13:30"; "14:00"; "14:30"; "15:00"; "15:30"; "16:00"; "16:30"].
Proof. reflexivity. Qed.

Lemma DAILY_CAPACITY_eq : DAILY_CAPACITY = 16.
Proof. vm_compute. reflexivity. Qed.

(** More fuel never changes what the loop of [generate_slots] returns. *)
Lemma slots_loop_more_fuel fuel fuel' t end_ slots r :
  slots_loop fuel t end_ slots = Some r →
  (fuel <= fuel')%nat →
  slots_loop fuel' t end_ slots = Some r.
Proof.
  revert fuel' t slots.
  induction fuel as [|fuel IH]; intros fuel' t slots Hrun Hle; [discriminate|].
  destruct fuel' as [|fuel']; [lia|].
  simpl in *.
  destruct (datetime_ltb t end_); [|exact Hrun].
  destruct (add_minutes t SLOT_MINUTES); [|exact Hrun].
  apply IH; [exact Hrun|lia].
Qed.

(** C6: [generate_slots()] with the working day 09:00 to 17:00 and
    30-minute slots returns exactly 16 labels, the first "09:00", the last
    "16:30", strictly increasing and all before the end boundary "17:00";
    the loop stops by its own condition, and [DAILY_CAPACITY] is the length
    of that sequence. *)
Theorem generate_slots_catalog :
  generate_slots_from slots_fuel = Some (Ok generate_slots)
  ∧ length generate_slots = 16%nat
  ∧ head generate_slots = Some "09:00"
  ∧ last generate_slots = Some "16:30"
  ∧ StronglySorted (λ a b, text_ltb a b = true) generate_slots
  ∧ Forall (λ a, text_ltb a "17:00" = true) generate_slots
  ∧ ("17:00" ∉ generate_slots)
  ∧ ALL_SLOTS = generate_slots
  ∧ DAILY_CAPACITY = Z.of_nat (length generate_slots)
  ∧ DAILY_CAPACITY = 16.
Proof.
  assert (Hrun : generate_slots_from slots_fuel = Some (Ok ALL_SLOTS))
    by (vm_compute; reflexivity).
  assert (Hall : ALL_SLOTS = generate_slots) by (vm_compute; reflexivity).
  rewrite <- Hall. rewrite DAILY_CAPACITY_eq.
  split; [exact Hrun|].
  rewrite ALL_SLOTS_eq.
  split; [reflexivity|]. split; [reflexivity|]. split; [reflexivity|].
  split; [repeat constructor|].
  split; [repeat constructor|].
  split; [|split; [vm_compute; reflexivity|split; reflexivity]].
  intros Hin. repeat (apply elem_of_cons in Hin as [Hin|Hin]; [discriminate|]).
  by apply elem_of_nil in Hin.
Qed.

(** ** Cancellation *)

Lemma set_status_id v a : Appt.id (Appt.set_status v a) = Appt.id a.
Proof. reflexivity. Qed.

Lemma set_status_same a : Appt.set_status (Appt.status a) a = a.
Proof. by destruct a. Qed.

Lemma select_appointment_None st appt_id :
  select_appointment st appt_id = None
  ↔ ∀ a, a ∈ appointments st → Appt.id a ≠ appt_id.
Proof.
  unfold select_appointment.
  induction (appointments st) as [|a l IH].
  - split; [|done]. intros _ a Ha. by apply elem_of_nil in Ha.
  - rewrite filter_cons. destruct (decide (Appt.id a = appt_id)) as [Heq|Hne].
    + split; [discriminate|]. intros Hall. exfalso.
      apply (Hall a); [left|exact Heq].
    + rewrite IH. split.
      * intros Hall b Hb. apply elem_of_cons in Hb as [->|Hb]; [exact Hne|by apply Hall].
      * intros Hall b Hb. apply Hall. by right.
Qed.

Lemma select_appointment_Some st appt_id row :
  select_appointment st appt_id = Some row →
  row ∈ appointments st ∧ Appt.id row = appt_id.
Proof.
  unfold select_appointment. intros Hsel.
  apply head_Some_elem_of in Hsel.
  by apply list_elem_of_filter in Hsel as [? ?].
Qed.

Lemma select_after_update st appt_id :
  select_appointment (update_cancelled appt_id st) appt_id
  = Appt.set_status "cancelled" <$> select_appointment st appt_id.
Proof.
  unfold select_appointment, update_cancelled. simpl.
  induction (appointments st) as [|a l IH]; [done|].
  rewrite fmap_cons, !filter_cons.
  destruct (decide (Appt.id a = appt_id)) as [Heq|Hne].
  - rewrite bool_decide_eq_true_2 by done.
    rewrite decide_True by done. done.
  - rewrite bool_decide_eq_false_2 by done.
    rewrite decide_False by done. exact IH.
Qed.

Lemma cancelled_row_kept appt_id a :
  Appt.status a = "cancelled" →
  (if bool_decide (Appt.id a = appt_id) then Appt.set_status "cancelled" a else a) = a.
Proof.
  intros Hst. case_bool_decide; [|done].
  rewrite <- Hst. apply set_status_same.
Qed.

Lemma create_appointment_rows today now payload st :
  let '(r, st') := create_appointment today now payload st in
  services st' = services st
  ∧ match r with
    | Ok out =>
        ∃ service,
          validate_request today payload st = Ok service
          ∧ check_capacity payload st = Ok tt
          ∧ check_conflict payload st = Ok tt
          ∧ (out, st') = insert_appointment now payload service st
    | Raise _ => st' = st
    end.
Proof.
  unfold create_appointment.
  destruct (validate_request today payload st) as [service|e] eqn:Hv; [|done].
  destruct (check_capacity payload st) as [[]|e] eqn:Hcap; [|done].
  destruct (check_conflict payload st) as [[]|e] eqn:Hcon; [|done].
  simpl. split; [done|]. by exists service.
Qed.

Lemma handle_keeps_cancelled st r a :
  a ∈ appointments st → Appt.status a = "cancelled" →
  a ∈ appointments (handle st r).
Proof.
  intros Hin Hst. destruct r as [today now payload|appt_id]; simpl.
  - pose proof (create_appointment_rows today now payload st) as H.
    destruct (create_appointment today now payload st) as [[out|e] st'];
      simpl; destruct H as [_ H].
    + destruct H as (service & _ & _ & _ & Hins). unfold insert_appointment in Hins.
      injection Hins as _ ->. simpl. apply elem_of_app. by left.
    + by subst.
  - unfold cancel_appointment.
    destruct (fits_sqlite_int appt_id); cbn [negb]; [|done].
    destruct (select_appointment st appt_id) as [row|]; [|done].
    case_bool_decide; [done|]. simpl.
    apply list_elem_of_fmap. exists a. split; [|done].
    symmetry. by apply cancelled_row_kept.
Qed.

Lemma fits_sqlite_int_true n :
  fits_sqlite_int n = true
  ↔ -9223372036854775808 <= n <= 9223372036854775807.
Proof. unfold fits_sqlite_int. rewrite andb_true_iff, !Z.leb_le. done. Qed.

Lemma fits_sqlite_int_false n :
  fits_sqlite_int n = false
  ↔ ¬ (-9223372036854775808 <= n <= 9223372036854775807).
Proof. rewrite <- fits_sqlite_int_true. symmetry. apply not_true_iff_false. Qed.

Lemma cancel_appointment_in_range appt_id st :
  fits_sqlite_int appt_id = true →
  cancel_appointment appt_id st
  = match select_appointment st appt_id with
    | None => (Raise not_found, st)
    | Some row =>
        if bool_decide (Appt.status row = "cancelled")
        then (Ok (CancelResult.mk true), st)
        else (Ok (CancelResult.mk true), update_cancelled appt_id st)
    end.
Proof. intros Hfits. unfold cancel_appointment. by rewrite Hfits. Qed.

Lemma cancel_appointment_overflow appt_id st :
  fits_sqlite_int appt_id = false →
  cancel_appointment appt_id st = (Raise OverflowError, st).
Proof. intros Hfits. unfold cancel_appointment. by rewrite Hfits. Qed.

Lemma cancel_already_cancelled appt_id st row :
  fits_sqlite_int appt_id = true →
  select_appointment st appt_id = Some row →
  Appt.status row = "cancelled" →
  cancel_appointment appt_id st = (Ok (CancelResult.mk true), st).
Proof.
  intros Hfits Hsel Hst. rewrite cancel_appointment_in_range, Hsel by done.
  by rewrite bool_decide_eq_true_2.
Qed.

(** C4: an identifier that SQLite cannot hold is not answered NotFound.
    For an identifier outside the signed 64-bit range no appointment exists,
    yet [cancel] raises [OverflowError] where the SELECT binds it, before
    the 404 is reached; the database is unchanged.  For every other
    identifier [cancel] fails with NotFound (404) exactly when no
    appointment has it; otherwise it answers ok, the appointment is
    cancelled afterwards, on an appointment that is already cancelled
    nothing changes, and a second cancel answers ok again and changes
    nothing.  No request takes an appointment out of [cancelled]. *)
Theorem cancel_appointment_idempotent (appt_id : Z) (st : database) :
  (fits_sqlite_int appt_id = false →
   cancel_appointment appt_id st = (Raise OverflowError, st)
   ∧ (cancel_appointment appt_id st).1 ≠ Raise not_found)
  ∧ (fits_sqlite_int appt_id = true →
     ((cancel_appointment appt_id st).1 = Raise not_found
      ↔ ∀ a, a ∈ appointments st → Appt.id a ≠ appt_id)
     ∧ ((cancel_appointment appt_id st).1 = Raise not_found
        → (cancel_appointment appt_id st).2 = st)
     ∧ (∀ row,
         select_appointment st appt_id = Some row →
         let st1 := (cancel_appointment appt_id st).2 in
         let st2 := (cancel_appointment appt_id st1).2 in
         (cancel_appointment appt_id st).1 = Ok (CancelResult.mk true)
         ∧ (cancel_appointment appt_id st1).1 = Ok (CancelResult.mk true)
         ∧ select_appointment st1 appt_id = Some (Appt.set_status "cancelled" row)
         ∧ select_appointment st2 appt_id = Some (Appt.set_status "cancelled" row)
         ∧ st2 = st1
         ∧ (Appt.status row = "cancelled" → st1 = st)
         ∧ services st1 = services st
         ∧ length (appointments st1) = length (appointments st)
         ∧ (∀ a, a ∈ appointments st → Appt.id a ≠ appt_id →
                 a ∈ appointments st1)))
  ∧ (∀ r a, a ∈ appointments st → Appt.status a = "cancelled" →
            a ∈ appointments (handle st r)).
Proof.
  split; [|split].
  - intros Hfits. rewrite cancel_appointment_overflow by done.
    split; [done|discriminate].
  - intros Hfits. split; [|split].
    + rewrite <- select_appointment_None, cancel_appointment_in_range by done.
      destruct (select_appointment st appt_id) as [row|]; [|done].
      split; [|done]. by case_bool_decide.
    + rewrite cancel_appointment_in_range by done.
      destruct (select_appointment st appt_id) as [row|]; [|done].
      by case_bool_decide.
    + intros row Hsel.
      assert (Hfirst :
        (cancel_appointment appt_id st).1 = Ok (CancelResult.mk true)
        ∧ select_appointment (cancel_appointment appt_id st).2 appt_id
          = Some (Appt.set_status "cancelled" row)
        ∧ (Appt.status row = "cancelled" → (cancel_appointment appt_id st).2 = st)).
      { rewrite cancel_appointment_in_range, Hsel by done.
        case_bool_decide as Hst; simpl.
        - rewrite <- Hst, set_status_same. done.
        - rewrite select_after_update, Hsel. done. }
      destruct Hfirst as (Hr1 & Hsel1 & Hsame).
      pose proof (cancel_already_cancelled appt_id _ _ Hfits Hsel1 eq_refl) as Hagain.
      assert (Hrest :
        services (cancel_appointment appt_id st).2 = services st
        ∧ length (appointments (cancel_appointment appt_id st).2)
          = length (appointments st)
        ∧ (∀ a, a ∈ appointments st → Appt.id a ≠ appt_id →
                a ∈ appointments (cancel_appointment appt_id st).2)).
      { rewrite cancel_appointment_in_range, Hsel by done.
        case_bool_decide; cbn [snd]; [done|].
        unfold update_cancelled. cbn [services appointments].
        split; [done|]. split; [by rewrite length_fmap|].
        intros a Ha Hne. apply list_elem_of_fmap. exists a. split; [|done].
        by rewrite bool_decide_eq_false_2. }
      destruct Hrest as (Hsvc & Hlen & Hothers).
      cbv zeta. rewrite Hagain. cbn [fst snd]. done.
  - intros r a. apply handle_keeps_cancelled.
Qed.

(** ** The ledger: what a booking and a cancellation do to the table *)

Lemma create_appointment_Ok today now payload st out st' :
  create_appointment today now payload st = (Ok out, st') →
  ∃ service,
    validate_request today payload st = Ok service
    ∧ check_capacity payload st = Ok tt
    ∧ check_conflict payload st = Ok tt
    ∧ insert_appointment now payload service st = (out, st').
Proof.
  intros Hc. pose proof (create_appointment_rows today now payload st) as H.
  rewrite Hc in H. destruct H as [_ (service & ? & ? & ? & ?)].
  by exists service.
Qed.

Lemma create_appointment_Raise today now payload st e st' :
  create_appointment today now payload st = (Raise e, st') → st' = st.
Proof.
  intros Hc. pose proof (create_appointment_rows today now payload st) as H.
  rewrite Hc in H. by destruct H as [_ ?].
Qed.

Lemma validate_request_Ok today payload st service :
  validate_request today payload st = Ok service
  ↔ is_date_allowed today (AppointmentCreate.appt_date payload) = Ok true
    ∧ get_service st (AppointmentCreate.service_id payload) = Ok service
    ∧ AppointmentCreate.appt_time payload ∈ ALL_SLOTS.
Proof.
  unfold validate_request.
  destruct (is_date_allowed today (AppointmentCreate.appt_date payload))
    as [[|]|e]; cbn [bind negb].
  - destruct (get_service st (AppointmentCreate.service_id payload))
      as [service'|e]; cbn [bind].
    + case_bool_decide as Hslot.
      * split; [discriminate|]. intros (_ & _ & Hin). by destruct Hslot.
      * split.
        -- intros [= ->]. done.
        -- intros (_ & [= ->] & _). done.
    + split; [discriminate|]. intros (_ & Hs & _). discriminate Hs.
  - split; [discriminate|]. intros (Hd & _). discriminate Hd.
  - split; [discriminate|]. intros (Hd & _). discriminate Hd.
Qed.

Lemma check_capacity_Ok payload st :
  check_capacity payload st = Ok tt
  ↔ count_booked_for_day st (AppointmentCreate.service_id payload)
      (AppointmentCreate.appt_date payload) < DAILY_CAPACITY.
Proof.
  unfold check_capacity.
  destruct (Z.leb_spec DAILY_CAPACITY
              (count_booked_for_day st (AppointmentCreate.service_id payload)
                 (AppointmentCreate.appt_date payload))).
  - split; [discriminate|lia].
  - split; [lia|done].
Qed.

Lemma check_conflict_Ok payload st :
  check_conflict payload st = Ok tt
  ↔ count_booked_at st (AppointmentCreate.service_id payload)
      (AppointmentCreate.appt_date payload)
      (AppointmentCreate.appt_time payload) = 0.
Proof.
  unfold check_conflict, count_booked_at.
  destruct (Z.ltb_spec 0
              (Z.of_nat (length (filter
                 (booked_at (AppointmentCreate.service_id payload)
                    (AppointmentCreate.appt_date payload)
                    (AppointmentCreate.appt_time payload)) (appointments st))))).
  - split; [discriminate|lia].
  - split; [lia|done].
Qed.

Lemma insert_appointment_rows now payload service st :
  appointments (insert_appointment now payload service st).2
  = appointments st ++ [new_row (next_rowid st) now payload].
Proof. reflexivity. Qed.

Lemma length_filter_snoc {A} (P : A → Prop) `{!∀ x, Decision (P x)} l x :
  Z.of_nat (length (filter P (l ++ [x])))
  = Z.of_nat (length (filter P l)) + (if decide (P x) then 1 else 0).
Proof.
  rewrite filter_app, length_app, filter_cons, filter_nil.
  destruct (decide (P x)); simpl; lia.
Qed.

(** A row that [UPDATE ... SET status='cancelled'] touched matches no
    query on [status='booked']; the others are as they were. *)
Lemma length_filter_cancelled (P : Appt.row → Prop) `{!∀ x, Decision (P x)}
    appt_id (l : list Appt.row) :
  (∀ a, P (Appt.set_status "cancelled" a) → False) →
  (length (filter P
     ((λ a, if bool_decide (Appt.id a = appt_id)
            then Appt.set_status "cancelled" a else a) <$> l))
   <= length (filter P l))%nat.
Proof.
  intros Hno. induction l as [|a l IH]; [done|].
  rewrite fmap_cons, !filter_cons.
  case_bool_decide.
  - rewrite decide_False by (intros HP; exact (Hno _ HP)).
    destruct (decide (P a)); simpl; lia.
  - destruct (decide (P a)); simpl; lia.
Qed.

Lemma count_booked_at_after_cancel appt_id st service_id appt_date appt_time :
  count_booked_at (cancel_appointment appt_id st).2 service_id appt_date appt_time
  <= count_booked_at st service_id appt_date appt_time.
Proof.
  unfold cancel_appointment.
  destruct (fits_sqlite_int appt_id); cbn [negb]; [|simpl; lia].
  destruct (select_appointment st appt_id) as [row|]; [|simpl; lia].
  case_bool_decide; [simpl; lia|].
  unfold count_booked_at, update_cancelled. cbn [snd appointments].
  apply inj_le, length_filter_cancelled.
  intros a (Hst & _). discriminate Hst.
Qed.

Lemma count_booked_for_day_after_cancel appt_id st service_id appt_date :
  count_booked_for_day (cancel_appointment appt_id st).2 service_id appt_date
  <= count_booked_for_day st service_id appt_date.
Proof.
  unfold cancel_appointment.
  destruct (fits_sqlite_int appt_id); cbn [negb]; [|simpl; lia].
  destruct (select_appointment st appt_id) as [row|]; [|simpl; lia].
  case_bool_decide; [simpl; lia|].
  unfold count_booked_for_day, update_cancelled. cbn [snd appointments].
  apply inj_le, length_filter_cancelled.
  intros a (Hst & _). discriminate Hst.
Qed.

Lemma count_booked_at_after_create today now payload st out st' sid d t :
  create_appointment today now payload st = (Ok out, st') →
  count_booked_at st' sid d t
  = count_booked_at st sid d t
    + (if decide (AppointmentCreate.service_id payload = sid
                  ∧ AppointmentCreate.appt_date payload = d
                  ∧ AppointmentCreate.appt_time payload = t)
       then 1 else 0).
Proof.
  intros Hc. apply create_appointment_Ok in Hc as (service & _ & _ & _ & Hins).
  assert (Hrows : appointments st'
                  = appointments st ++ [new_row (next_rowid st) now payload])
    by (rewrite <- insert_appointment_rows with (service := service); by rewrite Hins).
  unfold count_booked_at. rewrite Hrows, length_filter_snoc.
  f_equal. unfold booked_at, new_row; simpl.
  destruct (decide (AppointmentCreate.service_id payload = sid
                    ∧ AppointmentCreate.appt_date payload = d
                    ∧ AppointmentCreate.appt_time payload = t)) as [Hy|Hn].
  - rewrite decide_True; [done|]. split; [done|exact Hy].
  - rewrite decide_False; [done|]. intros (_ & Hy). by apply Hn.
Qed.

Lemma count_booked_for_day_after_create today now payload st out st' sid d :
  create_appointment today now payload st = (Ok out, st') →
  count_booked_for_day st' sid d
  = count_booked_for_day st sid d
    + (if decide (AppointmentCreate.service_id payload = sid
                  ∧ AppointmentCreate.appt_date payload = d)
       then 1 else 0).
Proof.
  intros Hc. apply create_appointment_Ok in Hc as (service & _ & _ & _ & Hins).
  assert (Hrows : appointments st'
                  = appointments st ++ [new_row (next_rowid st) now payload])
    by (rewrite <- insert_appointment_rows with (service := service); by rewrite Hins).
  unfold count_booked_for_day. rewrite Hrows, length_filter_snoc.
  f_equal. unfold booked_on, new_row; simpl.
  destruct (decide (AppointmentCreate.service_id payload = sid
                    ∧ AppointmentCreate.appt_date payload = d)) as [Hy|Hn].
  - rewrite decide_True; [done|]. split; [done|exact Hy].
  - rewrite decide_False; [done|]. intros (_ & Hy). by apply Hn.
Qed.

Lemma create_appointment_slot_taken today now payload st service :
  validate_request today payload st = Ok service →
  check_capacity payload st = Ok tt →
  0 < count_booked_at st (AppointmentCreate.service_id payload)
        (AppointmentCreate.appt_date payload)
        (AppointmentCreate.appt_time payload) →
  create_appointment today now payload st = (Raise slot_taken, st).
Proof.
  intros Hv Hcap Hocc. unfold create_appointment. rewrite Hv, Hcap.
  unfold check_conflict. by rewrite (proj2 (Z.ltb_lt _ _) Hocc).
Qed.

Lemma create_appointment_day_full today now payload st service :
  validate_request today payload st = Ok service →
  DAILY_CAPACITY <= count_booked_for_day st (AppointmentCreate.service_id payload)
                      (AppointmentCreate.appt_date payload) →
  create_appointment today now payload st = (Raise day_full, st).
Proof.
  intros Hv Hfull. unfold create_appointment. rewrite Hv.
  unfold check_capacity. by rewrite (proj2 (Z.leb_le _ _) Hfull).
Qed.

Lemma create_appointment_occupied today now payload st :
  0 < count_booked_at st (AppointmentCreate.service_id payload)
        (AppointmentCreate.appt_date payload)
        (AppointmentCreate.appt_time payload) →
  ∃ e, create_appointment today now payload st = (Raise e, st).
Proof.
  intros Hocc.
  destruct (create_appointment today now payload st) as [[out|e] st'] eqn:Hc.
  - apply create_appointment_Ok in Hc as (service & _ & _ & Hcon & _).
    apply check_conflict_Ok in Hcon. lia.
  - apply create_appointment_Raise in Hc as ->. by exists e.
Qed.

Lemma handle_no_double_booking st r :
  no_double_booking st → no_double_booking (handle st r).
Proof.
  intros Hinv sid d t. destruct r as [today now payload|appt_id]; simpl.
  - destruct (create_appointment today now payload st) as [[out|e] st'] eqn:Hc.
    + cbn [snd]. rewrite (count_booked_at_after_create _ _ _ _ _ _ sid d t Hc).
      apply create_appointment_Ok in Hc as (service & _ & _ & Hcon & _).
      apply check_conflict_Ok in Hcon.
      case_decide as Heq; [|specialize (Hinv sid d t); lia].
      destruct Heq as (<- & <- & <-). lia.
    + apply create_appointment_Raise in Hc as ->. apply Hinv.
  - etransitivity; [apply count_booked_at_after_cancel|apply Hinv].
Qed.

Lemma handle_within_capacity st r :
  within_capacity st → within_capacity (handle st r).
Proof.
  intros Hinv sid d. destruct r as [today now payload|appt_id]; simpl.
  - destruct (create_appointment today now payload st) as [[out|e] st'] eqn:Hc.
    + cbn [snd]. rewrite (count_booked_for_day_after_create _ _ _ _ _ _ sid d Hc).
      apply create_appointment_Ok in Hc as (service & _ & Hcap & _ & _).
      apply check_capacity_Ok in Hcap.
      case_decide as Heq; [|specialize (Hinv sid d); lia].
      destruct Heq as (<- & <-). lia.
    + apply create_appointment_Raise in Hc as ->. apply Hinv.
  - etransitivity; [apply count_booked_for_day_after_cancel|apply Hinv].
Qed.

Lemma run_invariant (I : database → Prop) :
  (∀ st r, I st → I (handle st r)) →
  ∀ rs st, I st → I (run rs st).
Proof.
  intros Hstep rs. induction rs as [|r rs IH]; intros st Hst; [exact Hst|].
  simpl. apply IH, Hstep, Hst.
Qed.

Lemma new_database_invariants :
  no_double_booking (init_db new_database)
  ∧ within_capacity (init_db new_database).
Proof. split; repeat intro; vm_compute; discriminate. Qed.

(** The double-booking check on the text of the date: in every sequence of
    requests handled one after the other (create, cancel), no service, date
    text and time ever has more than one booked appointment.  A create on
    an occupied triple never
    succeeds and changes nothing; it answers SlotTaken (409) when the
    earlier checks of the handler pass (date allowed, service known, time in
    the catalog, day not full), otherwise the error of the earlier check. *)
Theorem no_double_booking_sequential (st : database) (rs : list request) :
  no_double_booking st →
  no_double_booking (run rs st)
  ∧ (∀ today now payload,
       0 < count_booked_at (run rs st) (AppointmentCreate.service_id payload)
             (AppointmentCreate.appt_date payload)
             (AppointmentCreate.appt_time payload) →
       (∃ e, create_appointment today now payload (run rs st)
             = (Raise e, run rs st))
       ∧ (∀ service,
            validate_request today payload (run rs st) = Ok service →
            check_capacity payload (run rs st) = Ok tt →
            create_appointment today now payload (run rs st)
            = (Raise slot_taken, run rs st))).
Proof.
  intros Hinv. split.
  - by apply (run_invariant no_double_booking handle_no_double_booking).
  - intros today now payload Hocc. split.
    + by apply create_appointment_occupied.
    + intros service Hv Hcap. by eapply create_appointment_slot_taken.
Qed.

Lemma no_double_booking_sequential_witness :
  no_double_booking one_booking_db
  ∧ create_appointment today_ex now_ex (booking "09:00") one_booking_db
    = (Raise slot_taken, one_booking_db).
Proof.
  destruct (no_double_booking_sequential (init_db new_database)
              [Create today_ex now_ex (booking "09:00")]) as [Hinv Hocc].
  { intros service_id appt_date appt_time. vm_compute. discriminate. }
  split; [exact Hinv|].
  refine (proj2 (Hocc today_ex now_ex (booking "09:00") _)
            (Service.mk 1 "General Consultation" 30) _ _);
    vm_compute; reflexivity.
Defined.

(** The order of the checks.  On a day whose 16 slots are all booked, a
    create on an occupied slot is answered by the capacity check, DayFull,
    before
    the slot check is reached; and on the day after a booking, a create on
    the same triple is answered 400, the date being in the past. *)
Lemma occupied_slot_not_always_slot_taken :
  (0 < count_booked_at full_day_db 1 "2026-11-03" "09:00"
   ∧ create_appointment today_ex now_ex (booking "09:00") full_day_db
     = (Raise (HTTPException 409 "This day is FULL for the selected service"),
        full_day_db)
   ∧ (create_appointment today_ex now_ex (booking "09:00") full_day_db).1
     ≠ Raise slot_taken)
  ∧ (0 < count_booked_at one_booking_db 1 "2026-11-03" "09:00"
     ∧ create_appointment (mkdate 2026 11 4) "2026-11-04T08:15:00"
         (booking "09:00") one_booking_db
       = (Raise (HTTPException 400
                   "Date not allowed. Use today or within next 3 months."),
          one_booking_db)
     ∧ (create_appointment (mkdate 2026 11 4) "2026-11-04T08:15:00"
          (booking "09:00") one_booking_db).1
       ≠ Raise slot_taken).
Proof.
  split; (split; [vm_compute; reflexivity|]);
    (split; [vm_compute; reflexivity|]); vm_compute; discriminate.
Qed.

(** ** Daily capacity *)

Lemma get_service_services st st' sid :
  services st' = services st → get_service st' sid = get_service st sid.
Proof. unfold get_service. by intros ->. Qed.

Lemma create_appointment_services today now payload st r st' :
  create_appointment today now payload st = (r, st') → services st' = services st.
Proof.
  intros Hc. pose proof (create_appointment_rows today now payload st) as H.
  rewrite Hc in H. by destruct H as [? _].
Qed.

(** Bookings that all succeed, all for one (service, date): each adds one
    to the count of the day, on a date the window allows and for a service
    that exists. *)
Lemma all_booked_count today ps st st' sid d :
  Forall (λ p, AppointmentCreate.service_id p.2 = sid
               ∧ AppointmentCreate.appt_date p.2 = d) ps →
  all_booked today ps st = Some st' →
  count_booked_for_day st' sid d
  = count_booked_for_day st sid d + Z.of_nat (length ps)
  ∧ services st' = services st
  ∧ (ps ≠ [] →
     is_date_allowed today d = Ok true
     ∧ ∃ service, get_service st sid = Ok service).
Proof.
  intros Hall. revert st. induction Hall as [|[now p] ps [Hs Hd] Hall IH];
    intros st Hrun; simpl in Hrun.
  - injection Hrun as <-. split; [simpl; lia|]. split; [done|]. by intros [].
  - destruct (create_appointment today now p st) as [[out|e] st1] eqn:Hc;
      [|discriminate].
    destruct (IH _ Hrun) as (Hcount & Hsvc & _).
    pose proof (create_appointment_services _ _ _ _ _ _ Hc) as Hsvc1.
    rewrite (count_booked_for_day_after_create _ _ _ _ _ _ sid d Hc) in Hcount.
    simpl in Hs, Hd. rewrite decide_True in Hcount by done.
    split; [rewrite Hcount, length_cons; lia|].
    split; [congruence|]. intros _.
    apply create_appointment_Ok in Hc as (service & Hv & _).
    apply validate_request_Ok in Hv as (Hdate & Hget & _).
    rewrite Hd in Hdate. rewrite Hs in Hget. split; [exact Hdate|by exists service].
Qed.

(** The capacity check on the text of the date: handled one after the
    other, requests never leave more than [DAILY_CAPACITY] = 16 booked
    appointments on a service and date text.  After 16 successful bookings
    in a row for one of them, a further create for it on the same day
    fails: with DayFull (409) for
    every time of the slot catalog, and with InvalidSlot (400) for a time
    outside the catalog, which the handler checks first. *)
Theorem day_capacity_sequential (today : date) (st st' : database)
    (ps : list (string * AppointmentCreate.t)) (sid : Z) (d : string) :
  Z.of_nat (length ps) = DAILY_CAPACITY →
  Forall (λ p, AppointmentCreate.service_id p.2 = sid
               ∧ AppointmentCreate.appt_date p.2 = d) ps →
  all_booked today ps st = Some st' →
  (∀ now payload,
     AppointmentCreate.service_id payload = sid →
     AppointmentCreate.appt_date payload = d →
     create_appointment today now payload st'
     = (Raise (if bool_decide (AppointmentCreate.appt_time payload ∈ ALL_SLOTS)
               then day_full else invalid_slot), st'))
  ∧ (∀ st0 rs, within_capacity st0 → within_capacity (run rs st0))
  ∧ within_capacity (init_db new_database).
Proof.
  intros Hlen Hall Hrun. split; [|split].
  - intros now payload Hs Hd.
    destruct (all_booked_count _ _ _ _ _ _ Hall Hrun) as (Hcount & Hsvc & Hok).
    destruct Hok as (Hdate & service & Hget).
    { intros ->. simpl in Hlen. rewrite DAILY_CAPACITY_eq in Hlen. lia. }
    case_bool_decide as Hslot.
    + apply create_appointment_day_full with (service := service).
      * apply validate_request_Ok. rewrite Hs, Hd.
        rewrite (get_service_services _ _ _ Hsvc). done.
      * rewrite Hs, Hd, Hcount, Hlen.
        assert (0 <= count_booked_for_day st sid d)
          by (unfold count_booked_for_day; lia).
        lia.
    + unfold create_appointment, validate_request.
      rewrite Hd, Hdate, Hs, (get_service_services _ _ _ Hsvc), Hget.
      cbn [bind negb]. by rewrite bool_decide_eq_true_2.
  - intros st0 rs. apply (run_invariant within_capacity handle_within_capacity).
  - apply new_database_invariants.
Qed.

Lemma full_day_bookings_all_booked :
  all_booked today_ex full_day_bookings (init_db new_database) = Some full_day_db.
Proof. vm_compute. reflexivity. Qed.

Lemma day_capacity_sequential_witness :
  create_appointment today_ex now_ex (booking "09:00") full_day_db
  = (Raise day_full, full_day_db).
Proof.
  refine (proj1 (day_capacity_sequential today_ex (init_db new_database)
                   full_day_db full_day_bookings 1 "2026-11-03" _ _ _)
            now_ex (booking "09:00") _ _).
  - vm_compute. reflexivity.
  - unfold full_day_bookings. rewrite ALL_SLOTS_eq. repeat constructor.
  - vm_compute. reflexivity.
  - reflexivity.
  - reflexivity.
Defined.

(** The slot check comes before the capacity check: after the 16
    bookings of the day, a create for the same service and date with a time
    that is not a slot is answered InvalidSlot (400), not DayFull. *)
Lemma full_day_invalid_time_not_day_full :
  all_booked today_ex full_day_bookings (init_db new_database) = Some full_day_db
  ∧ Z.of_nat (length full_day_bookings) = DAILY_CAPACITY
  ∧ count_booked_for_day full_day_db 1 "2026-11-03" = DAILY_CAPACITY
  ∧ create_appointment today_ex now_ex (booking "08:00") full_day_db
    = (Raise (HTTPException 400 "Invalid time slot"), full_day_db)
  ∧ (create_appointment today_ex now_ex (booking "08:00") full_day_db).1
    ≠ Raise day_full.
Proof.
  split; [vm_compute; reflexivity|].
  split; [vm_compute; reflexivity|].
  split; [vm_compute; reflexivity|].
  split; [vm_compute; reflexivity|vm_compute; discriminate].
Qed.

(** ** ORDER BY *)

Section order_by_facts.
Context {A : Type} (le : A → A → bool).

Lemma insert_row_perm x l : insert_row le x l ≡ₚ x :: l.
Proof.
  induction l as [|y l IH]; simpl; [done|].
  destruct (le x y); [done|]. rewrite IH. apply Permutation_swap.
Qed.

Lemma order_by_perm l : order_by le l ≡ₚ l.
Proof.
  induction l as [|x l IH]; simpl; [done|].
  rewrite insert_row_perm. by rewrite IH.
Qed.

Lemma order_by_length l : length (order_by le l) = length l.
Proof. apply Permutation_length, order_by_perm. Qed.

Lemma order_by_elem_of x l : x ∈ order_by le l ↔ x ∈ l.
Proof. by rewrite order_by_perm. Qed.

Hypothesis le_total : ∀ x y, le x y = true ∨ le y x = true.
Hypothesis le_trans : ∀ x y z, le x y = true → le y z = true → le x z = true.

Lemma insert_row_sorted x l :
  StronglySorted (λ a b, le a b = true) l →
  StronglySorted (λ a b, le a b = true) (insert_row le x l).
Proof.
  induction 1 as [|y l Hsorted IH Hall]; simpl.
  - repeat constructor.
  - destruct (le x y) eqn:Hxy.
    + constructor; [by constructor|].
      constructor; [exact Hxy|].
      eapply Forall_impl; [exact Hall|]. intros z Hz. by eapply le_trans.
    + constructor; [exact IH|].
      rewrite insert_row_perm. constructor; [|exact Hall].
      destruct (le_total x y) as [H|H]; [congruence|exact H].
Qed.

Lemma order_by_sorted l : StronglySorted (λ a b, le a b = true) (order_by le l).
Proof.
  induction l as [|x l IH]; simpl; [constructor|].
  by apply insert_row_sorted.
Qed.
End order_by_facts.

(** A change of the rows that the ordering does not look at commutes with
    the [ORDER BY]. *)
Lemma insert_row_fmap {A} (le : A → A → bool) (f : A → A) x l :
  (∀ x y, le (f x) (f y) = le x y) →
  insert_row le (f x) (f <$> l) = f <$> insert_row le x l.
Proof.
  intros Hf. induction l as [|y r IH]; [done|].
  rewrite fmap_cons. cbn [insert_row]. rewrite Hf.
  destruct (le x y); [done|]. by rewrite fmap_cons, IH.
Qed.

Lemma order_by_fmap {A} (le : A → A → bool) (f : A → A) l :
  (∀ x y, le (f x) (f y) = le x y) →
  order_by le (f <$> l) = f <$> order_by le l.
Proof.
  intros Hf. unfold order_by. induction l as [|x l IH]; [done|].
  rewrite fmap_cons. cbn [foldr]. rewrite IH. by apply insert_row_fmap.
Qed.

(** ** The byte order of TEXT *)

Lemma ascii_compare_N a b :
  Ascii.compare a b = N.compare (N_of_ascii a) (N_of_ascii b).
Proof. reflexivity. Qed.

Lemma ascii_compare_Eq a b : Ascii.compare a b = Eq ↔ a = b.
Proof.
  split; [apply Ascii.compare_eq_iff|].
  intros ->. rewrite ascii_compare_N. apply N.compare_refl.
Qed.

Lemma ascii_compare_Lt_trans a b c :
  Ascii.compare a b = Lt → Ascii.compare b c = Lt → Ascii.compare a c = Lt.
Proof. rewrite !ascii_compare_N, !N.compare_lt_iff. lia. Qed.

Lemma string_compare_refl s : String.compare s s = Eq.
Proof.
  induction s as [|a s IH]; [done|]. simpl.
  by rewrite (proj2 (ascii_compare_Eq a a) eq_refl).
Qed.

Lemma string_compare_Lt_trans s1 s2 s3 :
  String.compare s1 s2 = Lt → String.compare s2 s3 = Lt →
  String.compare s1 s3 = Lt.
Proof.
  revert s2 s3. induction s1 as [|a s1 IH]; intros [|b s2] [|c s3]; simpl;
    try done.
  destruct (Ascii.compare a b) eqn:Hab; [|  |done].
  - apply ascii_compare_Eq in Hab as ->.
    destruct (Ascii.compare b c); [apply IH|done|done].
  - destruct (Ascii.compare b c) eqn:Hbc; [| |done].
    + apply ascii_compare_Eq in Hbc as ->. by rewrite Hab.
    + by rewrite (ascii_compare_Lt_trans _ _ _ Hab Hbc).
Qed.

Lemma string_compare_Gt_Lt s1 s2 :
  String.compare s1 s2 = Gt ↔ String.compare s2 s1 = Lt.
Proof.
  rewrite (String.compare_antisym s2 s1).
  destruct (String.compare s1 s2); simpl; split; (done || discriminate).
Qed.

Lemma text_leb_total a b : text_leb a b = true ∨ text_leb b a = true.
Proof. apply String.leb_total. Qed.

Lemma text_leb_trans a b c :
  text_leb a b = true → text_leb b c = true → text_leb a c = true.
Proof.
  unfold text_leb, String.leb.
  destruct (String.compare a b) eqn:Hab; [| |done];
    destruct (String.compare b c) eqn:Hbc; try done; intros _ _.
  - apply String.compare_eq_iff in Hab as ->. by rewrite Hbc.
  - apply String.compare_eq_iff in Hab as ->. by rewrite Hbc.
  - apply String.compare_eq_iff in Hbc as ->. by rewrite Hab.
  - by rewrite (string_compare_Lt_trans _ _ _ Hab Hbc).
Qed.

Lemma newest_first_total x y :
  newest_first x y = true ∨ newest_first y x = true.
Proof.
  unfold newest_first.
  rewrite (String.compare_antisym (Appt.appt_date x.1) (Appt.appt_date y.1)).
  destruct (String.compare (Appt.appt_date y.1) (Appt.appt_date x.1)); simpl;
    [|by left|by right].
  destruct (text_leb_total (Appt.appt_time y.1) (Appt.appt_time x.1)); auto.
Qed.

Lemma newest_first_trans x y z :
  newest_first x y = true → newest_first y z = true → newest_first x z = true.
Proof.
  unfold newest_first.
  destruct (String.compare (Appt.appt_date x.1) (Appt.appt_date y.1)) eqn:Hxy;
    [|done|].
  - apply String.compare_eq_iff in Hxy. rewrite Hxy.
    destruct (String.compare (Appt.appt_date y.1) (Appt.appt_date z.1));
      [|done|done].
    intros H1 H2. by eapply text_leb_trans.
  - intros _.
    destruct (String.compare (Appt.appt_date y.1) (Appt.appt_date z.1)) eqn:Hyz;
      [|done|]; intros _.
    + apply String.compare_eq_iff in Hyz. by rewrite <- Hyz, Hxy.
    + apply string_compare_Gt_Lt in Hxy, Hyz.
      pose proof (string_compare_Lt_trans _ _ _ Hyz Hxy) as Hzx.
      apply string_compare_Gt_Lt in Hzx. by rewrite Hzx.
Qed.

(** ** [str.strip] *)

Lemma rstrip_cons_nonspace c r :
  isspace c = false → rstrip (String c r) = String c (rstrip r).
Proof. intros Hc. simpl. rewrite Hc. by destruct (rstrip r). Qed.

Lemma rstrip_idemp s : rstrip (rstrip s) = rstrip s.
Proof.
  induction s as [|c r IH]; [done|]. simpl.
  destruct (rstrip r) as [|c' r'] eqn:Hr.
  - destruct (isspace c) eqn:Hc; [done|]. simpl. by rewrite Hc.
  - cbn [rstrip] in *. by rewrite IH.
Qed.

Lemma lstrip_head s :
  lstrip s = EmptyString
  ∨ ∃ c r, lstrip s = String c r ∧ isspace c = false.
Proof.
  induction s as [|c r IH]; [by left|]. simpl.
  destruct (isspace c) eqn:Hc; [exact IH|]. right. by exists c, r.
Qed.

Lemma strip_idemp s : strip (strip s) = strip s.
Proof.
  unfold strip. destruct (lstrip_head s) as [->|(c & r & -> & Hc)]; [done|].
  rewrite rstrip_cons_nonspace by done.
  cbn [lstrip]. rewrite Hc. rewrite <- rstrip_cons_nonspace by done.
  apply rstrip_idemp.
Qed.

(** ** Listing by phone *)

Lemma join_by_phone_elem_of st phone a s :
  (a, s) ∈ join_by_phone st phone
  ↔ a ∈ appointments st ∧ s ∈ services st
    ∧ Service.id s = Appt.service_id a ∧ Appt.phone a = phone.
Proof.
  unfold join_by_phone. rewrite list_elem_of_bind. split.
  - intros (a' & Hin & Ha). apply list_elem_of_bind in Hin as (s' & Hin & Hs).
    case_bool_decide as Hc; [|by apply elem_of_nil in Hin].
    apply list_elem_of_singleton in Hin as [= -> ->]. by destruct Hc.
  - intros (Ha & Hs & Hid & Hph). exists a. split; [|done].
    apply list_elem_of_bind. exists s. split; [|done].
    rewrite bool_decide_eq_true_2 by done. by apply list_elem_of_singleton.
Qed.

(** The listing has no condition on [status]: it holds one record for each
    appointment with the phone and each service row of its service. *)
Lemma list_appointments_elem_of st phone o :
  o ∈ list_appointments st phone
  ↔ ∃ a s, a ∈ appointments st ∧ s ∈ services st
           ∧ Service.id s = Appt.service_id a
           ∧ Appt.phone a = strip phone
           ∧ o = out_row (a, s).
Proof.
  unfold list_appointments. rewrite list_elem_of_fmap. split.
  - intros ([a s] & -> & Hin). apply order_by_elem_of in Hin.
    apply join_by_phone_elem_of in Hin as (? & ? & ? & ?). by exists a, s.
  - intros (a & s & Ha & Hs & Hid & Hph & ->). exists (a, s). split; [done|].
    apply order_by_elem_of. by apply join_by_phone_elem_of.
Qed.

Lemma newest_first_newer_or_same x y :
  newest_first x y = true → newer_or_same (out_row x) (out_row y).
Proof.
  unfold newest_first, newer_or_same, text_ltb, String.ltb. simpl.
  destruct (String.compare (Appt.appt_date x.1) (Appt.appt_date y.1)) eqn:Hc;
    [|done|]; intros H.
  - right. split; [|exact H]. by apply String.compare_eq_iff.
  - left. apply string_compare_Gt_Lt in Hc. by rewrite Hc.
Qed.

Lemma list_appointments_sorted st phone :
  StronglySorted newer_or_same (list_appointments st phone).
Proof.
  unfold list_appointments.
  apply StronglySorted_fmap with (R1 := λ x y, newest_first x y = true).
  - apply newest_first_newer_or_same.
  - apply order_by_sorted; [apply newest_first_total|apply newest_first_trans].
Qed.

Lemma get_service_Ok st sid service :
  get_service st sid = Ok service →
  service ∈ services st ∧ Service.id service = sid.
Proof.
  unfold get_service.
  destruct (fits_sqlite_int sid); cbn [negb]; [|discriminate].
  destruct (head (filter (λ s, Service.id s = sid) (services st)))
    as [row|] eqn:Hhead; [|discriminate].
  intros [= ->]. apply head_Some_elem_of in Hhead.
  by apply list_elem_of_filter in Hhead as [? ?].
Qed.

(** The round trip: an appointment that [create_appointment] returns is
    found again by listing with the same phone (as sent, or as returned), as
    the very record that was returned: name and phone trimmed, situation,
    service, date and time as sent, status [booked].  Every listing is in
    the order of the query: date text descending, then time descending. *)
Theorem create_then_list_round_trip (today : date) (now : string)
    (payload : AppointmentCreate.t) (st st' : database) (out : AppointmentOut.t) :
  create_appointment today now payload st = (Ok out, st') →
  (AppointmentOut.patient_name out = strip (AppointmentCreate.patient_name payload)
   ∧ AppointmentOut.phone out = strip (AppointmentCreate.phone payload)
   ∧ AppointmentOut.situation_type out = AppointmentCreate.situation_type payload
   ∧ AppointmentOut.service_id out = AppointmentCreate.service_id payload
   ∧ AppointmentOut.appt_date out = AppointmentCreate.appt_date payload
   ∧ AppointmentOut.appt_time out = AppointmentCreate.appt_time payload
   ∧ AppointmentOut.status out = "booked")
  ∧ out ∈ list_appointments st' (AppointmentCreate.phone payload)
  ∧ out ∈ list_appointments st' (AppointmentOut.phone out)
  ∧ (∀ phone, StronglySorted newer_or_same (list_appointments st' phone)).
Proof.
  intros Hc.
  apply create_appointment_Ok in Hc as (service & Hv & _ & _ & Hins).
  apply validate_request_Ok in Hv as (_ & Hget & _).
  apply get_service_Ok in Hget as [Hsvc Hid].
  unfold insert_appointment in Hins. injection Hins as <- <-.
  split; [done|]. cbn [AppointmentOut.phone].
  assert (Hlisted : ∀ phone,
    strip phone = strip (AppointmentCreate.phone payload) →
    AppointmentOut.mk (next_rowid st)
      (strip (AppointmentCreate.patient_name payload))
      (strip (AppointmentCreate.phone payload))
      (AppointmentCreate.situation_type payload)
      (AppointmentCreate.service_id payload) (Service.name service)
      (AppointmentCreate.appt_date payload)
      (AppointmentCreate.appt_time payload) "booked" now
    ∈ list_appointments
        (mkdb (services st)
           (appointments st ++ [new_row (next_rowid st) now payload])
           (next_rowid st)) phone).
  { intros phone Hphone. apply list_appointments_elem_of.
    exists (new_row (next_rowid st) now payload), service.
    cbn [appointments services]. rewrite Hphone.
    split; [apply elem_of_app; right; by apply list_elem_of_singleton|].
    done. }
  split; [by apply Hlisted|].
  split; [apply Hlisted, strip_idemp|].
  intros phone. apply list_appointments_sorted.
Qed.

Lemma create_then_list_round_trip_witness :
  first_record ∈ list_appointments one_booking_db "  555-0100 ".
Proof.
  refine (proj1 (proj2 (create_then_list_round_trip today_ex now_ex
                          padded_booking (init_db new_database) one_booking_db
                          first_record _))).
  vm_compute. reflexivity.
Defined.

(** ** Cancelled appointments stay listed *)

Lemma join_by_phone_after_update appt_id st phone :
  join_by_phone (update_cancelled appt_id st) phone
  = (λ r, (if bool_decide (Appt.id r.1 = appt_id)
           then Appt.set_status "cancelled" r.1 else r.1, r.2))
    <$> join_by_phone st phone.
Proof.
  unfold join_by_phone, update_cancelled. cbn [appointments services].
  induction (appointments st) as [|a l IH]; [done|].
  rewrite fmap_cons, !bind_cons, fmap_app, IH. f_equal. clear IH.
  induction (services st) as [|s r IHs]; [done|].
  rewrite !bind_cons, fmap_app, IHs. f_equal.
  assert (Hsame :
    Appt.service_id (if bool_decide (Appt.id a = appt_id)
                     then Appt.set_status "cancelled" a else a)
    = Appt.service_id a
    ∧ Appt.phone (if bool_decide (Appt.id a = appt_id)
                  then Appt.set_status "cancelled" a else a) = Appt.phone a)
    by (by case_bool_decide).
  destruct Hsame as [Hsid Hph]. rewrite Hsid, Hph.
  destruct (bool_decide (Service.id s = Appt.service_id a ∧ Appt.phone a = phone));
    reflexivity.
Qed.

Lemma list_appointments_after_update appt_id st phone :
  list_appointments (update_cancelled appt_id st) phone
  = cancelled_record appt_id <$> list_appointments st phone.
Proof.
  unfold list_appointments.
  rewrite join_by_phone_after_update, order_by_fmap.
  - rewrite <- !list_fmap_compose. apply list_fmap_ext.
    intros _ [a s] _. unfold cancelled_record, out_row; simpl.
    by case_bool_decide.
  - intros [a1 s1] [a2 s2]. unfold newest_first; simpl.
    by repeat case_bool_decide.
Qed.

(** C10: the listing selects on the trimmed phone alone.  It has one record
    for every stored appointment with that phone (and known service),
    whatever its status; the cancelling UPDATE leaves the listing as it was
    but for the status of that appointment, so a cancel never shortens a
    listing and the cancelled appointment is still in it (its identifier
    being one that SQLite holds). *)
Theorem list_appointments_ignores_status (st : database) (phone : string) :
  (∀ o, o ∈ list_appointments st phone
        ↔ ∃ a s, a ∈ appointments st ∧ s ∈ services st
                 ∧ Service.id s = Appt.service_id a
                 ∧ Appt.phone a = strip phone
                 ∧ o = out_row (a, s))
  ∧ (∀ appt_id,
       list_appointments (update_cancelled appt_id st) phone
       = cancelled_record appt_id <$> list_appointments st phone)
  ∧ (∀ appt_id,
       length (list_appointments (cancel_appointment appt_id st).2 phone)
       = length (list_appointments st phone))
  ∧ (∀ appt_id row s,
       fits_sqlite_int appt_id = true →
       select_appointment st appt_id = Some row →
       s ∈ services st → Service.id s = Appt.service_id row →
       Appt.phone row = strip phone →
       (cancel_appointment appt_id st).1 = Ok (CancelResult.mk true)
       ∧ out_row (Appt.set_status "cancelled" row, s)
         ∈ list_appointments (cancel_appointment appt_id st).2 phone).
Proof.
  split; [intros o; apply list_appointments_elem_of|].
  split; [intros appt_id; apply list_appointments_after_update|].
  split.
  - intros appt_id. unfold cancel_appointment.
    destruct (fits_sqlite_int appt_id); cbn [negb]; [|done].
    destruct (select_appointment st appt_id) as [row|]; [|done].
    case_bool_decide; [done|]. cbn [snd].
    by rewrite list_appointments_after_update, length_fmap.
  - intros appt_id row s Hfits Hsel Hs Hid Hphone.
    pose proof (select_appointment_Some _ _ _ Hsel) as [Hrow Hrid].
    rewrite cancel_appointment_in_range, Hsel by done.
    case_bool_decide as Hst; cbn [fst snd]; (split; [done|]).
    + rewrite <- Hst, set_status_same.
      apply list_appointments_elem_of. by exists row, s.
    + rewrite list_appointments_after_update. apply list_elem_of_fmap.
      exists (out_row (row, s)). split.
      * unfold cancelled_record, out_row; simpl.
        by rewrite bool_decide_eq_true_2.
      * apply list_appointments_elem_of. by exists row, s.
Qed.

Lemma list_appointments_ignores_status_witness :
  list_appointments (cancel_appointment 1 one_booking_db).2 "555-0100"
  = [cancelled_record 1 first_record].
Proof.
  pose proof (proj1 (proj2 (list_appointments_ignores_status one_booking_db
                              "555-0100")) 1) as Hlist.
  vm_compute in Hlist. vm_compute. exact Hlist.
Defined.

(** ** Dates *)

Ltac bool_to_prop :=
  repeat first
    [ rewrite andb_true_iff in * | rewrite orb_true_iff in *
    | rewrite negb_true_iff in * | rewrite andb_false_iff in *
    | rewrite orb_false_iff in * | rewrite negb_false_iff in *
    | rewrite Z.leb_le in * | rewrite Z.ltb_lt in * | rewrite Z.eqb_eq in *
    | rewrite Z.leb_gt in * | rewrite Z.ltb_ge in * | rewrite Z.eqb_neq in * ].

Lemma date_ltb_lt a b : date_ltb a b = true ↔ date_lt a b.
Proof. unfold date_ltb, date_lt. bool_to_prop. reflexivity. Qed.

Lemma date_ltb_ge a b : date_ltb a b = false ↔ ¬ date_lt a b.
Proof. rewrite <- date_ltb_lt. by destruct (date_ltb a b). Qed.

Lemma date_leb_le a b : date_leb a b = true ↔ date_le a b.
Proof. unfold date_leb, date_le. rewrite negb_true_iff. apply date_ltb_ge. Qed.

Lemma days_in_month_bounds y m : 28 <= days_in_month y m <= 31.
Proof.
  unfold days_in_month.
  destruct (m =? 2); [destruct (is_leap y); lia|].
  destruct ((m =? 4) || (m =? 6) || (m =? 9) || (m =? 11)); lia.
Qed.

Lemma valid_ymd_bounds y m d :
  valid_ymd y m d = true
  ↔ (1 <= y <= 9999) ∧ (1 <= m <= 12) ∧ (1 <= d <= days_in_month y m).
Proof. unfold valid_ymd, MINYEAR, MAXYEAR. bool_to_prop. lia. Qed.

Lemma date_new_Ok y m d x :
  date_new y m d = Ok x ↔ valid_ymd y m d = true ∧ x = mkdate y m d.
Proof.
  unfold date_new.
  destruct (fits_c_int y && fits_c_int m && fits_c_int d) eqn:Hfits; cbn [negb].
  - destruct (valid_ymd y m d).
    + split; [by intros [= <-]|by intros [_ ->]].
    + split; [discriminate|by intros [? _]].
  - split; [discriminate|]. intros [Hvalid _]. exfalso.
    apply valid_ymd_bounds in Hvalid.
    pose proof (days_in_month_bounds y m).
    apply not_true_iff_false in Hfits. apply Hfits.
    unfold fits_c_int. bool_to_prop. lia.
Qed.

Lemma date_new_valid y m d :
  valid_ymd y m d = true → date_new y m d = Ok (mkdate y m d).
Proof. intros Hvalid. by apply date_new_Ok. Qed.

Lemma add_months_Ok d months x :
  add_months d months = Ok x
  ↔ (1 <= year d + (month d - 1 + months) / 12 <= 9999)
    ∧ x = mkdate (year d + (month d - 1 + months) / 12)
                 ((month d - 1 + months) mod 12 + 1) 1.
Proof.
  unfold add_months. rewrite date_new_Ok, valid_ymd_bounds.
  pose proof (Z.mod_pos_bound (month d - 1 + months) 12).
  pose proof (days_in_month_bounds (year d + (month d - 1 + months) / 12)
                ((month d - 1 + months) mod 12 + 1)).
  intuition lia.
Qed.

(** One month after three months is four months. *)
Lemma add_months_3_1 cur upper :
  1 <= month cur <= 12 → 1 <= year cur →
  add_months cur (ALLOWED_MONTHS_AHEAD + 1) = Ok upper →
  ∃ max_month,
    add_months cur ALLOWED_MONTHS_AHEAD = Ok max_month
    ∧ add_months max_month 1 = Ok upper.
Proof.
  unfold ALLOWED_MONTHS_AHEAD. intros Hm Hy Hup.
  apply add_months_Ok in Hup as [Hrange ->].
  exists (mkdate (year cur + (month cur - 1 + 3) / 12)
            ((month cur - 1 + 3) mod 12 + 1) 1).
  rewrite !add_months_Ok. cbn [year month day].
  repeat split; try f_equal; Z.div_mod_to_equations; lia.
Qed.

(** ** [strptime] on the texts that [strftime] writes *)

Ltac enum_range x lo len :=
  let H := fresh "Hrange" in
  assert (H : x ∈ seqZ lo len) by (apply elem_of_seqZ; lia);
  vm_compute in H;
  repeat (apply elem_of_cons in H as [->|H]);
  [..|by apply elem_of_nil in H].

Lemma digit_val_digit_char k : 0 <= k <= 9 → digit_val (digit_char k) = Some k.
Proof. intros Hk. enum_range k 0 10; reflexivity. Qed.

Lemma in_range_digit k : 0 <= k <= 9 → in_range (digit_char k) 0 9 = Some k.
Proof.
  intros Hk. unfold in_range. rewrite digit_val_digit_char by done.
  destruct (Z.leb_spec 0 k), (Z.leb_spec k 9); simpl; (done || lia).
Qed.

Lemma pad4_app y s :
  pad4 y +:+ s
  = String (digit_char (y / 1000 mod 10))
      (String (digit_char (y / 100 mod 10))
         (String (digit_char (y / 10 mod 10))
            (String (digit_char (y mod 10)) s))).
Proof. reflexivity. Qed.

Lemma re_Y_pad4 {A} (k : Z → string → option A) y s :
  0 <= y <= 9999 → re_Y k (pad4 y +:+ s) = k y s.
Proof.
  intros Hy. rewrite pad4_app. unfold re_Y, re_two.
  rewrite !in_range_digit by (Z.div_mod_to_equations; lia).
  f_equal. Z.div_mod_to_equations. lia.
Qed.

Lemma re_tail_md {A} (a : A) m d :
  1 <= m <= 12 → 1 <= d <= 31 →
  re_lit "-" (re_m (λ m', re_lit "-" (re_d (λ d', consumed (a, m', d')))))
    ("-" +:+ pad2 m +:+ "-" +:+ pad2 d)
  = Some ((a, m, d), EmptyString).
Proof.
  intros Hm Hd. enum_range m 1 12; enum_range d 1 31; vm_compute; reflexivity.
Qed.

Lemma re_tail_m {A} (a : A) m :
  1 <= m <= 12 →
  re_lit "-" (re_m (λ m', consumed (a, m'))) ("-" +:+ pad2 m)
  = Some ((a, m), EmptyString).
Proof. intros Hm. enum_range m 1 12; vm_compute; reflexivity. Qed.

Lemma strptime_Ymd_strftime d :
  valid_date d = true → strptime_Ymd (strftime_Ymd d) = Ok d.
Proof.
  destruct d as [y m dd]. unfold valid_date. cbn [year month day].
  intros Hvalid. pose proof Hvalid as Hb.
  apply valid_ymd_bounds in Hb as (Hy & Hm & Hd).
  pose proof (days_in_month_bounds y m).
  unfold strptime_Ymd, strftime_Ymd. cbn [year month day].
  rewrite re_Y_pad4 by lia. rewrite re_tail_md by lia.
  by rewrite date_new_valid.
Qed.

Lemma strptime_Ym_format y m :
  valid_ymd y m 1 = true → strptime_Ym (format_Ym y m) = Ok (mkdate y m 1).
Proof.
  intros Hvalid. pose proof Hvalid as Hb.
  apply valid_ymd_bounds in Hb as (Hy & Hm & Hd).
  unfold strptime_Ym, format_Ym.
  rewrite re_Y_pad4 by lia. rewrite re_tail_m by lia.
  by rewrite date_new_valid.
Qed.

(** ** Window policy: dates *)

Lemma is_date_allowed_parsed today ds req upper :
  valid_date today = true →
  strptime_Ymd ds = Ok req →
  add_months (first_day_of_month today) (ALLOWED_MONTHS_AHEAD + 1) = Ok upper →
  is_date_allowed today ds
  = Ok (date_leb today req && date_ltb req (first_day_of_month upper)).
Proof.
  intros Htoday Hparse Hup.
  apply valid_ymd_bounds in Htoday as (Hy & Hm & Hd).
  destruct (add_months_3_1 (first_day_of_month today) upper)
    as (max_month & Hmax & Hup1); [simpl; lia|simpl; lia|exact Hup|].
  apply add_months_Ok in Hup as [_ Hupper].
  assert (first_day_of_month upper = upper) as -> by (by rewrite Hupper).
  unfold is_date_allowed. rewrite Hmax, Hparse. cbn [bind]. rewrite Hup1.
  cbn [bind]. unfold date_leb.
  destruct (date_ltb req today) eqn:Hlt; [done|]. cbn [negb andb].
  destruct (date_ltb req (first_day_of_month today)) eqn:Hcur.
  - exfalso. apply date_ltb_ge in Hlt. apply date_ltb_lt in Hcur.
    apply Hlt. unfold date_lt, first_day_of_month, replace_day1 in *.
    cbn [year month day] in *. lia.
  - by destruct (date_ltb req upper).
Qed.

Lemma today_before_upper today upper :
  valid_date today = true →
  add_months (first_day_of_month today) (ALLOWED_MONTHS_AHEAD + 1) = Ok upper →
  date_lt today (first_day_of_month upper).
Proof.
  intros Htoday Hup.
  apply valid_ymd_bounds in Htoday as (Hy & Hm & Hd).
  apply add_months_Ok in Hup as [_ ->].
  unfold date_lt, first_day_of_month, replace_day1, ALLOWED_MONTHS_AHEAD.
  cbn [year month day]. Z.div_mod_to_equations. lia.
Qed.

(** C2: with N = [ALLOWED_MONTHS_AHEAD] = 3, for every date [d] written as
    YYYY-MM-DD, [is_date_allowed] returns, and returns true exactly when
    [today <= d < first_day_of_month(add_months(current month start, N+1))];
    today itself is allowed and every earlier date is rejected.  The same
    holds for any text that [strptime] reads as the date [req]. *)
Theorem is_date_allowed_window (today d upper : date) :
  valid_date today = true →
  valid_date d = true →
  add_months (first_day_of_month today) (ALLOWED_MONTHS_AHEAD + 1) = Ok upper →
  ALLOWED_MONTHS_AHEAD = 3
  ∧ is_date_allowed today (strftime_Ymd d)
    = Ok (date_leb today d && date_ltb d (first_day_of_month upper))
  ∧ (is_date_allowed today (strftime_Ymd d) = Ok true
     ↔ date_le today d ∧ date_lt d (first_day_of_month upper))
  ∧ is_date_allowed today (strftime_Ymd today) = Ok true
  ∧ (date_lt d today → is_date_allowed today (strftime_Ymd d) = Ok false)
  ∧ (∀ ds req,
       strptime_Ymd ds = Ok req →
       is_date_allowed today ds
       = Ok (date_leb today req && date_ltb req (first_day_of_month upper))).
Proof.
  intros Htoday Hd Hup.
  assert (Hgen : ∀ ds req,
    strptime_Ymd ds = Ok req →
    is_date_allowed today ds
    = Ok (date_leb today req && date_ltb req (first_day_of_month upper)))
    by (intros ds req Hparse; by apply is_date_allowed_parsed).
  pose proof (Hgen _ _ (strptime_Ymd_strftime d Hd)) as Hday.
  split; [done|]. split; [exact Hday|]. split; [|split; [|split; [|exact Hgen]]].
  - rewrite Hday. rewrite <- date_leb_le, <- date_ltb_lt.
    destruct (date_leb today d), (date_ltb d (first_day_of_month upper));
      simpl; split; (done || intros [? ?]; done || intros [=]).
  - rewrite (Hgen _ _ (strptime_Ymd_strftime today Htoday)).
    f_equal. apply andb_true_iff. split.
    + apply date_leb_le. unfold date_le, date_lt. lia.
    + apply date_ltb_lt. by apply today_before_upper.
  - intros Hlt. rewrite Hday. f_equal. apply andb_false_iff. left.
    unfold date_leb. apply negb_false_iff. by apply date_ltb_lt.
Qed.

Lemma is_date_allowed_window_witness :
  is_date_allowed today_ex "2027-02-28" = Ok true
  ∧ is_date_allowed today_ex "2027-03-01" = Ok false
  ∧ is_date_allowed today_ex "2026-11-03" = Ok true
  ∧ is_date_allowed today_ex "2026-11-02" = Ok false.
Proof.
  assert (Hv : ∀ d, valid_date d = true →
    is_date_allowed today_ex (strftime_Ymd d)
    = Ok (date_leb today_ex d && date_ltb d (mkdate 2027 3 1))).
  { intros d Hd.
    refine (proj1 (proj2 (is_date_allowed_window today_ex d (mkdate 2027 3 1)
                            _ Hd _))); vm_compute; reflexivity. }
  split; [|split; [|split]].
  - exact (Hv (mkdate 2027 2 28) eq_refl).
  - exact (Hv (mkdate 2027 3 1) eq_refl).
  - exact (Hv (mkdate 2026 11 3) eq_refl).
  - exact (Hv (mkdate 2026 11 2) eq_refl).
Defined.

(** ** What [strptime] accepts for "%Y-%m" *)

Lemma digit_val_inv c v :
  digit_val c = Some v → 0 <= v <= 9 ∧ c = digit_char v.
Proof.
  unfold digit_val, digit_char.
  destruct ((48 <=? Z.of_N (N_of_ascii c)) && (Z.of_N (N_of_ascii c) <=? 57))
    eqn:Hr; [|discriminate].
  intros [= <-]. bool_to_prop. split; [lia|].
  replace (Z.to_N (48 + (Z.of_N (N_of_ascii c) - 48))) with (N_of_ascii c) by lia.
  by rewrite ascii_N_embedding.
Qed.

Lemma in_range_inv c lo hi v :
  in_range c lo hi = Some v → lo <= v <= hi ∧ 0 <= v <= 9 ∧ c = digit_char v.
Proof.
  unfold in_range. destruct (digit_val c) as [w|] eqn:Hd; [|discriminate].
  destruct ((lo <=? w) && (w <=? hi)) eqn:Hr; [|discriminate].
  intros [= <-]. apply digit_val_inv in Hd as [? ?]. bool_to_prop. done.
Qed.

Lemma re_two_inv {A} lo1 hi1 lo2 hi2 (k : Z → string → option A) s res :
  re_two lo1 hi1 lo2 hi2 k s = Some res →
  ∃ a b r,
    (lo1 <= a <= hi1) ∧ (lo2 <= b <= hi2) ∧ (0 <= a <= 9) ∧ (0 <= b <= 9)
    ∧ s = String (digit_char a) (String (digit_char b) r)
    ∧ k (10 * a + b) r = Some res.
Proof.
  unfold re_two. destruct s as [|c1 [|c2 r]]; [discriminate..|].
  destruct (in_range c1 lo1 hi1) as [a|] eqn:Ha; [|discriminate].
  destruct (in_range c2 lo2 hi2) as [b|] eqn:Hb; [|discriminate].
  apply in_range_inv in Ha as (? & ? & ->), Hb as (? & ? & ->).
  intros Hk. by exists a, b, r.
Qed.

Lemma re_one_inv {A} lo hi (k : Z → string → option A) s res :
  re_one lo hi k s = Some res →
  ∃ a r, (lo <= a <= hi) ∧ (0 <= a <= 9)
         ∧ s = String (digit_char a) r ∧ k a r = Some res.
Proof.
  unfold re_one. destruct s as [|c r]; [discriminate|].
  destruct (in_range c lo hi) as [a|] eqn:Ha; [|discriminate].
  apply in_range_inv in Ha as (? & ? & ->). intros Hk. by exists a, r.
Qed.

Lemma re_lit_inv {A} c (k : string → option A) s res :
  re_lit c k s = Some res → ∃ r, s = String c r ∧ k r = Some res.
Proof.
  unfold re_lit. destruct s as [|c' r]; [discriminate|].
  destruct (Ascii.eqb_spec c c') as [->|]; [|discriminate].
  intros Hk. by exists r.
Qed.

Lemma orelse_Some {A} (x y : option A) a :
  orelse x y = Some a → x = Some a ∨ y = Some a.
Proof. destruct x; simpl; auto. Qed.

Lemma pad2_digits a b :
  0 <= a <= 9 → 0 <= b <= 9 →
  pad2 (10 * a + b) = String (digit_char a) (String (digit_char b) EmptyString).
Proof.
  intros Ha Hb. unfold pad2.
  replace ((10 * a + b) / 10 mod 10) with a by (Z.div_mod_to_equations; lia).
  replace ((10 * a + b) mod 10) with b by (Z.div_mod_to_equations; lia).
  done.
Qed.

Lemma re_Y_inv {A} (k : Z → string → option A) s res :
  re_Y k s = Some res →
  ∃ y r, (0 <= y <= 9999) ∧ s = pad4 y +:+ r ∧ k y r = Some res.
Proof.
  unfold re_Y. intros H.
  apply re_two_inv in H as (a & b & r1 & _ & _ & Ha & Hb & -> & H).
  apply re_two_inv in H as (c & e & r & _ & _ & Hc & He & -> & H).
  exists (100 * (10 * a + b) + (10 * c + e)), r.
  split; [lia|]. split; [|exact H]. rewrite pad4_app.
  replace ((100 * (10 * a + b) + (10 * c + e)) / 1000 mod 10) with a
    by (Z.div_mod_to_equations; lia).
  replace ((100 * (10 * a + b) + (10 * c + e)) / 100 mod 10) with b
    by (Z.div_mod_to_equations; lia).
  replace ((100 * (10 * a + b) + (10 * c + e)) / 10 mod 10) with c
    by (Z.div_mod_to_equations; lia).
  replace ((100 * (10 * a + b) + (10 * c + e)) mod 10) with e
    by (Z.div_mod_to_equations; lia).
  done.
Qed.

Lemma re_m_inv {A} (k : Z → string → option A) s res :
  re_m k s = Some res →
  ∃ m r, (1 <= m <= 12) ∧ k m r = Some res
         ∧ (s = pad2 m +:+ r ∨ (m <= 9 ∧ s = String (digit_char m) r)).
Proof.
  unfold re_m. intros H.
  apply orelse_Some in H as [H|H]; [|apply orelse_Some in H as [H|H]].
  - apply re_two_inv in H as (a & b & r & ? & ? & ? & ? & -> & H).
    exists (10 * a + b), r. split; [lia|]. split; [exact H|]. left.
    by rewrite pad2_digits.
  - apply re_two_inv in H as (a & b & r & ? & ? & ? & ? & -> & H).
    exists (10 * a + b), r. split; [lia|]. split; [exact H|]. left.
    by rewrite pad2_digits.
  - apply re_one_inv in H as (a & r & ? & ? & -> & H).
    exists a, r. split; [lia|]. split; [exact H|]. right. split; [lia|done].
Qed.

Lemma re_d_inv {A} (k : Z → string → option A) s res :
  re_d k s = Some res → ∃ d r, (1 <= d <= 31) ∧ k d r = Some res.
Proof.
  unfold re_d. intros H.
  apply orelse_Some in H as [H|H]; [|apply orelse_Some in H as [H|H];
    [|apply orelse_Some in H as [H|H]; [|apply orelse_Some in H as [H|H]]]].
  - apply re_two_inv in H as (a & b & r & ? & ? & _ & _ & _ & H).
    exists (10 * a + b), r. split; [lia|exact H].
  - apply re_two_inv in H as (a & b & r & ? & ? & _ & _ & _ & H).
    exists (10 * a + b), r. split; [lia|exact H].
  - apply re_two_inv in H as (a & b & r & ? & ? & _ & _ & _ & H).
    exists (10 * a + b), r. split; [lia|exact H].
  - apply re_one_inv in H as (a & r & ? & _ & _ & H).
    exists a, r. split; [lia|exact H].
  - apply re_lit_inv in H as (r0 & _ & H).
    apply re_one_inv in H as (a & r & ? & _ & _ & H).
    exists a, r. split; [lia|exact H].
Qed.

(** [strptime] either returns a date of the calendar or raises
    [ValueError]: the numbers it reads have at most four digits, so the
    constructor never overflows. *)
Lemma strptime_Ymd_cases s :
  (∃ d, strptime_Ymd s = Ok d ∧ valid_date d = true)
  ∨ strptime_Ymd s = Raise ValueError.
Proof.
  unfold strptime_Ymd.
  destruct (re_Y _ s) as [[[[y m] d] [|c r]]|] eqn:Hre; [|by right|by right].
  apply re_Y_inv in Hre as (y' & r1 & Hy & _ & Hre).
  apply re_lit_inv in Hre as (r2 & _ & Hre).
  apply re_m_inv in Hre as (m' & r3 & Hm & Hre & _).
  apply re_lit_inv in Hre as (r4 & _ & Hre).
  apply re_d_inv in Hre as (d' & r5 & Hd & Hre).
  unfold consumed in Hre. injection Hre as -> -> -> _.
  unfold date_new.
  assert (Hfits : fits_c_int y && fits_c_int m && fits_c_int d = true)
    by (unfold fits_c_int; bool_to_prop; lia).
  rewrite Hfits. cbn [negb].
  destruct (valid_ymd y m d) eqn:Hv; [|by right].
  left. by exists (mkdate y m d).
Qed.

Lemma strptime_Ym_cases s :
  (∃ d, strptime_Ym s = Ok d ∧ valid_date d = true ∧ day d = 1)
  ∨ strptime_Ym s = Raise ValueError.
Proof.
  unfold strptime_Ym.
  destruct (re_Y _ s) as [[[y m] [|c r]]|] eqn:Hre; [|by right|by right].
  apply re_Y_inv in Hre as (y' & r1 & Hy & _ & Hre).
  apply re_lit_inv in Hre as (r2 & _ & Hre).
  apply re_m_inv in Hre as (m' & r3 & Hm & Hre & _).
  unfold consumed in Hre. injection Hre as -> -> _.
  unfold date_new.
  assert (Hfits : fits_c_int y && fits_c_int m && fits_c_int 1 = true)
    by (unfold fits_c_int; bool_to_prop; lia).
  rewrite Hfits. cbn [negb].
  destruct (valid_ymd y m 1) eqn:Hv; [|by right].
  left. by exists (mkdate y m 1).
Qed.

(** [strptime(s, "%Y-%m")] reads exactly the texts YYYY-MM and YYYY-M of a
    year from 1 to 9999 and a month from 1 to 12. *)
Lemma strptime_Ym_Ok s d :
  strptime_Ym s = Ok d
  ↔ valid_ymd (year d) (month d) 1 = true ∧ day d = 1
    ∧ (s = format_Ym (year d) (month d)
       ∨ (month d <= 9 ∧ s = short_Ym (year d) (month d))).
Proof.
  split.
  - unfold strptime_Ym.
    destruct (re_Y _ s) as [[[y m] [|c r]]|] eqn:Hre; [|discriminate..].
    intros Hnew. apply date_new_Ok in Hnew as [Hvalid ->]. cbn [year month day].
    split; [exact Hvalid|]. split; [done|].
    apply re_Y_inv in Hre as (y' & r1 & Hy & -> & Hre).
    apply re_lit_inv in Hre as (r2 & -> & Hre).
    apply re_m_inv in Hre as (m' & r3 & Hm & Hk & Hs).
    unfold consumed in Hk. injection Hk as -> -> ->.
    unfold format_Ym, short_Ym. destruct Hs as [->|[? ->]]; [left|right].
    + unfold pad2. done.
    + done.
  - destruct d as [y m dd]. cbn [year month day].
    intros (Hvalid & -> & [->|[Hm ->]]); [by apply strptime_Ym_format|].
    pose proof Hvalid as Hb. apply valid_ymd_bounds in Hb as (Hy & Hm' & _).
    unfold strptime_Ym, short_Ym. rewrite re_Y_pad4 by lia.
    assert (Htail : re_lit "-" (re_m (λ m', consumed (y, m')))
                      ("-" +:+ String (digit_char m) EmptyString)
                    = Some ((y, m), EmptyString))
      by (enum_range m 1 9; vm_compute; reflexivity).
    rewrite Htail. by rewrite date_new_valid.
Qed.

(** ** Window policy: months *)

Lemma is_month_allowed_parsed today ym d max_month :
  add_months (first_day_of_month today) ALLOWED_MONTHS_AHEAD = Ok max_month →
  strptime_Ym ym = Ok d →
  is_month_allowed today ym
  = Ok (date_leb (first_day_of_month today) (replace_day1 d)
        && date_leb (replace_day1 d) max_month).
Proof.
  intros Hmax Hparse. unfold is_month_allowed. by rewrite Hmax, Hparse.
Qed.

Lemma is_month_allowed_unparsed today ym max_month :
  add_months (first_day_of_month today) ALLOWED_MONTHS_AHEAD = Ok max_month →
  strptime_Ym ym = Raise ValueError →
  is_month_allowed today ym = Raise invalid_month_format.
Proof.
  intros Hmax Hparse. unfold is_month_allowed. by rewrite Hmax, Hparse.
Qed.

Lemma calendar_load_month_not_allowed today st ym service_id :
  is_month_allowed today ym = Ok false →
  calendar_load today st ym service_id = Some (Raise month_not_allowed).
Proof. intros H. unfold calendar_load. by rewrite H. Qed.

(** C7, as the code has it: with N = 3, a year-month text in the format
    YYYY-MM is allowed exactly when its first day lies in [current month
    start, current month start + N months]; the month current + 3 is
    allowed, and current + 4 is not, so that [calendar_load] answers
    OutOfRange (400) for it.  A text that [strptime] cannot read as "%Y-%m"
    fails with InvalidFormat (400); [strptime] reads the texts YYYY-MM and
    also YYYY-M, the month on one digit, which is then handled as that
    month and not refused. *)
Theorem is_month_allowed_window (today : date) (y m : Z) (max_month : date) :
  valid_date today = true →
  valid_ymd y m 1 = true →
  add_months (first_day_of_month today) ALLOWED_MONTHS_AHEAD = Ok max_month →
  ALLOWED_MONTHS_AHEAD = 3
  ∧ (is_month_allowed today (format_Ym y m) = Ok true
     ↔ date_le (first_day_of_month today) (mkdate y m 1)
       ∧ date_le (mkdate y m 1) max_month)
  ∧ (∃ b, is_month_allowed today (format_Ym y m) = Ok b)
  ∧ is_month_allowed today (format_Ym (year max_month) (month max_month)) = Ok true
  ∧ (∀ next st service_id,
       add_months (first_day_of_month today) (ALLOWED_MONTHS_AHEAD + 1) = Ok next →
       is_month_allowed today (format_Ym (year next) (month next)) = Ok false
       ∧ calendar_load today st (format_Ym (year next) (month next)) service_id
         = Some (Raise month_not_allowed))
  ∧ (∀ ym,
       (∀ d, strptime_Ym ym ≠ Ok d) ↔
       is_month_allowed today ym = Raise invalid_month_format)
  ∧ (∀ ym d,
       strptime_Ym ym = Ok d
       ↔ valid_ymd (year d) (month d) 1 = true ∧ day d = 1
         ∧ (ym = format_Ym (year d) (month d)
            ∨ (month d <= 9 ∧ ym = short_Ym (year d) (month d))))
  ∧ (m <= 9 →
     is_month_allowed today (short_Ym y m)
     = is_month_allowed today (format_Ym y m)).
Proof.
  intros Htoday Hym Hmax.
  pose proof (is_month_allowed_parsed today _ _ _ Hmax (strptime_Ym_format y m Hym))
    as Hres.
  change (replace_day1 (mkdate y m 1)) with (mkdate y m 1) in Hres.
  pose proof Htoday as Hb. apply valid_ymd_bounds in Hb as (Hty & Htm & Htd).
  pose proof Hmax as Hmx. apply add_months_Ok in Hmx as [Hrange Hmx].
  split; [done|]. split; [|split; [by eexists|split; [|split; [|split; [|split]]]]].
  - rewrite Hres, <- !date_leb_le.
    destruct (date_leb (first_day_of_month today) (mkdate y m 1)),
      (date_leb (mkdate y m 1) max_month); simpl;
      split; (done || intros [? ?]; done || intros [=]).
  - assert (Hvalid : valid_ymd (year max_month) (month max_month) 1 = true).
    { rewrite Hmx. cbn [year month]. apply valid_ymd_bounds.
      pose proof (days_in_month_bounds
        (year (first_day_of_month today)
         + (month (first_day_of_month today) - 1 + ALLOWED_MONTHS_AHEAD) / 12)
        ((month (first_day_of_month today) - 1 + ALLOWED_MONTHS_AHEAD) mod 12 + 1)).
      split; [exact Hrange|]. split; [Z.div_mod_to_equations; lia|lia]. }
    rewrite (is_month_allowed_parsed today _ _ _ Hmax (strptime_Ym_format _ _ Hvalid)).
    f_equal. apply andb_true_iff. rewrite !date_leb_le. rewrite Hmx.
    unfold date_le, date_lt, first_day_of_month, replace_day1, ALLOWED_MONTHS_AHEAD.
    cbn [year month day]. split; Z.div_mod_to_equations; lia.
  - intros next st service_id Hnext.
    assert (Hfalse :
      is_month_allowed today (format_Ym (year next) (month next)) = Ok false).
    { apply add_months_Ok in Hnext as [Hrange' Hnext].
      assert (Hvalid : valid_ymd (year next) (month next) 1 = true).
      { rewrite Hnext. cbn [year month]. apply valid_ymd_bounds.
        pose proof (days_in_month_bounds
          (year (first_day_of_month today)
           + (month (first_day_of_month today) - 1 + (ALLOWED_MONTHS_AHEAD + 1)) / 12)
          ((month (first_day_of_month today) - 1 + (ALLOWED_MONTHS_AHEAD + 1))
             mod 12 + 1)).
        split; [exact Hrange'|]. split; [Z.div_mod_to_equations; lia|lia]. }
      rewrite (is_month_allowed_parsed today _ _ _ Hmax
                 (strptime_Ym_format _ _ Hvalid)).
      f_equal. apply andb_false_iff. right. unfold date_leb.
      apply negb_false_iff, date_ltb_lt. rewrite Hmx, Hnext.
      unfold date_lt, first_day_of_month, replace_day1, ALLOWED_MONTHS_AHEAD.
      cbn [year month day]. Z.div_mod_to_equations. lia. }
    split; [exact Hfalse|by apply calendar_load_month_not_allowed].
  - intros ym. destruct (strptime_Ym_cases ym) as [(d & Hd & _)|Hraise].
    + rewrite (is_month_allowed_parsed today _ _ _ Hmax Hd).
      split; [intros Hno; by destruct (Hno d)|discriminate].
    + rewrite (is_month_allowed_unparsed today _ _ Hmax Hraise).
      split; [done|]. intros _ d. by rewrite Hraise.
  - intros ym d. apply strptime_Ym_Ok.
  - intros Hm.
    assert (Hshort : strptime_Ym (short_Ym y m) = Ok (mkdate y m 1))
      by (apply strptime_Ym_Ok; cbn [year month day]; auto).
    rewrite Hres. by rewrite (is_month_allowed_parsed today _ _ _ Hmax Hshort).
Qed.

Lemma is_month_allowed_window_witness :
  is_month_allowed today_ex "2027-02" = Ok true
  ∧ is_month_allowed today_ex "2027-03" = Ok false
  ∧ calendar_load today_ex one_booking_db "2027-03" (Some 1)
    = Some (Raise month_not_allowed).
Proof.
  pose proof (is_month_allowed_window today_ex 2026 11 (mkdate 2027 2 1)
                eq_refl eq_refl eq_refl) as (_ & _ & _ & H3 & H4 & _).
  split; [exact H3|].
  exact (H4 (mkdate 2027 3 1) one_booking_db (Some 1) eq_refl).
Defined.

(** C7 as stated fails on "a malformed string fails with InvalidFormat":
    "2026-1" is not in the format YYYY-MM, and is answered like "2026-01". *)
Lemma short_month_text_is_accepted :
  ¬ well_formed_Ym "2026-1"
  ∧ is_month_allowed (mkdate 2026 1 15) "2026-1" = Ok true
  ∧ is_month_allowed (mkdate 2026 1 15) "2026-1" ≠ Raise invalid_month_format
  ∧ is_month_allowed today_ex "2026-1" = Ok false.
Proof.
  split; [|split; [|split]]; [|vm_compute; reflexivity|vm_compute; discriminate
                              |vm_compute; reflexivity].
  intros (y & m & _ & Heq). apply (f_equal String.length) in Heq.
  vm_compute in Heq. discriminate Heq.
Qed.

(** ** The text order of formatted dates is the order of the calendar *)

Lemma compare_digit_cons a b s t :
  0 <= a <= 9 → 0 <= b <= 9 →
  String.compare (String (digit_char a) s) (String (digit_char b) t)
  = match a ?= b with
    | Eq => String.compare s t
    | Lt => Lt
    | Gt => Gt
    end.
Proof. intros Ha Hb. enum_range a 0 10; enum_range b 0 10; reflexivity. Qed.

Lemma pad2_app n s :
  pad2 n +:+ s
  = String (digit_char (n / 10 mod 10)) (String (digit_char (n mod 10)) s).
Proof. reflexivity. Qed.

Lemma compare_pad2 a b s t :
  0 <= a <= 99 → 0 <= b <= 99 →
  String.compare (pad2 a +:+ s) (pad2 b +:+ t)
  = match a ?= b with
    | Eq => String.compare s t
    | Lt => Lt
    | Gt => Gt
    end.
Proof.
  intros Ha Hb. rewrite !pad2_app.
  rewrite !compare_digit_cons by (Z.div_mod_to_equations; lia).
  destruct (Z.compare_spec (a / 10 mod 10) (b / 10 mod 10)),
    (Z.compare_spec (a mod 10) (b mod 10)), (Z.compare_spec a b);
    try reflexivity; exfalso; Z.div_mod_to_equations; lia.
Qed.

Lemma pad4_pad2 y s :
  0 <= y <= 9999 → pad4 y +:+ s = pad2 (y / 100) +:+ pad2 (y mod 100) +:+ s.
Proof.
  intros Hy. rewrite pad4_app, !pad2_app.
  replace (y / 100 / 10 mod 10) with (y / 1000 mod 10)
    by (Z.div_mod_to_equations; lia).
  replace (y / 100 mod 10) with (y / 100 mod 10) by done.
  replace (y mod 100 / 10 mod 10) with (y / 10 mod 10)
    by (Z.div_mod_to_equations; lia).
  replace (y mod 100 mod 10) with (y mod 10) by (Z.div_mod_to_equations; lia).
  done.
Qed.

Lemma compare_pad4 a b s t :
  0 <= a <= 9999 → 0 <= b <= 9999 →
  String.compare (pad4 a +:+ s) (pad4 b +:+ t)
  = match a ?= b with
    | Eq => String.compare s t
    | Lt => Lt
    | Gt => Gt
    end.
Proof.
  intros Ha Hb. rewrite !pad4_pad2 by done.
  rewrite compare_pad2 by (Z.div_mod_to_equations; lia).
  rewrite compare_pad2 by (Z.div_mod_to_equations; lia).
  destruct (Z.compare_spec (a / 100) (b / 100)),
    (Z.compare_spec (a mod 100) (b mod 100)), (Z.compare_spec a b);
    try reflexivity; exfalso; Z.div_mod_to_equations; lia.
Qed.

Lemma valid_date_printable d : valid_date d = true → printable d.
Proof.
  intros Hv. apply valid_ymd_bounds in Hv as (? & ? & ?).
  pose proof (days_in_month_bounds (year d) (month d)).
  unfold printable. lia.
Qed.

Lemma compare_strftime_Ymd a b :
  printable a → printable b →
  String.compare (strftime_Ymd a) (strftime_Ymd b)
  = match year a ?= year b with
    | Eq => match month a ?= month b with
            | Eq => day a ?= day b
            | c => c
            end
    | c => c
    end.
Proof.
  intros (Hya & Hma & Hda) (Hyb & Hmb & Hdb). unfold strftime_Ymd.
  rewrite compare_pad4 by done.
  destruct (year a ?= year b); [|done..].
  change ("-" +:+ ?s) with (String "-" s). cbn [String.compare Ascii.compare].
  change (N_of_ascii "-" ?= N_of_ascii "-")%N with Eq. cbv iota.
  rewrite compare_pad2 by done.
  destruct (month a ?= month b); [|done..].
  change ("-" +:+ ?s) with (String "-" s). cbn [String.compare Ascii.compare].
  change (N_of_ascii "-" ?= N_of_ascii "-")%N with Eq. cbv iota.
  change (pad2 (day a)) with (pad2 (day a) +:+ "").
  change (pad2 (day b)) with (pad2 (day b) +:+ "").
  rewrite compare_pad2 by done. cbn [String.compare].
  by destruct (day a ?= day b).
Qed.

Lemma text_ltb_strftime a b :
  printable a → printable b →
  text_ltb (strftime_Ymd a) (strftime_Ymd b) = date_ltb a b.
Proof.
  intros Ha Hb. unfold text_ltb, String.ltb.
  rewrite compare_strftime_Ymd by done.
  destruct (date_ltb a b) eqn:Hlt;
    [apply date_ltb_lt in Hlt|apply date_ltb_ge in Hlt]; unfold date_lt in Hlt;
    destruct (Z.compare_spec (year a) (year b)),
      (Z.compare_spec (month a) (month b)), (Z.compare_spec (day a) (day b));
    try reflexivity; exfalso; lia.
Qed.

Lemma text_leb_strftime a b :
  printable a → printable b →
  text_leb (strftime_Ymd a) (strftime_Ymd b) = date_leb a b.
Proof.
  intros Ha Hb. unfold date_leb. rewrite <- text_ltb_strftime by done.
  unfold text_leb, text_ltb, String.leb, String.ltb.
  rewrite (String.compare_antisym (strftime_Ymd a) (strftime_Ymd b)).
  by destruct (String.compare (strftime_Ymd b) (strftime_Ymd a)).
Qed.

(** ** The calendar of a month *)

Lemma fill_counts_lookup (f : string → Z) (keys : list string)
    (counts : gmap string Z) (k : string) :
  foldl (λ counts r, <[r.1 := r.2]> counts) counts ((λ d, (d, f d)) <$> keys) !! k
  = if decide (k ∈ keys) then Some (f k) else counts !! k.
Proof.
  revert counts. induction keys as [|d keys IH]; intros counts.
  - destruct (decide (k ∈ [])) as [Hin|_]; [by apply elem_of_nil in Hin|done].
  - rewrite fmap_cons. cbn [foldl fst snd]. rewrite IH.
    destruct (decide (k ∈ keys)) as [Hin|Hnin].
    + rewrite decide_True; [done|]. by right.
    + destruct (decide (d = k)) as [->|Hne].
      * rewrite lookup_insert_eq. rewrite decide_True; [done|]. by left.
      * rewrite lookup_insert_ne by done. rewrite decide_False; [done|].
        intros Hin. apply elem_of_cons in Hin as [->|Hin]; done.
Qed.

(** [counts.get(ds, 0)] is the number of selected rows of that date. *)
Lemma group_count_get (rows : list Appt.row) (ds : string) :
  default 0 (fill_counts (group_count rows) !! ds)
  = Z.of_nat (length (filter (λ a, Appt.appt_date a = ds) rows)).
Proof.
  unfold fill_counts, group_count.
  rewrite (fill_counts_lookup
             (λ d, Z.of_nat (length (filter (λ a, Appt.appt_date a = d) rows)))).
  destruct (decide (ds ∈ remove_dups (Appt.appt_date <$> rows))) as [Hin|Hnin];
    [done|].
  rewrite lookup_empty. simpl.
  rewrite elem_of_remove_dups, list_elem_of_fmap in Hnin.
  induction rows as [|a rows IH]; [done|].
  rewrite filter_cons. destruct (decide (Appt.appt_date a = ds)) as [Heq|Hne].
  - exfalso. apply Hnin. exists a. split; [done|by left].
  - apply IH. intros (b & Hb & Hinb). apply Hnin. exists b. split; [done|by right].
Qed.

Lemma month_counts_get st sid first_day next_month d :
  text_leb (strftime_Ymd first_day) (strftime_Ymd d) = true →
  text_ltb (strftime_Ymd d) (strftime_Ymd next_month) = true →
  default 0 (month_counts st sid first_day next_month !! strftime_Ymd d)
  = count_booked_for_day st sid (strftime_Ymd d).
Proof.
  intros Hlo Hhi. unfold month_counts, count_booked_for_day.
  rewrite group_count_get, list_filter_filter. do 2 f_equal.
  apply list_filter_iff. intros a. unfold booked_in_range, booked_on. split.
  - intros (Hd & Hst & Hs & _). done.
  - intros (Hst & Hs & Hd). rewrite Hd. done.
Qed.

(** The month after the one that starts on [first_day], as [calendar_load]
    computes it. *)
Lemma next_month_Ok first_day next_month :
  (if month first_day =? 12
   then date_new (year first_day + 1) 1 1
   else date_new (year first_day) (month first_day + 1) 1) = Ok next_month →
  next_month
  = (if month first_day =? 12
     then mkdate (year first_day + 1) 1 1
     else mkdate (year first_day) (month first_day + 1) 1)
  ∧ (month first_day = 12 → year first_day < 9999).
Proof.
  destruct (Z.eqb_spec (month first_day) 12) as [H12|H12]; intros Hnew;
    apply date_new_Ok in Hnew as [Hv ->]; (split; [done|]); [|done].
  intros _. apply valid_ymd_bounds in Hv. lia.
Qed.

Lemma days_loop_month today service_id counts y m next_month :
  1 <= m <= 12 →
  next_month = (if m =? 12 then mkdate (y + 1) 1 1 else mkdate y (m + 1) 1) →
  (m = 12 → y < 9999) →
  ∀ (n : nat) k days fuel,
    1 <= k → k + Z.of_nat n = days_in_month y m → (n + 1 < fuel)%nat →
    days_loop fuel today service_id counts (mkdate y m k) next_month days
    = Some (Ok (days ++ (day_load today service_id counts
                           <$> ((λ j, mkdate y m j) <$> seqZ k (Z.of_nat n + 1))))).
Proof.
  intros Hm Hnext Hy.
  assert (Hin : ∀ k, k <= days_in_month y m →
                date_ltb (mkdate y m k) next_month = true).
  { intros k Hk. apply date_ltb_lt. rewrite Hnext. unfold date_lt.
    destruct (Z.eqb_spec m 12); cbn [year month day]; lia. }
  assert (Hout : date_ltb next_month next_month = false).
  { apply date_ltb_ge. unfold date_lt. lia. }
  induction n as [|n IH]; intros k days fuel Hk Hlast Hfuel.
  - destruct fuel as [|[|fuel]]; [lia..|].
    cbn [days_loop]. rewrite Hin by lia.
    assert (Hnd : next_day (mkdate y m k) = Ok next_month).
    { unfold next_day, MAXYEAR. cbn [year month day]. rewrite Hnext.
      destruct (Z.ltb_spec k (days_in_month y m)); [lia|].
      destruct (Z.eqb_spec m 12) as [->|]; [|by destruct (Z.ltb_spec m 12); [|lia]].
      destruct (Z.ltb_spec 12 12); [lia|].
      by destruct (Z.ltb_spec y 9999); [|lia]. }
    rewrite Hnd, Hout. rewrite seqZ_cons by lia. rewrite seqZ_nil by lia. done.
  - destruct fuel as [|fuel]; [lia|].
    cbn [days_loop]. rewrite Hin by lia.
    assert (Hnd : next_day (mkdate y m k) = Ok (mkdate y m (k + 1))).
    { unfold next_day. cbn [year month day].
      by destruct (Z.ltb_spec k (days_in_month y m)); [|lia]. }
    rewrite Hnd. rewrite IH by lia.
    rewrite (seqZ_cons k) by lia. rewrite !fmap_cons, <- app_assoc.
    replace (Z.succ k) with (k + 1) by lia.
    replace (Z.pred (Z.of_nat (S n) + 1)) with (Z.of_nat n + 1) by lia.
    done.
Qed.

Lemma calendar_load_run today st ym service_id first_day :
  is_month_allowed today ym = Ok true →
  strptime_Ym ym = Ok first_day →
  (year first_day < 9999 ∨ month first_day < 12) →
  (∀ sid, service_id = Some sid → ∃ s, get_service st sid = Ok s) →
  ∃ next_month,
    next_month = (if month first_day =? 12
                  then mkdate (year first_day + 1) 1 1
                  else mkdate (year first_day) (month first_day + 1) 1)
    ∧ valid_date next_month = true
    ∧ calendar_load today st ym service_id
      = Some (Ok (CalendarLoad.mk ym service_id DAILY_CAPACITY
                    (day_load today service_id
                       (match service_id with
                        | Some sid => month_counts st sid first_day next_month
                        | None => ∅
                        end)
                     <$> month_days first_day))).
Proof.
  intros Hallowed Hparse Hlast Hsvc.
  pose proof Hparse as Hform. apply strptime_Ym_Ok in Hform as (Hvalid & Hday & _).
  destruct first_day as [y m dd]. cbn [year month day] in *. subst dd.
  pose proof Hvalid as Hb. apply valid_ymd_bounds in Hb as (Hy & Hm & _).
  set (next_month := if m =? 12 then mkdate (y + 1) 1 1 else mkdate y (m + 1) 1).
  assert (Hnv : valid_date next_month = true).
  { unfold next_month. destruct (Z.eqb_spec m 12);
      apply valid_ymd_bounds; cbn [year month day];
      pose proof (days_in_month_bounds (y + 1) 1);
      pose proof (days_in_month_bounds y (m + 1)); lia. }
  assert (Hnew : (if m =? 12 then date_new (y + 1) 1 1 else date_new y (m + 1) 1)
                 = Ok next_month).
  { unfold next_month. unfold valid_date, next_month in Hnv.
    destruct (m =? 12); cbn [year month day] in Hnv; by apply date_new_valid. }
  exists next_month. split; [done|]. split; [exact Hnv|].
  unfold calendar_load. rewrite Hallowed, Hparse.
  change (replace_day1 (mkdate y m 1)) with (mkdate y m 1).
  cbn [year month]. rewrite Hnew.
  assert (Hloop : ∀ counts,
    days_loop days_fuel today service_id counts (mkdate y m 1) next_month []
    = Some (Ok (day_load today service_id counts <$> month_days (mkdate y m 1)))).
  { intros counts. pose proof (days_in_month_bounds y m).
    rewrite (days_loop_month today service_id counts y m next_month Hm eq_refl
               ltac:(lia) (Z.to_nat (days_in_month y m - 1)) 1 [] days_fuel);
      [|lia|lia|unfold days_fuel; lia].
    unfold month_days. cbn [year month app].
    by replace (Z.of_nat (Z.to_nat (days_in_month y m - 1)) + 1)
      with (days_in_month y m) by lia. }
  destruct service_id as [sid|].
  - destruct (Hsvc sid eq_refl) as [s Hget]. rewrite Hget. cbn [bind].
    by rewrite Hloop.
  - by rewrite Hloop.
Qed.

Lemma month_days_elem_of first_day d :
  day first_day = 1 → valid_date first_day = true →
  d ∈ month_days first_day
  ↔ valid_date d = true ∧ year d = year first_day ∧ month d = month first_day.
Proof.
  intros Hday Hvalid. apply valid_ymd_bounds in Hvalid as (Hy & Hm & _).
  unfold month_days. rewrite list_elem_of_fmap. split.
  - intros (k & -> & Hk). apply elem_of_seqZ in Hk. cbn [year month].
    split; [|done]. apply valid_ymd_bounds. cbn [year month day]. lia.
  - intros (Hv & Hy' & Hm'). apply valid_ymd_bounds in Hv as (_ & _ & Hd).
    exists (day d). split; [destruct d; cbn in *; by subst|].
    apply elem_of_seqZ. rewrite <- Hy', <- Hm'. lia.
Qed.

(** The records of [calendar_load]: one for every day of the requested
    month, in order.  The record of a day has: as count, what
    [count_booked_for_day] counts on the day written YYYY-MM-DD (0 when no
    service is given); as level, "Low" for a count up to 5, "Medium" from 6 to 12,
    "High" above 12; [is_full] exactly when a service is given and the count
    reaches [DAILY_CAPACITY]; [disabled] exactly when the day is before
    today or full.  A day with 6 bookings is "Medium" and not full. *)
Theorem calendar_load_day_records (today : date) (st : database) (ym : string)
    (service_id : option Z) (first_day : date) :
  is_month_allowed today ym = Ok true →
  strptime_Ym ym = Ok first_day →
  (year first_day < 9999 ∨ month first_day < 12) →
  (∀ sid, service_id = Some sid → ∃ s, get_service st sid = Ok s) →
  ∃ resp,
    calendar_load today st ym service_id = Some (Ok resp)
    ∧ CalendarLoad.daily_capacity resp = 16
    ∧ length (CalendarLoad.days resp) = length (month_days first_day)
    ∧ (∀ d, d ∈ month_days first_day
            ↔ valid_date d = true ∧ year d = year first_day
              ∧ month d = month first_day)
    ∧ ∀ (i : nat) d,
        month_days first_day !! i = Some d →
        ∃ r,
          CalendarLoad.days resp !! i = Some r
          ∧ DayLoad.date r = strftime_Ymd d
          ∧ DayLoad.count r
            = match service_id with
              | Some sid => count_booked_for_day st sid (strftime_Ymd d)
              | None => 0
              end
          ∧ (DayLoad.count r <= 5 → DayLoad.level r = "Low")
          ∧ (6 <= DayLoad.count r <= 12 → DayLoad.level r = "Medium")
          ∧ (12 < DayLoad.count r → DayLoad.level r = "High")
          ∧ (DayLoad.is_full r = true
             ↔ is_Some service_id ∧ DAILY_CAPACITY <= DayLoad.count r)
          ∧ (DayLoad.disabled r = true
             ↔ date_lt d today ∨ DayLoad.is_full r = true)
          ∧ (is_Some service_id → DayLoad.count r = 6 →
             DayLoad.level r = "Medium" ∧ DayLoad.is_full r = false).
Proof.
  intros Hallowed Hparse Hlast Hsvc.
  destruct (calendar_load_run today st ym service_id first_day)
    as (next_month & Hnext & Hnv & Hload); [done..|].
  pose proof Hparse as Hform. apply strptime_Ym_Ok in Hform as (Hvalid & Hday & _).
  assert (Hfv : valid_date first_day = true)
    by (unfold valid_date; by rewrite Hday).
  eexists. split; [exact Hload|]. cbn [CalendarLoad.days CalendarLoad.daily_capacity].
  split; [apply DAILY_CAPACITY_eq|]. split; [by rewrite length_fmap|].
  split; [intros d; by apply month_days_elem_of|].
  intros i d Hd. rewrite list_lookup_fmap, Hd. eexists. split; [done|].
  assert (Hin : d ∈ month_days first_day) by (by eapply list_elem_of_lookup_2).
  apply month_days_elem_of in Hin as (Hdv & Hdy & Hdm); [|done..].
  assert (Hcount :
    default 0 ((match service_id with
                | Some sid => month_counts st sid first_day next_month
                | None => ∅
                end) !! strftime_Ymd d)
    = match service_id with
      | Some sid => count_booked_for_day st sid (strftime_Ymd d)
      | None => 0
      end).
  { destruct service_id as [sid|]; [|by rewrite lookup_empty].
    apply month_counts_get.
    - rewrite text_leb_strftime by (by apply valid_date_printable).
      apply date_leb_le. apply valid_ymd_bounds in Hdv.
      unfold date_le, date_lt. lia.
    - rewrite text_ltb_strftime by (by apply valid_date_printable).
      apply date_ltb_lt. rewrite Hnext. unfold date_lt.
      apply valid_ymd_bounds in Hvalid.
      destruct (Z.eqb_spec (month first_day) 12); cbn [year month day]; lia. }
  unfold day_load.
  cbn [DayLoad.date DayLoad.count DayLoad.level DayLoad.is_full DayLoad.disabled].
  rewrite Hcount. clear Hcount.
  set (c := match service_id with
            | Some sid => count_booked_for_day st sid (strftime_Ymd d)
            | None => 0
            end).
  assert (Hfull :
    match service_id with Some _ => DAILY_CAPACITY <=? c | None => false end = true
    ↔ is_Some service_id ∧ DAILY_CAPACITY <= c).
  { destruct service_id as [sid|].
    - rewrite Z.leb_le. split; [by split|by intros [_ ?]].
    - split; [discriminate|]. intros [[? [=]] _]. }
  split; [done|]. split; [done|].
  split; [|split; [|split; [|split; [exact Hfull|split]]]].
  - intros Hc. unfold level. by destruct (Z.leb_spec c 5); [|lia].
  - intros Hc. unfold level. destruct (Z.leb_spec c 5); [lia|].
    by destruct (Z.leb_spec c 12); [|lia].
  - intros Hc. unfold level. destruct (Z.leb_spec c 5); [lia|].
    by destruct (Z.leb_spec c 12); [lia|].
  - rewrite orb_true_iff, date_ltb_lt. done.
  - intros Hsome Hc. split; [by rewrite Hc|].
    apply not_true_is_false. rewrite Hfull, DAILY_CAPACITY_eq. lia.
Qed.

Lemma calendar_load_day_records_witness :
  ∃ resp r,
    calendar_load today_ex six_bookings_db "2026-11" (Some 1) = Some (Ok resp)
    ∧ CalendarLoad.days resp !! 2%nat = Some r
    ∧ DayLoad.date r = "2026-11-03"
    ∧ DayLoad.count r = 6
    ∧ DayLoad.level r = "Medium"
    ∧ DayLoad.is_full r = false.
Proof.
  destruct (calendar_load_day_records today_ex six_bookings_db "2026-11" (Some 1)
              (mkdate 2026 11 1))
    as (resp & Hload & _ & _ & _ & Hdays).
  - vm_compute. reflexivity.
  - vm_compute. reflexivity.
  - left. vm_compute. reflexivity.
  - intros sid [= <-]. eexists. vm_compute. reflexivity.
  - destruct (Hdays 2%nat (mkdate 2026 11 3) eq_refl)
      as (r & Hr & Hdate & Hcount & _ & _ & _ & _ & _ & Hsix).
    assert (Hc : DayLoad.count r = 6) by (rewrite Hcount; vm_compute; reflexivity).
    destruct (Hsix (mk_is_Some _ _ eq_refl) Hc) as [Hlevel Hfull].
    exists resp, r.
    exact (conj Hload (conj Hr (conj Hdate (conj Hc (conj Hlevel Hfull))))).
Defined.

(** ** Two creates at the same time *)

Import Concurrent.

(** Run alone, the steps of a worker are [create_appointment]. *)
Lemma worker_alone_is_create_appointment today now payload st :
  run_schedule [0; 0; 0; 0]%nat [start today now payload] st
  = ([at_pc (start today now payload)
        (Responded (create_appointment today now payload st).1)],
     (create_appointment today now payload st).2).
Proof.
  unfold create_appointment, start, at_pc.
  cbn [run_schedule lookup list_lookup step w_pc w_today w_payload w_now].
  destruct (validate_request today payload st) as [service|e];
    cbn [run_schedule lookup list_lookup step w_pc w_today w_payload w_now
         at_pc insert list_insert];
    [|done].
  destruct (check_capacity payload st) as [[]|e];
    cbn [run_schedule lookup list_lookup step w_pc w_today w_payload w_now
         at_pc insert list_insert];
    [|done].
  destruct (check_conflict payload st) as [[]|e];
    cbn [run_schedule lookup list_lookup step w_pc w_today w_payload w_now
         at_pc insert list_insert];
    [|done].
  done.
Qed.

(** C9 fails on the code.  Whenever a create would succeed on its own, two
    threads that send it at the same time can both succeed: when each has
    run its count queries before the other's INSERT, both INSERTs go through
    and the (service, date, time) has two booked appointments.  Nothing in
    the handler or in the schema serialises the checks with the INSERT. *)
Theorem concurrent_creates_both_succeed (today : date) (now1 now2 : string)
    (payload : AppointmentCreate.t) (st st1 : database) (out1 : AppointmentOut.t) :
  create_appointment today now1 payload st = (Ok out1, st1) →
  ∃ out2 st2,
    run_schedule race_schedule
      [start today now1 payload; start today now2 payload] st
    = ([at_pc (start today now1 payload) (Responded (Ok out1));
        at_pc (start today now2 payload) (Responded (Ok out2))], st2)
    ∧ AppointmentOut.status out1 = "booked"
    ∧ AppointmentOut.status out2 = "booked"
    ∧ AppointmentOut.id out1 ≠ AppointmentOut.id out2
    ∧ count_booked_at st2 (AppointmentCreate.service_id payload)
        (AppointmentCreate.appt_date payload)
        (AppointmentCreate.appt_time payload) = 2
    ∧ ¬ no_double_booking st2.
Proof.
  intros Hc.
  apply create_appointment_Ok in Hc as (service & Hv & Hcap & Hcon & Hins).
  exists (insert_appointment now2 payload service st1).1,
         (insert_appointment now2 payload service st1).2.
  assert (Hcount :
    count_booked_at (insert_appointment now2 payload service st1).2
      (AppointmentCreate.service_id payload)
      (AppointmentCreate.appt_date payload)
      (AppointmentCreate.appt_time payload) = 2).
  { apply check_conflict_Ok in Hcon. unfold count_booked_at in *.
    rewrite insert_appointment_rows, length_filter_snoc.
    assert (Hrows : appointments st1
                    = appointments st ++ [new_row (next_rowid st) now1 payload])
      by (rewrite <- insert_appointment_rows with (service := service);
          by rewrite Hins).
    rewrite Hrows, length_filter_snoc, Hcon.
    rewrite !decide_True by (unfold booked_at, new_row; done). done. }
  split; [|split; [|split; [|split; [|split; [exact Hcount|]]]]].
  - unfold race_schedule, start, at_pc.
    cbn [run_schedule lookup list_lookup step w_pc w_today w_payload w_now
         at_pc insert list_insert].
    rewrite Hv.
    cbn [run_schedule lookup list_lookup step w_pc w_today w_payload w_now
         at_pc insert list_insert].
    rewrite Hcap.
    cbn [run_schedule lookup list_lookup step w_pc w_today w_payload w_now
         at_pc insert list_insert].
    rewrite Hcon.
    cbn [run_schedule lookup list_lookup step w_pc w_today w_payload w_now
         at_pc insert list_insert].
    rewrite Hv.
    cbn [run_schedule lookup list_lookup step w_pc w_today w_payload w_now
         at_pc insert list_insert].
    rewrite Hcap.
    cbn [run_schedule lookup list_lookup step w_pc w_today w_payload w_now
         at_pc insert list_insert].
    rewrite Hcon.
    cbn [run_schedule lookup list_lookup step w_pc w_today w_payload w_now
         at_pc insert list_insert].
    rewrite Hins.
    cbn [run_schedule lookup list_lookup step w_pc w_today w_payload w_now
         at_pc insert list_insert].
    by destruct (insert_appointment now2 payload service st1).
  - unfold insert_appointment in Hins. by injection Hins as <- _.
  - done.
  - unfold insert_appointment in Hins. injection Hins as <- <-.
    unfold insert_appointment, next_rowid. cbn [fst AppointmentOut.id
      appointments appointments_seq]. lia.
  - intros Hinv. specialize (Hinv (AppointmentCreate.service_id payload)
      (AppointmentCreate.appt_date payload) (AppointmentCreate.appt_time payload)).
    lia.
Qed.

Lemma concurrent_creates_both_succeed_witness :
  ∃ ws st2,
    run_schedule race_schedule
      [start today_ex now_ex (booking "09:00");
       start today_ex now_ex (booking "09:00")] (init_db new_database)
    = (ws, st2)
    ∧ Forall (λ w, succeeded w = true) ws
    ∧ count_booked_at st2 1 "2026-11-03" "09:00" = 2.
Proof.
  destruct (concurrent_creates_both_succeed today_ex now_ex now_ex
              (booking "09:00") (init_db new_database) one_booking_db
              first_record)
    as (out2 & st2 & Hrun & _ & _ & _ & Hcount & _).
  - vm_compute. reflexivity.
  - eexists _, st2. split; [exact Hrun|]. split; [|exact Hcount].
    repeat constructor.
Defined.

(** Handled one after the other, the same two requests give one booking:
    the second is refused and changes nothing. *)
Lemma serial_creates_one_succeeds today now1 now2 payload st st1 out1 :
  create_appointment today now1 payload st = (Ok out1, st1) →
  ∃ e,
    run_schedule serial_schedule
      [start today now1 payload; start today now2 payload] st
    = ([at_pc (start today now1 payload) (Responded (Ok out1));
        at_pc (start today now2 payload) (Responded (Raise e))], st1)
    ∧ create_appointment today now2 payload st1 = (Raise e, st1)
    ∧ (e = slot_taken ∨ e = day_full).
Proof.
  intros Hc.
  assert (Hocc : 0 < count_booked_at st1 (AppointmentCreate.service_id payload)
                       (AppointmentCreate.appt_date payload)
                       (AppointmentCreate.appt_time payload)).
  { rewrite (count_booked_at_after_create _ _ _ _ _ _ _ _ _ Hc).
    rewrite decide_True by done. unfold count_booked_at. lia. }
  pose proof (create_appointment_services _ _ _ _ _ _ Hc) as Hsvc.
  apply create_appointment_Ok in Hc as (service & Hv & Hcap & Hcon & Hins).
  assert (Hv1 : validate_request today payload st1 = Ok service).
  { apply validate_request_Ok in Hv as (? & ? & ?). apply validate_request_Ok.
    by rewrite (get_service_services _ _ _ Hsvc). }
  assert (Hcon1 : check_conflict payload st1 = Raise slot_taken).
  { unfold check_conflict. by rewrite (proj2 (Z.ltb_lt _ _) Hocc). }
  assert (Hsecond : ∃ e,
    match check_capacity payload st1 with
    | Ok _ => Raise slot_taken
    | Raise e1 => Raise e1
    end = @Raise AppointmentOut.t e ∧ (e = slot_taken ∨ e = day_full)).
  { unfold check_capacity. destruct (DAILY_CAPACITY <=? _); eauto. }
  destruct Hsecond as (e & Hsecond & He). exists e.
  split; [|split; [|exact He]].
  - unfold serial_schedule, start, at_pc.
    cbn [run_schedule lookup list_lookup step w_pc w_today w_payload w_now
         at_pc insert list_insert].
    rewrite Hv.
    cbn [run_schedule lookup list_lookup step w_pc w_today w_payload w_now
         at_pc insert list_insert].
    rewrite Hcap.
    cbn [run_schedule lookup list_lookup step w_pc w_today w_payload w_now
         at_pc insert list_insert].
    rewrite Hcon.
    cbn [run_schedule lookup list_lookup step w_pc w_today w_payload w_now
         at_pc insert list_insert].
    rewrite Hins.
    cbn [run_schedule lookup list_lookup step w_pc w_today w_payload w_now
         at_pc insert list_insert].
    rewrite Hv1.
    cbn [run_schedule lookup list_lookup step w_pc w_today w_payload w_now
         at_pc insert list_insert].
    destruct (check_capacity payload st1) as [[]|e1];
      cbn [run_schedule lookup list_lookup step w_pc w_today w_payload w_now
           at_pc insert list_insert].
    + rewrite Hcon1.
      cbn [run_schedule lookup list_lookup step w_pc w_today w_payload w_now
           at_pc insert list_insert].
      by injection Hsecond as <-.
    + by injection Hsecond as <-.
  - unfold create_appointment. rewrite Hv1.
    destruct (check_capacity payload st1) as [[]|e1].
    + rewrite Hcon1. by injection Hsecond as <-.
    + by injection Hsecond as <-.
Qed.

(** ** Worked examples of the cancellation and of the listing order *)

Lemma cancel_appointment_idempotent_witness :
  cancel_appointment 9223372036854775808 one_booking_db
  = (Raise OverflowError, one_booking_db)
  ∧ (∀ a, a ∈ appointments one_booking_db → Appt.id a ≠ 9223372036854775808)
  ∧ (cancel_appointment 1 one_booking_db).1 = Ok (CancelResult.mk true)
  ∧ (cancel_appointment 1 (cancel_appointment 1 one_booking_db).2).1
    = Ok (CancelResult.mk true)
  ∧ (cancel_appointment 1 (cancel_appointment 1 one_booking_db).2).2
    = (cancel_appointment 1 one_booking_db).2
  ∧ (Appt.status <$> select_appointment (cancel_appointment 1 one_booking_db).2 1)
    = Some "cancelled"
  ∧ (cancel_appointment 7 one_booking_db).1 = Raise not_found.
Proof.
  destruct (cancel_appointment_idempotent 9223372036854775808 one_booking_db)
    as (Hover & _).
  destruct (cancel_appointment_idempotent 1 one_booking_db) as (_ & Hone & _).
  destruct (cancel_appointment_idempotent 7 one_booking_db) as (_ & Hseven & _).
  destruct (Hone eq_refl) as (_ & _ & Hfound).
  destruct (Hseven eq_refl) as (Hmissing & _).
  destruct (Hfound (new_row 1 now_ex (booking "09:00")) eq_refl)
    as (Hr1 & Hr2 & Hs1 & _ & Hsame & _).
  assert (Hrows : ∀ k, k ≠ 1 →
            ∀ a, a ∈ appointments one_booking_db → Appt.id a ≠ k).
  { intros k Hk a Ha. vm_compute in Ha.
    apply list_elem_of_singleton in Ha as ->. cbn [Appt.id]. congruence. }
  split; [exact (proj1 (Hover eq_refl))|].
  split; [apply Hrows; discriminate|].
  split; [exact Hr1|]. split; [exact Hr2|]. split; [exact Hsame|].
  split; [by rewrite Hs1|].
  apply Hmissing. apply Hrows. discriminate.
Defined.

(** On dates written as YYYY-MM-DD the order of the listing is the order of
    the calendar. *)
Lemma newer_or_same_calendar x y dx dy :
  valid_date dx = true → valid_date dy = true →
  AppointmentOut.appt_date x = strftime_Ymd dx →
  AppointmentOut.appt_date y = strftime_Ymd dy →
  newer_or_same x y → date_le dy dx.
Proof.
  intros Hx Hy Hdx Hdy [Hlt|[Heq _]].
  - rewrite Hdx, Hdy in Hlt.
    rewrite text_ltb_strftime in Hlt by (by apply valid_date_printable).
    apply date_ltb_lt in Hlt. unfold date_le, date_lt in *. lia.
  - rewrite Hdx, Hdy in Heq.
    assert (Ok dx = Ok dy) as [= ->]
      by (rewrite <- (strptime_Ymd_strftime dx Hx),
            <- (strptime_Ymd_strftime dy Hy); by rewrite Heq).
    unfold date_le, date_lt. lia.
Qed.

(** * Further properties of the handlers *)

(** ** Start-up and the services table *)

Lemma init_db_nonempty st : services st ≠ [] → init_db st = st.
Proof.
  intros Hs. unfold init_db. rewrite bool_decide_eq_false_2; [done|].
  destruct (services st); [done|]. simpl. lia.
Qed.

Lemma init_db_empty st :
  services st = [] →
  init_db st
  = mkdb [ Service.mk 1 "General Consultation" 30;
           Service.mk 2 "Lab Services" 30;
           Service.mk 3 "Follow-up Consultation" 30 ]
         (appointments st) (appointments_seq st).
Proof. intros Hs. unfold init_db. by rewrite Hs. Qed.

(** X1: [init_db] seeds the three services only into an empty [services]
    table: it never touches [appointments] or the key counter, it leaves a
    database that has services as it is, and running it again changes
    nothing. *)
Theorem init_db_idempotent (st : database) :
  init_db (init_db st) = init_db st
  ∧ appointments (init_db st) = appointments st
  ∧ appointments_seq (init_db st) = appointments_seq st
  ∧ (services st ≠ [] → init_db st = st)
  ∧ (services st = [] →
     (λ s, (Service.id s, Service.name s, Service.duration_minutes s))
       <$> services (init_db st)
     = [(1, "General Consultation", 30); (2, "Lab Services", 30);
        (3, "Follow-up Consultation", 30)]).
Proof.
  destruct (services st) as [|s l] eqn:Hs.
  - rewrite (init_db_empty st Hs).
    split; [by apply init_db_nonempty|]. split; [done|]. split; [done|].
    split; [done|]. done.
  - assert (Hne : services st ≠ []) by (by rewrite Hs).
    rewrite (init_db_nonempty st Hne).
    split; [by apply init_db_nonempty|]. split; [done|]. split; [done|].
    split; [done|]. intros [=].
Qed.

Lemma init_db_idempotent_witness :
  init_db one_booking_db = one_booking_db
  ∧ Service.id <$> services (init_db new_database) = [1; 2; 3].
Proof.
  destruct (init_db_idempotent one_booking_db) as (_ & _ & _ & Hkeep & _).
  destruct (init_db_idempotent new_database) as (_ & _ & _ & _ & Hseed).
  split.
  - apply Hkeep. vm_compute. discriminate.
  - specialize (Hseed eq_refl).
    apply (f_equal (fmap (λ x : Z * string * Z, x.1.1))) in Hseed.
    rewrite <- list_fmap_compose in Hseed. exact Hseed.
Defined.

Lemma handle_services st r : services (handle st r) = services st.
Proof.
  destruct r as [today now payload|appt_id]; simpl.
  - destruct (create_appointment today now payload st) as [res st'] eqn:Hc.
    by apply create_appointment_services in Hc.
  - unfold cancel_appointment.
    destruct (fits_sqlite_int appt_id); cbn [negb]; [|done].
    destruct (select_appointment st appt_id); [|done]. by case_bool_decide.
Qed.

Lemma run_services rs st : services (run rs st) = services st.
Proof.
  revert st. induction rs as [|r rs IH]; intros st; [done|].
  simpl. by rewrite IH, handle_services.
Qed.

Lemma get_service_Raise st sid e :
  get_service st sid = Raise e
  ↔ (e = OverflowError ∧ fits_sqlite_int sid = false)
    ∨ (e = HTTPException 400 "Invalid service_id"
       ∧ fits_sqlite_int sid = true
       ∧ ∀ s, s ∈ services st → Service.id s ≠ sid).
Proof.
  unfold get_service. destruct (fits_sqlite_int sid); cbn [negb].
  - destruct (head (filter (λ s, Service.id s = sid) (services st)))
      as [row|] eqn:Hh.
    + split; [discriminate|]. intros [[_ Hf]|(_ & _ & Hno)]; [discriminate Hf|].
      exfalso. apply head_Some_elem_of in Hh.
      apply list_elem_of_filter in Hh as [Hid Hin]. by apply (Hno row).
    + split.
      * intros [= <-]. right. split; [done|]. split; [done|]. intros s Hin Hid.
        apply head_None in Hh.
        assert (s ∈ filter (λ s, Service.id s = sid) (services st))
          by (by apply list_elem_of_filter).
        rewrite Hh in *. by eapply elem_of_nil.
      * intros [[_ Hf]|(-> & _)]; [discriminate Hf|done].
  - split.
    + intros [= <-]. by left.
    + intros [[-> _]|(_ & Hf & _)]; [done|discriminate Hf].
Qed.

(** X2: [get_service] answers with a row of [services] that has the id asked
    for.  It raises [OverflowError] for an id that SQLite cannot bind (one
    outside the signed 64-bit range), and 400 "Invalid service_id" exactly
    when the id can be bound and no row has it.  No create and no cancel
    changes [services], so after start-up on a new database the known
    services are 1, 2 and 3 whatever requests follow. *)
Theorem get_service_known_ids (rs : list request) (sid : Z) :
  (∀ st row, get_service st sid = Ok row →
             row ∈ services st ∧ Service.id row = sid)
  ∧ (∀ st e, get_service st sid = Raise e
             ↔ (e = OverflowError
                ∧ ¬ (-9223372036854775808 <= sid <= 9223372036854775807))
               ∨ (e = HTTPException 400 "Invalid service_id"
                  ∧ (-9223372036854775808 <= sid <= 9223372036854775807)
                  ∧ ∀ s, s ∈ services st → Service.id s ≠ sid))
  ∧ (∀ st, services (run rs st) = services st)
  ∧ ((∃ row, get_service (run rs (init_db new_database)) sid = Ok row)
     ↔ sid = 1 ∨ sid = 2 ∨ sid = 3).
Proof.
  split; [intros st row; apply get_service_Ok|].
  split.
  { intros st e. rewrite get_service_Raise, fits_sqlite_int_false,
      fits_sqlite_int_true. done. }
  split; [intros st; apply run_services|].
  rewrite (get_service_services (init_db new_database)
             (run rs (init_db new_database))) by apply run_services.
  split.
  - intros [row Hrow]. apply get_service_Ok in Hrow as [Hin <-].
    vm_compute in Hin.
    repeat (apply elem_of_cons in Hin as [->|Hin]; [simpl; auto|]).
    by apply elem_of_nil in Hin.
  - intros [Hs|[Hs|Hs]]; rewrite Hs; eexists; vm_compute; reflexivity.
Qed.

(** ** Keys of the appointments *)

Lemma max_rowid_ge rows a : a ∈ rows → Appt.id a <= max_rowid rows.
Proof.
  induction rows as [|b rows IH]; intros Hin; [by apply elem_of_nil in Hin|].
  simpl. apply elem_of_cons in Hin as [->|Hin]; [lia|].
  specialize (IH Hin). lia.
Qed.

Lemma max_rowid_le rows bound :
  0 <= bound → Forall (λ a, Appt.id a <= bound) rows → max_rowid rows <= bound.
Proof.
  intros Hb Hall. induction Hall as [|a rows Ha Hall IH]; simpl; lia.
Qed.

Lemma next_rowid_fresh st a : a ∈ appointments st → Appt.id a < next_rowid st.
Proof.
  intros Hin. apply max_rowid_ge in Hin. unfold next_rowid. lia.
Qed.

Lemma next_rowid_counter st : ids_ok st → next_rowid st = appointments_seq st + 1.
Proof.
  intros (_ & Hall & Hseq). unfold next_rowid.
  assert (max_rowid (appointments st) <= appointments_seq st).
  { apply max_rowid_le; [done|]. eapply Forall_impl; [exact Hall|].
    intros a Ha. simpl in Ha. lia. }
  lia.
Qed.

Lemma create_appointment_inserted today now payload st out st' :
  create_appointment today now payload st = (Ok out, st') →
  st' = mkdb (services st)
          (appointments st ++ [new_row (next_rowid st) now payload])
          (next_rowid st)
  ∧ AppointmentOut.id out = next_rowid st.
Proof.
  intros Hc. apply create_appointment_Ok in Hc as (service & _ & _ & _ & Hins).
  unfold insert_appointment in Hins. by injection Hins as <- <-.
Qed.

Lemma update_cancelled_ids appt_id st :
  Appt.id <$> appointments (update_cancelled appt_id st)
  = Appt.id <$> appointments st.
Proof.
  unfold update_cancelled. cbn [appointments].
  rewrite <- list_fmap_compose. apply list_fmap_ext.
  intros i a _. simpl. by case_bool_decide.
Qed.

Lemma handle_ids_ok st r : ids_ok st → ids_ok (handle st r).
Proof.
  intros (Hnd & Hall & Hseq). destruct r as [today now payload|appt_id]; simpl.
  - destruct (create_appointment today now payload st) as [[out|e] st'] eqn:Hc;
      cbn [snd].
    + pose proof (next_rowid_counter st (conj Hnd (conj Hall Hseq))) as Hnext.
      apply create_appointment_inserted in Hc as [-> _].
      unfold ids_ok. cbn [appointments appointments_seq].
      split; [|split; [|lia]].
      * rewrite fmap_app. apply NoDup_app. split; [done|].
        split; [|apply NoDup_singleton].
        intros i Hi Hnew. apply list_elem_of_singleton in Hnew.
        apply list_elem_of_fmap in Hi as (a & -> & Ha).
        apply next_rowid_fresh in Ha. simpl in Hnew. lia.
      * apply Forall_app. split.
        -- eapply Forall_impl; [exact Hall|]. intros a Ha. simpl in *. lia.
        -- apply Forall_singleton. simpl. lia.
    + apply create_appointment_Raise in Hc as ->. done.
  - unfold cancel_appointment.
    destruct (fits_sqlite_int appt_id); cbn [negb]; [|done].
    destruct (select_appointment st appt_id); [|done].
    case_bool_decide; [done|]. cbn [snd]. unfold ids_ok.
    rewrite update_cancelled_ids. split; [done|]. split; [|done].
    unfold update_cancelled. cbn [appointments appointments_seq].
    apply Forall_fmap. eapply Forall_impl; [exact Hall|].
    intros a Ha. simpl in *. by case_bool_decide.
Qed.

Lemma select_appointment_snoc (rows : list Appt.row) a :
  (∀ b, b ∈ rows → Appt.id b ≠ Appt.id a) →
  head (filter (λ b, Appt.id b = Appt.id a) (rows ++ [a])) = Some a.
Proof.
  intros Hfresh. rewrite filter_app.
  assert (filter (λ b, Appt.id b = Appt.id a) rows = []) as ->.
  { induction rows as [|b rows IH]; [done|].
    rewrite filter_cons, decide_False by (apply Hfresh; by left).
    apply IH. intros c Hc. apply Hfresh. by right. }
  rewrite filter_cons, decide_True by done. done.
Qed.

(** X3: appointment keys are never reused.  Starting from keys that are
    positive, distinct and not above the AUTOINCREMENT counter, every
    sequence of creates and cancels keeps them so; a successful create
    returns the counter plus one, which is above every stored key, and that
    key selects the row it has just written. *)
Theorem appointment_ids_fresh (st : database) (rs : list request) :
  ids_ok st →
  ids_ok (run rs st)
  ∧ ∀ today now payload out st',
      create_appointment today now payload (run rs st) = (Ok out, st') →
      AppointmentOut.id out = appointments_seq (run rs st) + 1
      ∧ appointments_seq st' = AppointmentOut.id out
      ∧ (∀ a, a ∈ appointments (run rs st) → Appt.id a < AppointmentOut.id out)
      ∧ select_appointment st' (AppointmentOut.id out)
        = Some (new_row (AppointmentOut.id out) now payload).
Proof.
  intros Hok.
  assert (Hrun : ids_ok (run rs st))
    by (by apply (run_invariant ids_ok handle_ids_ok)).
  split; [exact Hrun|].
  intros today now payload out st' Hc.
  apply create_appointment_inserted in Hc as [-> Hid].
  rewrite Hid. cbn [appointments_seq].
  split; [by apply next_rowid_counter|]. split; [done|].
  split; [intros a; apply next_rowid_fresh|].
  unfold select_appointment. cbn [appointments].
  apply (select_appointment_snoc (appointments (run rs st))
           (new_row (next_rowid (run rs st)) now payload)).
  intros b Hb. apply next_rowid_fresh in Hb. simpl. lia.
Qed.

Lemma appointment_ids_fresh_witness :
  ids_ok full_day_db
  ∧ select_appointment one_booking_db 1 = Some (new_row 1 now_ex (booking "09:00")).
Proof.
  assert (Hnew : ids_ok (init_db new_database)).
  { unfold ids_ok. vm_compute. split; [constructor|]. split; [constructor|].
    discriminate. }
  split.
  - exact (proj1 (appointment_ids_fresh (init_db new_database)
                    ((λ t, Create today_ex now_ex (booking t)) <$> ALL_SLOTS) Hnew)).
  - destruct (proj2 (appointment_ids_fresh (init_db new_database) [] Hnew)
                today_ex now_ex (booking "09:00") first_record one_booking_db)
      as (_ & _ & _ & Hsel); [vm_compute; reflexivity|exact Hsel].
Defined.

(** ** Stored rows *)

Lemma is_date_allowed_Ok_parsed today ds b :
  is_date_allowed today ds = Ok b → ∃ d, strptime_Ymd ds = Ok d.
Proof.
  unfold is_date_allowed.
  destruct (add_months (first_day_of_month today) ALLOWED_MONTHS_AHEAD);
    [|discriminate].
  cbn [bind]. destruct (strptime_Ymd ds) as [d|[]]; [|discriminate..].
  intros _. by exists d.
Qed.

Lemma stored_row_ok_services st st' a :
  services st' = services st → stored_row_ok st a → stored_row_ok st' a.
Proof.
  intros Hsvc (? & ? & [s Hs] & ? & ? & ?). unfold stored_row_ok.
  rewrite (get_service_services st st' _ Hsvc). eauto 10.
Qed.

Lemma handle_rows_ok st r : rows_ok st → rows_ok (handle st r).
Proof.
  intros Hok. pose proof (handle_services st r) as Hsvc.
  destruct r as [today now payload|appt_id]; simpl in *.
  - destruct (create_appointment today now payload st) as [[out|e] st'] eqn:Hc;
      cbn [snd] in *.
    + pose proof Hc as Hins. apply create_appointment_inserted in Hins as [Hst' _].
      apply create_appointment_Ok in Hc as (service & Hv & _).
      apply validate_request_Ok in Hv as (Hdate & Hget & Hslot).
      apply is_date_allowed_Ok_parsed in Hdate.
      unfold rows_ok. rewrite Hst' at 2. cbn [appointments].
      apply Forall_app. split.
      * eapply Forall_impl; [exact Hok|]. intros a.
        by apply stored_row_ok_services.
      * apply Forall_singleton. unfold stored_row_ok, new_row.
        cbn [Appt.status Appt.appt_time Appt.service_id Appt.appt_date
             Appt.patient_name Appt.phone].
        rewrite (get_service_services st st' _ Hsvc), !strip_idemp.
        split; [by left|]. split; [done|]. split; [by exists service|]. done.
    + apply create_appointment_Raise in Hc as ->. done.
  - unfold cancel_appointment in *.
    destruct (fits_sqlite_int appt_id); cbn [negb] in *; [|done].
    destruct (select_appointment st appt_id); [|done].
    case_bool_decide; [done|]. cbn [snd] in *.
    unfold rows_ok, update_cancelled. cbn [appointments].
    apply Forall_fmap. eapply Forall_impl; [exact Hok|].
    intros a (Hst & Htime & Hs & Hd & Hn & Hp). simpl.
    case_bool_decide; [|by apply (stored_row_ok_services st)].
    unfold stored_row_ok. simpl. split; [by right|]. done.
Qed.

(** X4: what every stored appointment looks like.  On a database started
    from a new file, after any sequence of creates and cancels, each row of
    [appointments] has status "booked" or "cancelled", a time of the slot
    catalog, a [service_id] that [get_service] finds, a date that [strptime]
    reads, and a name and a phone without surrounding white space. *)
Theorem stored_rows_well_formed (st : database) (rs : list request) :
  rows_ok st →
  rows_ok (init_db new_database)
  ∧ ∀ a, a ∈ appointments (run rs st) →
         (Appt.status a = "booked" ∨ Appt.status a = "cancelled")
         ∧ Appt.appt_time a ∈ ALL_SLOTS
         ∧ (∃ s, get_service (run rs st) (Appt.service_id a) = Ok s)
         ∧ (∃ d, strptime_Ymd (Appt.appt_date a) = Ok d)
         ∧ strip (Appt.patient_name a) = Appt.patient_name a
         ∧ strip (Appt.phone a) = Appt.phone a.
Proof.
  intros Hok. split; [constructor|].
  assert (Hrun : rows_ok (run rs st))
    by (by apply (run_invariant rows_ok handle_rows_ok)).
  intros a Ha. unfold rows_ok in Hrun. rewrite Forall_forall in Hrun.
  exact (Hrun a Ha).
Qed.

Lemma stored_rows_well_formed_witness :
  Appt.appt_time (new_row 1 now_ex (booking "09:00")) ∈ ALL_SLOTS
  ∧ strip (Appt.phone (new_row 1 now_ex (booking "09:00")))
    = Appt.phone (new_row 1 now_ex (booking "09:00")).
Proof.
  destruct (stored_rows_well_formed (init_db new_database)
              [Create today_ex now_ex (booking "09:00")])
    as [_ Hrows]; [constructor|].
  assert (Hin : new_row 1 now_ex (booking "09:00")
                ∈ appointments (run [Create today_ex now_ex (booking "09:00")]
                                  (init_db new_database))).
  { vm_compute. constructor. }
  destruct (Hrows _ Hin) as (_ & Htime & _ & _ & _ & Hphone).
  split; [exact Htime|exact Hphone].
Defined.

(** ** When a booking goes through *)

Lemma create_appointment_accepts today now payload st :
  is_date_allowed today (AppointmentCreate.appt_date payload) = Ok true →
  (∃ s, get_service st (AppointmentCreate.service_id payload) = Ok s) →
  AppointmentCreate.appt_time payload ∈ ALL_SLOTS →
  count_booked_for_day st (AppointmentCreate.service_id payload)
    (AppointmentCreate.appt_date payload) < DAILY_CAPACITY →
  count_booked_at st (AppointmentCreate.service_id payload)
    (AppointmentCreate.appt_date payload)
    (AppointmentCreate.appt_time payload) = 0 →
  ∃ out st', create_appointment today now payload st = (Ok out, st').
Proof.
  intros Hdate [service Hget] Hslot Hcap Hcon.
  apply check_capacity_Ok in Hcap. apply check_conflict_Ok in Hcon.
  assert (Hv : validate_request today payload st = Ok service)
    by (by apply validate_request_Ok).
  unfold create_appointment. rewrite Hv, Hcap, Hcon.
  destruct (insert_appointment now payload service st) as [out st'].
  by exists out, st'.
Qed.

Lemma create_appointment_accepted today now payload st out st' :
  create_appointment today now payload st = (Ok out, st') →
  is_date_allowed today (AppointmentCreate.appt_date payload) = Ok true
  ∧ (∃ s, get_service st (AppointmentCreate.service_id payload) = Ok s)
  ∧ AppointmentCreate.appt_time payload ∈ ALL_SLOTS
  ∧ count_booked_for_day st (AppointmentCreate.service_id payload)
      (AppointmentCreate.appt_date payload) < DAILY_CAPACITY
  ∧ count_booked_at st (AppointmentCreate.service_id payload)
      (AppointmentCreate.appt_date payload)
      (AppointmentCreate.appt_time payload) = 0.
Proof.
  intros Hc.
  apply create_appointment_Ok in Hc as (service & Hv & Hcap & Hcon & _).
  apply validate_request_Ok in Hv as (? & ? & ?).
  apply check_capacity_Ok in Hcap. apply check_conflict_Ok in Hcon.
  split; [done|]. split; [by exists service|]. done.
Qed.

(** X5: [create_appointment] succeeds exactly when the date is in the
    window, the service exists, the time is a slot of the catalog, the day
    holds fewer than [DAILY_CAPACITY] bookings for the service and the slot
    is free.  A refused create leaves the database as it was; a successful
    one appends one booked row, keeps every other row and the services, and
    names in its response the service that [get_service] finds. *)
Theorem create_appointment_succeeds_iff (today : date) (now : string)
    (payload : AppointmentCreate.t) (st : database) :
  ((∃ out st', create_appointment today now payload st = (Ok out, st'))
   ↔ is_date_allowed today (AppointmentCreate.appt_date payload) = Ok true
     ∧ (∃ s, get_service st (AppointmentCreate.service_id payload) = Ok s)
     ∧ AppointmentCreate.appt_time payload ∈ ALL_SLOTS
     ∧ count_booked_for_day st (AppointmentCreate.service_id payload)
         (AppointmentCreate.appt_date payload) < DAILY_CAPACITY
     ∧ count_booked_at st (AppointmentCreate.service_id payload)
         (AppointmentCreate.appt_date payload)
         (AppointmentCreate.appt_time payload) = 0)
  ∧ (∀ e st', create_appointment today now payload st = (Raise e, st') → st' = st)
  ∧ (∀ out st',
       create_appointment today now payload st = (Ok out, st') →
       appointments st'
       = appointments st ++ [new_row (AppointmentOut.id out) now payload]
       ∧ services st' = services st
       ∧ Appt.status (new_row (AppointmentOut.id out) now payload) = "booked"
       ∧ ∃ s, get_service st (AppointmentCreate.service_id payload) = Ok s
              ∧ AppointmentOut.service_name out = Service.name s).
Proof.
  split; [|split].
  - split.
    + intros (out & st' & Hc). by eapply create_appointment_accepted.
    + intros (Hdate & Hget & Hslot & Hcap & Hcon).
      by apply create_appointment_accepts.
  - intros e st'. apply create_appointment_Raise.
  - intros out st' Hc. pose proof Hc as Hins.
    apply create_appointment_inserted in Hins as [-> ->].
    apply create_appointment_Ok in Hc as (service & Hv & _ & _ & Hins).
    apply validate_request_Ok in Hv as (_ & Hget & _).
    split; [done|]. split; [done|]. split; [done|].
    exists service. split; [done|].
    unfold insert_appointment in Hins. by injection Hins as <-.
Qed.

Lemma create_appointment_succeeds_iff_witness :
  ∃ out st',
    create_appointment today_ex now_ex (booking "09:30") one_booking_db
    = (Ok out, st').
Proof.
  apply (proj1 (create_appointment_succeeds_iff today_ex now_ex
                  (booking "09:30") one_booking_db)).
  split; [vm_compute; reflexivity|].
  split; [eexists; vm_compute; reflexivity|].
  split; [refine (bool_decide_unpack (_ ∈ _) _); vm_compute; exact I|].
  split; vm_compute; reflexivity.
Defined.

(** ** Cancelling frees the slot *)


Lemma length_le_1_unique {A} (l : list A) x y :
  (length l <= 1)%nat → x ∈ l → y ∈ l → x = y.
Proof.
  destruct l as [|a [|b l]]; simpl; intros Hlen Hx Hy; [by apply elem_of_nil in Hx| |lia].
  apply list_elem_of_singleton in Hx, Hy. congruence.
Qed.




(** ** The booked times of a day *)

Lemma filter_time_booked_on sid d t (rows : list Appt.row) :
  filter (λ a, Appt.appt_time a = t) (filter (booked_on sid d) rows)
  = filter (booked_at sid d t) rows.
Proof.
  rewrite list_filter_filter. apply list_filter_iff.
  intros a. unfold booked_on, booked_at. split.
  - intros (Ht & Hst & Hs & Hd). done.
  - intros (Hst & Hs & Hd & Ht). done.
Qed.

Lemma booked_times_elem_of st d sid t :
  t ∈ booked_times st d sid ↔ 0 < count_booked_at st sid d t.
Proof.
  unfold booked_times, count_booked_at.
  rewrite order_by_elem_of, list_elem_of_fmap, <- filter_time_booked_on.
  split.
  - intros (a & -> & Ha).
    assert (Hin : a ∈ filter (λ b, Appt.appt_time b = Appt.appt_time a)
                        (filter (booked_on sid d) (appointments st)))
      by (by apply list_elem_of_filter).
    destruct (filter (λ b, Appt.appt_time b = Appt.appt_time a) _);
      [by apply elem_of_nil in Hin|simpl; lia].
  - intros Hpos.
    destruct (filter (λ a, Appt.appt_time a = t)
                (filter (booked_on sid d) (appointments st))) as [|a l] eqn:Hf;
      [simpl in Hpos; lia|].
    assert (Hin : a ∈ filter (λ a, Appt.appt_time a = t)
                        (filter (booked_on sid d) (appointments st)))
      by (rewrite Hf; by left).
    apply list_elem_of_filter in Hin as [Ht Hin]. by exists a.
Qed.

Lemma NoDup_fmap_count {A B} `{EqDecision B} (key : A → B) (l : list A) :
  (∀ k, (length (filter (λ a, key a = k) l) <= 1)%nat) → NoDup (key <$> l).
Proof.
  induction l as [|a l IH]; intros Hcount; [constructor|].
  rewrite fmap_cons. constructor.
  - intros Hin. apply list_elem_of_fmap in Hin as (b & Hkey & Hb).
    specialize (Hcount (key a)). rewrite filter_cons, decide_True in Hcount by done.
    assert (Hbin : b ∈ filter (λ x, key x = key a) l)
      by (by apply list_elem_of_filter).
    destruct (filter (λ x, key x = key a) l); [by apply elem_of_nil in Hbin|].
    simpl in Hcount. lia.
  - apply IH. intros k. specialize (Hcount k). rewrite filter_cons in Hcount.
    destruct (decide (key a = k)); simpl in Hcount; lia.
Qed.

Lemma text_leb_antisym a b : text_leb a b = true → text_leb b a = true → a = b.
Proof. apply String.leb_antisym. Qed.

Lemma ALL_SLOTS_sorted : StronglySorted (λ a b, text_leb a b = true) ALL_SLOTS.
Proof. rewrite ALL_SLOTS_eq. repeat constructor. Qed.

Lemma ALL_SLOTS_NoDup : NoDup ALL_SLOTS.
Proof.
  rewrite ALL_SLOTS_eq.
  refine (bool_decide_unpack (NoDup _) _). vm_compute. exact I.
Qed.

Lemma booked_times_sorted st d sid :
  StronglySorted (λ a b, text_leb a b = true) (booked_times st d sid).
Proof. apply order_by_sorted; [apply text_leb_total|apply text_leb_trans]. Qed.

Lemma booked_times_length st d sid :
  Z.of_nat (length (booked_times st d sid)) = count_booked_for_day st sid d.
Proof.
  unfold booked_times, count_booked_for_day.
  by rewrite order_by_length, length_fmap.
Qed.

Lemma booked_times_NoDup st d sid :
  no_double_booking st → NoDup (booked_times st d sid).
Proof.
  intros Hinv. unfold booked_times. rewrite order_by_perm.
  apply NoDup_fmap_count. intros t. rewrite filter_time_booked_on.
  specialize (Hinv sid d t). unfold count_booked_at in Hinv. lia.
Qed.

Lemma booked_times_slots st d sid t :
  rows_ok st → t ∈ booked_times st d sid → t ∈ ALL_SLOTS.
Proof.
  intros Hrows Ht. unfold booked_times in Ht.
  rewrite order_by_elem_of, list_elem_of_fmap in Ht.
  destruct Ht as (a & -> & Ha). apply list_elem_of_filter in Ha as [_ Ha].
  unfold rows_ok in Hrows. rewrite Forall_forall in Hrows.
  by destruct (Hrows a Ha) as (_ & ? & _).
Qed.

(** X7: [booked_times] lists, in ascending order, the times of the booked
    appointments of the service on the date: as many as
    [count_booked_for_day] counts, and a time is listed exactly when the
    double-booking check of [create_appointment] refuses it.  With at most
    one booking per slot no time is listed twice, and on well-formed rows
    every listed time is a slot of the catalog. *)
Theorem booked_times_are_the_taken_slots (st : database) (d : string) (sid : Z) :
  StronglySorted (λ a b, text_leb a b = true) (booked_times st d sid)
  ∧ Z.of_nat (length (booked_times st d sid)) = count_booked_for_day st sid d
  ∧ (∀ payload,
       AppointmentCreate.service_id payload = sid →
       AppointmentCreate.appt_date payload = d →
       (AppointmentCreate.appt_time payload ∈ booked_times st d sid
        ↔ check_conflict payload st = Raise slot_taken))
  ∧ (no_double_booking st → NoDup (booked_times st d sid))
  ∧ (rows_ok st → ∀ t, t ∈ booked_times st d sid → t ∈ ALL_SLOTS).
Proof.
  split; [apply booked_times_sorted|]. split; [apply booked_times_length|].
  split; [|split].
  - intros payload <- <-. rewrite booked_times_elem_of. unfold check_conflict.
    destruct (Z.ltb_spec 0 (count_booked_at st (AppointmentCreate.service_id payload)
                              (AppointmentCreate.appt_date payload)
                              (AppointmentCreate.appt_time payload))).
    + done.
    + split; [lia|discriminate].
  - apply booked_times_NoDup.
  - intros Hrows t. by apply booked_times_slots.
Qed.

Lemma booked_times_are_the_taken_slots_witness :
  "09:00" ∈ booked_times one_booking_db "2026-11-03" 1
  ∧ NoDup (booked_times one_booking_db "2026-11-03" 1).
Proof.
  destruct (booked_times_are_the_taken_slots one_booking_db "2026-11-03" 1)
    as (_ & _ & Hconflict & Hnodup & _).
  split.
  - apply (Hconflict (booking "09:00") eq_refl eq_refl). vm_compute. reflexivity.
  - apply Hnodup.
    exact (handle_no_double_booking _ (Create today_ex now_ex (booking "09:00"))
             (proj1 new_database_invariants)).
Defined.

(** ** Free slots *)

Lemma free_slot_exists st sid d :
  count_booked_for_day st sid d < DAILY_CAPACITY →
  ∃ t, t ∈ ALL_SLOTS ∧ count_booked_at st sid d t = 0.
Proof.
  intros Hcount.
  destruct (decide (Forall (λ t, 0 < count_booked_at st sid d t) ALL_SLOTS))
    as [Hall|Hnot].
  - exfalso.
    assert (Hsub : ALL_SLOTS ⊆+ booked_times st d sid).
    { apply NoDup_submseteq; [apply ALL_SLOTS_NoDup|].
      intros t Ht. apply booked_times_elem_of.
      rewrite Forall_forall in Hall. by apply Hall. }
    apply submseteq_length in Hsub.
    pose proof (booked_times_length st d sid) as Hlen.
    unfold DAILY_CAPACITY in Hcount. lia.
  - apply not_Forall_Exists in Hnot; [|apply _].
    apply Exists_exists in Hnot as (t & Ht & Hfree). exists t. split; [done|].
    simpl in Hfree. unfold count_booked_at in *. lia.
Qed.

(** X8: while a day is not full it can still be booked.  When the date is
    in the window, the service exists and the day holds fewer than
    [DAILY_CAPACITY] bookings, some slot of the catalog is not among the
    booked times and a create for it succeeds. *)
Theorem day_not_full_can_be_booked (today : date) (now name phone situation : string)
    (sid : Z) (d : string) (st : database) :
  is_date_allowed today d = Ok true →
  (∃ s, get_service st sid = Ok s) →
  count_booked_for_day st sid d < DAILY_CAPACITY →
  ∃ t out st',
    t ∈ ALL_SLOTS
    ∧ (t ∉ booked_times st d sid)
    ∧ create_appointment today now
        (AppointmentCreate.mk name phone situation sid d t) st = (Ok out, st').
Proof.
  intros Hdate Hsvc Hcount.
  destruct (free_slot_exists st sid d Hcount) as (t & Hslot & Hfree).
  destruct (create_appointment_accepts today now
              (AppointmentCreate.mk name phone situation sid d t) st)
    as (out & st' & Hc); [done..|].
  exists t, out, st'. split; [done|]. split; [|done].
  rewrite booked_times_elem_of. lia.
Qed.

Lemma day_not_full_can_be_booked_witness :
  ∃ t out st',
    t ∈ ALL_SLOTS
    ∧ (t ∉ booked_times six_bookings_db "2026-11-03" 1)
    ∧ create_appointment today_ex now_ex
        (AppointmentCreate.mk "Bo" "555-0101" "Follow-up" 1 "2026-11-03" t)
        six_bookings_db = (Ok out, st').
Proof.
  apply (day_not_full_can_be_booked today_ex now_ex "Bo" "555-0101" "Follow-up"
           1 "2026-11-03" six_bookings_db).
  - vm_compute. reflexivity.
  - eexists. vm_compute. reflexivity.
  - vm_compute. reflexivity.
Defined.

Lemma booked_times_within_catalog st d sid :
  no_double_booking st → rows_ok st → booked_times st d sid ⊆+ ALL_SLOTS.
Proof.
  intros Hinv Hrows.
  apply NoDup_submseteq; [by apply booked_times_NoDup|].
  intros t. by apply booked_times_slots.
Qed.

Lemma count_booked_for_day_full st d sid :
  no_double_booking st →
  rows_ok st →
  count_booked_for_day st sid d <= DAILY_CAPACITY
  ∧ (count_booked_for_day st sid d = DAILY_CAPACITY
     ↔ booked_times st d sid = ALL_SLOTS).
Proof.
  intros Hinv Hrows.
  pose proof (booked_times_within_catalog st d sid Hinv Hrows) as Hsub.
  pose proof (booked_times_sorted st d sid) as Hsorted.
  pose proof (booked_times_length st d sid) as Hlen.
  pose proof (submseteq_length _ _ Hsub) as Hle.
  split; [unfold DAILY_CAPACITY; lia|]. split.
  - intros Hfull.
    apply (StronglySorted_unique_strong (λ a b, text_leb a b = true)).
    + intros x y _ _. apply text_leb_antisym.
    + exact Hsorted.
    + apply ALL_SLOTS_sorted.
    + apply submseteq_length_Permutation; [exact Hsub|].
      unfold DAILY_CAPACITY in Hfull. lia.
  - intros Heq. rewrite <- Hlen, Heq. done.
Qed.

(** X9: the day is full exactly when every slot is taken.  On a database
    with well-formed rows and at most one booking per slot, a (service,
    date) never counts more than [DAILY_CAPACITY] bookings, and it counts
    [DAILY_CAPACITY] exactly when [booked_times] is the whole catalog
    [ALL_SLOTS]. *)
Theorem full_day_books_every_slot (st : database) (d : string) (sid : Z) :
  no_double_booking st →
  rows_ok st →
  count_booked_for_day st sid d <= DAILY_CAPACITY
  ∧ (count_booked_for_day st sid d = DAILY_CAPACITY
     ↔ booked_times st d sid = ALL_SLOTS).
Proof.
  intros Hinv Hrows. split.
  - by apply count_booked_for_day_full.
  - by apply count_booked_for_day_full.
Qed.

Lemma full_day_books_every_slot_witness :
  booked_times full_day_db "2026-11-03" 1 = ALL_SLOTS.
Proof.
  apply (full_day_books_every_slot full_day_db "2026-11-03" 1).
  - exact (run_invariant no_double_booking handle_no_double_booking
             ((λ t, Create today_ex now_ex (booking t)) <$> ALL_SLOTS)
             (init_db new_database) (proj1 new_database_invariants)).
  - exact (run_invariant rows_ok handle_rows_ok
             ((λ t, Create today_ex now_ex (booking t)) <$> ALL_SLOTS)
             (init_db new_database) (Forall_nil_2 _)).
  - vm_compute. reflexivity.
Defined.

(** ** [GET /booked-times] *)




(** ** [add_months] and the window *)

Lemma add_months_Raise d k e :
  add_months d k = Raise e
  ↔ (e = OverflowError
     ∧ ¬ (-2147483648 <= year d + (month d - 1 + k) / 12 <= 2147483647))
    ∨ (e = ValueError
       ∧ (-2147483648 <= year d + (month d - 1 + k) / 12 <= 2147483647)
       ∧ ¬ (1 <= year d + (month d - 1 + k) / 12 <= 9999)).
Proof.
  unfold add_months, date_new.
  set (y := year d + (month d - 1 + k) / 12).
  set (m := (month d - 1 + k) mod 12 + 1).
  assert (Hm : 1 <= m <= 12) by (unfold m; Z.div_mod_to_equations; lia).
  assert (Hfm : fits_c_int m = true) by (unfold fits_c_int; bool_to_prop; lia).
  assert (Hf1 : fits_c_int 1 = true) by reflexivity.
  rewrite Hfm, Hf1, !andb_true_r.
  destruct (fits_c_int y) eqn:Hfy; cbn [negb].
  - assert (Hy : -2147483648 <= y <= 2147483647)
      by (unfold fits_c_int in Hfy; bool_to_prop; lia).
    destruct (valid_ymd y m 1) eqn:Hv.
    + apply valid_ymd_bounds in Hv.
      split; [discriminate|]. intros [[_ Hno]|(_ & _ & Hno)]; lia.
    + assert (Hno : ¬ (1 <= y <= 9999)).
      { intros Hrange. apply not_true_iff_false in Hv. apply Hv.
        apply valid_ymd_bounds. pose proof (days_in_month_bounds y m). lia. }
      split.
      * intros [= <-]. right. done.
      * intros [[_ Hover]|(-> & _)]; [lia|done].
  - assert (Hy : ¬ (-2147483648 <= y <= 2147483647)).
    { intros Hrange. apply not_true_iff_false in Hfy. apply Hfy.
      unfold fits_c_int. bool_to_prop. lia. }
    split.
    + intros [= <-]. left. done.
    + intros [[-> _]|(_ & Hin & _)]; [done|lia].
Qed.

(** X11: [add_months] moves a date by whole months.  Counting months as
    12 * year + month, the result is the first day of the month that many
    months later (earlier, for a negative number); adding [k] and then [j]
    months is adding [k + j].  The call raises exactly when the year would
    leave 1..9999: [ValueError] while that year is still a C [int], which
    the constructor of [date] reads first, and [OverflowError] beyond. *)
Theorem add_months_adds_months (d x : date) (k : Z) :
  add_months d k = Ok x →
  12 * year x + month x = 12 * year d + month d + k
  ∧ 1 <= month x <= 12
  ∧ day x = 1
  ∧ (∀ j, add_months x j = add_months d (k + j))
  ∧ (∀ j e, add_months d j = Raise e
            ↔ (e = OverflowError
               ∧ ¬ (-2147483648 <= year d + (month d - 1 + j) / 12
                    <= 2147483647))
              ∨ (e = ValueError
                 ∧ (-2147483648 <= year d + (month d - 1 + j) / 12
                    <= 2147483647)
                 ∧ ¬ (1 <= year d + (month d - 1 + j) / 12 <= 9999))).
Proof.
  intros Hadd. apply add_months_Ok in Hadd as [Hrange ->]. cbn [year month day].
  split; [Z.div_mod_to_equations; lia|].
  split; [Z.div_mod_to_equations; lia|]. split; [done|].
  split; [|intros j e; apply add_months_Raise].
  intros j. unfold add_months. cbn [year month day]. f_equal.
  - Z.div_mod_to_equations. lia.
  - Z.div_mod_to_equations. lia.
Qed.

Lemma add_months_adds_months_witness :
  add_months (mkdate 2026 11 3) 3 = Ok (mkdate 2027 2 1)
  ∧ add_months (mkdate 2027 2 1) (-14) = add_months (mkdate 2026 11 3) (3 + -14).
Proof.
  split; [reflexivity|].
  exact (proj1 (proj2 (proj2 (proj2
    (add_months_adds_months (mkdate 2026 11 3) (mkdate 2027 2 1) 3 eq_refl))))
    (-14)).
Defined.

(** X12: the window is the current month and the next three.  A year-month
    text YYYY-MM is allowed exactly when its month is [add_months] of the
    current month start by 0, 1, 2 or 3. *)
Theorem allowed_months_are_four (today : date) (y m : Z) (max_month : date) :
  valid_date today = true →
  valid_ymd y m 1 = true →
  add_months (first_day_of_month today) ALLOWED_MONTHS_AHEAD = Ok max_month →
  is_month_allowed today (format_Ym y m) = Ok true
  ↔ ∃ k, 0 <= k <= 3
         ∧ add_months (first_day_of_month today) k = Ok (mkdate y m 1).
Proof.
  intros Htoday Hym Hmax.
  rewrite (is_month_allowed_parsed today _ _ _ Hmax (strptime_Ym_format y m Hym)).
  change (replace_day1 (mkdate y m 1)) with (mkdate y m 1).
  apply valid_ymd_bounds in Htoday as (Hty & Htm & _).
  apply valid_ymd_bounds in Hym as (Hy & Hm & _).
  apply add_months_Ok in Hmax as [Hrange ->].
  unfold ALLOWED_MONTHS_AHEAD in *.
  unfold first_day_of_month, replace_day1 in *. cbn [year month day] in *.
  split.
  - intros [= Hin]. apply andb_true_iff in Hin as [Hlo Hhi].
    apply date_leb_le in Hlo, Hhi. unfold date_le, date_lt in Hlo, Hhi.
    cbn [year month day] in Hlo, Hhi.
    exists (12 * y + m - (12 * year today + month today)).
    split; [Z.div_mod_to_equations; lia|].
    apply add_months_Ok. cbn [year month day].
    split; [Z.div_mod_to_equations; lia|].
    f_equal; Z.div_mod_to_equations; lia.
  - intros (k & Hk & Hadd). apply add_months_Ok in Hadd as [_ Heq].
    cbn [year month day] in Heq. injection Heq as Hyear Hmonth.
    f_equal. apply andb_true_iff. rewrite !date_leb_le.
    unfold date_le, date_lt. cbn [year month day].
    split; Z.div_mod_to_equations; lia.
Qed.

Lemma allowed_months_are_four_witness :
  is_month_allowed today_ex "2027-01" = Ok true.
Proof.
  apply (proj2 (allowed_months_are_four today_ex 2027 1 (mkdate 2027 2 1)
                  eq_refl eq_refl eq_refl)).
  exists 2. split; [lia|reflexivity].
Defined.

(** X13: a date is allowed exactly when it is not before today and its month
    is allowed: the date window of the bookings is the month window of the
    calendar cut at today. *)
Theorem date_allowed_iff_month_allowed (today d upper : date) :
  valid_date today = true →
  valid_date d = true →
  add_months (first_day_of_month today) (ALLOWED_MONTHS_AHEAD + 1) = Ok upper →
  is_date_allowed today (strftime_Ymd d) = Ok true
  ↔ date_le today d
    ∧ is_month_allowed today (format_Ym (year d) (month d)) = Ok true.
Proof.
  intros Htoday Hd Hup.
  rewrite (is_date_allowed_parsed today _ d upper Htoday
             (strptime_Ymd_strftime d Hd) Hup).
  pose proof Htoday as Hb. apply valid_ymd_bounds in Hb as (Hty & Htm & Htd).
  pose proof Hd as Hdb. apply valid_ymd_bounds in Hdb as (Hy & Hm & Hdd).
  destruct (add_months_3_1 (first_day_of_month today) upper)
    as (max_month & Hmax & _); [simpl; lia|simpl; lia|exact Hup|].
  assert (Hym : valid_ymd (year d) (month d) 1 = true).
  { apply valid_ymd_bounds. pose proof (days_in_month_bounds (year d) (month d)).
    lia. }
  rewrite (is_month_allowed_parsed today _ _ _ Hmax
             (strptime_Ym_format _ _ Hym)).
  change (replace_day1 (mkdate (year d) (month d) 1))
    with (mkdate (year d) (month d) 1).
  apply add_months_Ok in Hup as [_ ->]. apply add_months_Ok in Hmax as [_ ->].
  unfold ALLOWED_MONTHS_AHEAD, first_day_of_month, replace_day1.
  cbn [year month day].
  split.
  - intros [= Hin]. apply andb_true_iff in Hin as [Hlo Hhi].
    apply date_leb_le in Hlo. apply date_ltb_lt in Hhi.
    split; [exact Hlo|]. f_equal. apply andb_true_iff. rewrite !date_leb_le.
    unfold date_le, date_lt in *. cbn [year month day] in *.
    split; Z.div_mod_to_equations; lia.
  - intros [Hlo [= Hin]]. apply andb_true_iff in Hin as [_ Hhi].
    apply date_leb_le in Hhi. f_equal. apply andb_true_iff.
    rewrite date_leb_le, date_ltb_lt. split; [exact Hlo|].
    unfold date_le, date_lt in *. cbn [year month day] in *.
    Z.div_mod_to_equations. lia.
Qed.

Lemma date_allowed_iff_month_allowed_witness :
  is_date_allowed today_ex "2027-02-28" = Ok true.
Proof.
  apply (proj2 (date_allowed_iff_month_allowed today_ex (mkdate 2027 2 28)
                  (mkdate 2027 3 1) eq_refl eq_refl eq_refl)).
  split; [apply date_leb_le; reflexivity|reflexivity].
Defined.

(** ** The calendar and the bookings *)

(** The count that [calendar_load] shows for a day of the month is the count
    that [create_appointment] checks. *)
Lemma month_counts_day st sid first_day d :
  valid_date first_day = true → day first_day = 1 →
  (year first_day < 9999 ∨ month first_day < 12) →
  d ∈ month_days first_day →
  default 0
    (month_counts st sid first_day
       (if month first_day =? 12
        then mkdate (year first_day + 1) 1 1
        else mkdate (year first_day) (month first_day + 1) 1)
     !! strftime_Ymd d)
  = count_booked_for_day st sid (strftime_Ymd d).
Proof.
  intros Hfv Hday Hlast Hin.
  apply month_days_elem_of in Hin as (Hdv & Hdy & Hdm); [|done..].
  pose proof Hfv as Hfb. apply valid_ymd_bounds in Hfb as (Hy & Hm & _).
  pose proof Hdv as Hdb. apply valid_ymd_bounds in Hdb as (_ & _ & Hdd).
  assert (Hp : ∀ x, 1 <= year x <= 9999 → 1 <= month x <= 12 →
               1 <= day x <= 31 → printable x)
    by (intros x ? ? ?; unfold printable; lia).
  apply month_counts_get.
  - rewrite text_leb_strftime by (by apply valid_date_printable).
    apply date_leb_le. unfold date_le, date_lt. lia.
  - rewrite text_ltb_strftime;
      [|by apply valid_date_printable
       |destruct (Z.eqb_spec (month first_day) 12); apply Hp;
        cbn [year month day]; lia].
    apply date_ltb_lt. unfold date_lt.
    destruct (Z.eqb_spec (month first_day) 12); cbn [year month day]; lia.
Qed.

(** Inside an allowed month the days that are not past are the allowed
    dates, and the month is not the last of year 9999. *)
Lemma is_date_allowed_in_allowed_month today ym first_day upper d :
  valid_date today = true →
  add_months (first_day_of_month today) (ALLOWED_MONTHS_AHEAD + 1) = Ok upper →
  is_month_allowed today ym = Ok true →
  strptime_Ym ym = Ok first_day →
  (year first_day < 9999 ∨ month first_day < 12)
  ∧ (d ∈ month_days first_day →
     is_date_allowed today (strftime_Ymd d) = Ok (date_leb today d)).
Proof.
  intros Htoday Hup Hallowed Hparse.
  pose proof Htoday as Hb. apply valid_ymd_bounds in Hb as (Hty & Htm & Htd).
  destruct (add_months_3_1 (first_day_of_month today) upper)
    as (max_month & Hmax & _); [simpl; lia|simpl; lia|exact Hup|].
  rewrite (is_month_allowed_parsed today ym first_day max_month Hmax Hparse)
    in Hallowed.
  injection Hallowed as Hin. apply andb_true_iff in Hin as [_ Hhi].
  apply date_leb_le in Hhi.
  pose proof Hparse as Hform. apply strptime_Ym_Ok in Hform as (Hvalid & Hday & _).
  assert (Hfv : valid_date first_day = true)
    by (unfold valid_date; by rewrite Hday).
  apply valid_ymd_bounds in Hvalid as (Hy & Hm & _).
  pose proof Hup as Hup'. apply add_months_Ok in Hup' as [Hrange ->].
  apply add_months_Ok in Hmax as [_ ->].
  unfold ALLOWED_MONTHS_AHEAD, first_day_of_month, replace_day1 in *.
  unfold date_le, date_lt in Hhi. cbn [year month day] in *.
  split; [Z.div_mod_to_equations; lia|].
  intros Hd. apply month_days_elem_of in Hd as (Hdv & Hdy & Hdm); [|done..].
  rewrite (is_date_allowed_parsed today _ d _ Htoday
             (strptime_Ymd_strftime d Hdv) Hup).
  f_equal. unfold first_day_of_month, replace_day1. cbn [year month day].
  assert (Hlt : date_ltb d
                  (mkdate (year today + (month today - 1 + (3 + 1)) / 12)
                     ((month today - 1 + (3 + 1)) mod 12 + 1) 1) = true).
  { apply date_ltb_lt. unfold date_lt. cbn [year month day].
    apply valid_ymd_bounds in Hdv. Z.div_mod_to_equations. lia. }
  rewrite Hlt. apply andb_true_r.
Qed.

Lemma count_booked_at_nonneg st sid d t : 0 <= count_booked_at st sid d t.
Proof. unfold count_booked_at. lia. Qed.

(** X14: the calendar and the creates that write the date as the calendar
    does.  For an allowed month and a known service, [calendar_load]
    answers, and the record of a day is disabled exactly when every
    [create_appointment] for that service whose [appt_date] is the text of
    the record (the day written YYYY-MM-DD) is refused, whatever the time
    and the patient; when the record is not disabled, such a create succeeds
    for any slot of the catalog that is not among the booked times of that
    text.  Requests that write the day in another way are not in this
    statement. *)
Theorem calendar_disabled_iff_unbookable (today : date) (st : database)
    (ym : string) (sid : Z) (first_day upper : date) :
  valid_date today = true →
  add_months (first_day_of_month today) (ALLOWED_MONTHS_AHEAD + 1) = Ok upper →
  is_month_allowed today ym = Ok true →
  strptime_Ym ym = Ok first_day →
  (∃ s, get_service st sid = Ok s) →
  ∃ resp,
    calendar_load today st ym (Some sid) = Some (Ok resp)
    ∧ ∀ r, r ∈ CalendarLoad.days resp →
        (DayLoad.disabled r = true
         ↔ ∀ now payload,
             AppointmentCreate.service_id payload = sid →
             AppointmentCreate.appt_date payload = DayLoad.date r →
             ∃ e, create_appointment today now payload st = (Raise e, st))
        ∧ (DayLoad.disabled r = false →
           ∀ now payload,
             AppointmentCreate.service_id payload = sid →
             AppointmentCreate.appt_date payload = DayLoad.date r →
             AppointmentCreate.appt_time payload ∈ ALL_SLOTS →
             AppointmentCreate.appt_time payload
               ∉ booked_times st (DayLoad.date r) sid →
             ∃ out st', create_appointment today now payload st = (Ok out, st')).
Proof.
  intros Htoday Hup Hallowed Hparse Hsvc.
  destruct (is_date_allowed_in_allowed_month today ym first_day upper
              (mkdate 0 0 0) Htoday Hup Hallowed Hparse) as [Hlast _].
  destruct (calendar_load_run today st ym (Some sid) first_day)
    as (next_month & Hnext & _ & Hload);
    [done|done|done|by intros ? [= <-]|].
  pose proof Hparse as Hform. apply strptime_Ym_Ok in Hform as (Hvalid & Hday & _).
  assert (Hfv : valid_date first_day = true)
    by (unfold valid_date; by rewrite Hday).
  eexists. split; [exact Hload|]. cbn [CalendarLoad.days].
  intros r Hr. apply list_elem_of_fmap in Hr as (d & -> & Hd).
  destruct (is_date_allowed_in_allowed_month today ym first_day upper
              d Htoday Hup Hallowed Hparse) as [_ Hdate].
  specialize (Hdate Hd).
  unfold day_load. cbn [DayLoad.date DayLoad.disabled].
  rewrite Hnext, (month_counts_day st sid first_day d Hfv Hday Hlast Hd).
  set (ds := strftime_Ymd d) in *.
  assert (Hopen : date_ltb d today
                  || (DAILY_CAPACITY <=? count_booked_for_day st sid ds) = false →
                  is_date_allowed today ds = Ok true
                  ∧ count_booked_for_day st sid ds < DAILY_CAPACITY).
  { intros Hdis. apply orb_false_iff in Hdis as [Hpast Hfull].
    apply Z.leb_gt in Hfull. split; [|done].
    rewrite Hdate. unfold date_leb. by rewrite Hpast. }
  split; [split|].
  - intros Hdis now payload Hsid Hds.
    destruct (create_appointment today now payload st) as [[out|e] st'] eqn:Hc.
    + exfalso. apply create_appointment_accepted in Hc as (Ha & _ & _ & Hcap & _).
      rewrite Hsid, Hds in *. rewrite Hdate in Ha. injection Ha as Ha.
      unfold date_leb in Ha. apply negb_true_iff in Ha.
      rewrite Ha in Hdis. cbn [orb] in Hdis. apply Z.leb_le in Hdis. lia.
    + exists e. by rewrite (create_appointment_Raise _ _ _ _ _ _ Hc).
  - intros Hrefused.
    destruct (date_ltb d today
              || (DAILY_CAPACITY <=? count_booked_for_day st sid ds)) eqn:Hdis;
      [done|].
    exfalso. destruct (Hopen eq_refl) as [Ha Hcap].
    destruct (free_slot_exists st sid ds Hcap) as (t & Hslot & Hfree).
    destruct (create_appointment_accepts today EmptyString
                (AppointmentCreate.mk "Ann Lee" "555-0100" "New patient" sid ds t)
                st) as (out & st' & Hc); [done..|].
    destruct (Hrefused EmptyString
                (AppointmentCreate.mk "Ann Lee" "555-0100" "New patient" sid ds t)
                eq_refl eq_refl) as [e He].
    rewrite Hc in He. discriminate He.
  - intros Hdis now payload Hsid Hds Hslot Hfree.
    destruct (Hopen Hdis) as [Ha Hcap].
    apply create_appointment_accepts; rewrite ?Hsid, ?Hds; [done..|].
    rewrite booked_times_elem_of in Hfree.
    pose proof (count_booked_at_nonneg st sid ds
                  (AppointmentCreate.appt_time payload)). lia.
Qed.

Lemma calendar_disabled_iff_unbookable_witness :
  ∃ resp,
    calendar_load today_ex six_bookings_db "2026-11" (Some 1) = Some (Ok resp)
    ∧ ∀ r, r ∈ CalendarLoad.days resp →
        DayLoad.disabled r = false →
        DayLoad.date r = "2026-11-03" →
        ∃ out st',
          create_appointment today_ex now_ex (booking "12:00") six_bookings_db
          = (Ok out, st').
Proof.
  destruct (calendar_disabled_iff_unbookable today_ex six_bookings_db "2026-11" 1
              (mkdate 2026 11 1) (mkdate 2027 3 1))
    as (resp & Hload & Hdays).
  - reflexivity.
  - reflexivity.
  - vm_compute. reflexivity.
  - vm_compute. reflexivity.
  - eexists. vm_compute. reflexivity.
  - exists resp. split; [exact Hload|]. intros r Hr Hopen Hdate.
    destruct (Hdays r Hr) as [_ Hbook].
    apply (Hbook Hopen now_ex (booking "12:00")).
    + reflexivity.
    + symmetry. exact Hdate.
    + refine (bool_decide_unpack (_ ∈ _) _). vm_compute. exact I.
    + rewrite Hdate. refine (bool_decide_unpack (_ ∉ _) _). vm_compute. exact I.
Defined.

(** X15: [calendar_load] always returns, and its errors follow the order of
    its checks.  The loop over the days ends within its bound for every
    request.  A text that [strptime] cannot read as "%Y-%m" gives 400
    "Invalid month format"; a month outside the window gives 400 "Month not
    allowed", also when the service is unknown; for an allowed month, a
    service id that SQLite cannot bind (outside the signed 64-bit range)
    raises [OverflowError], and one that no row has gives 400 "Invalid
    service_id"; otherwise the answer repeats the month and the service of
    the request and lists the days of the month in order. *)
Theorem calendar_load_always_answers (today : date) (st : database) (ym : string)
    (service_id : option Z) (upper : date) :
  valid_date today = true →
  add_months (first_day_of_month today) (ALLOWED_MONTHS_AHEAD + 1) = Ok upper →
  ∃ res,
    calendar_load today st ym service_id = Some res
    ∧ match res with
      | Ok resp =>
          is_month_allowed today ym = Ok true
          ∧ (∀ sid, service_id = Some sid → ∃ s, get_service st sid = Ok s)
          ∧ CalendarLoad.month resp = ym
          ∧ CalendarLoad.service_id resp = service_id
          ∧ ∃ first_day,
              strptime_Ym ym = Ok first_day
              ∧ DayLoad.date <$> CalendarLoad.days resp
                = strftime_Ymd <$> month_days first_day
      | Raise e =>
          (e = invalid_month_format ∧ strptime_Ym ym = Raise ValueError)
          ∨ (e = month_not_allowed ∧ is_month_allowed today ym = Ok false)
          ∨ (is_month_allowed today ym = Ok true
             ∧ ∃ sid, service_id = Some sid
                      ∧ ((e = OverflowError ∧ fits_sqlite_int sid = false)
                         ∨ (e = HTTPException 400 "Invalid service_id"
                            ∧ fits_sqlite_int sid = true
                            ∧ ∀ s, s ∈ services st → Service.id s ≠ sid)))
      end.
Proof.
  intros Htoday Hup.
  pose proof Htoday as Hb. apply valid_ymd_bounds in Hb as (Hty & Htm & Htd).
  destruct (add_months_3_1 (first_day_of_month today) upper)
    as (max_month & Hmax & _); [simpl; lia|simpl; lia|exact Hup|].
  destruct (strptime_Ym_cases ym) as [(first_day & Hparse & _)|Hparse].
  - destruct (is_month_allowed today ym) as [[|]|e] eqn:Hallowed.
    + destruct (is_date_allowed_in_allowed_month today ym first_day upper
                  (mkdate 0 0 0) Htoday Hup Hallowed Hparse) as [Hlast _].
      assert (Hknown : (∀ sid, service_id = Some sid →
                               ∃ s, get_service st sid = Ok s)
                       ∨ ∃ sid e, service_id = Some sid
                                  ∧ get_service st sid = Raise e).
      { destruct service_id as [sid|]; [|left; by intros ? [=]].
        destruct (get_service st sid) as [s|e] eqn:Hget.
        - left. intros ? [= <-]. by exists s.
        - right. by exists sid, e. }
      destruct Hknown as [Hsvc|(sid & e & -> & Hget)].
      * destruct (calendar_load_run today st ym service_id first_day
                    Hallowed Hparse Hlast Hsvc) as (next_month & _ & _ & Hload).
        eexists. split; [exact Hload|].
        cbn [CalendarLoad.days CalendarLoad.month CalendarLoad.service_id].
        split; [done|]. split; [exact Hsvc|]. split; [done|]. split; [done|].
        exists first_day. split; [done|].
        rewrite <- list_fmap_compose. by apply list_fmap_ext.
      * exists (Raise e). pose proof Hparse as Hform.
        apply strptime_Ym_Ok in Hform as (Hvalid & Hday & _).
        assert (Hnew : ∃ next_month,
                  (if month (replace_day1 first_day) =? 12
                   then date_new (year (replace_day1 first_day) + 1) 1 1
                   else date_new (year (replace_day1 first_day))
                          (month (replace_day1 first_day) + 1) 1)
                  = Ok next_month).
        { unfold replace_day1. cbn [year month].
          apply valid_ymd_bounds in Hvalid as (Hy & Hm & _).
          destruct (Z.eqb_spec (month first_day) 12); eexists; apply date_new_Ok;
            (split; [|reflexivity]); apply valid_ymd_bounds;
            pose proof (days_in_month_bounds (year first_day + 1) 1);
            pose proof (days_in_month_bounds (year first_day)
                          (month first_day + 1)); lia. }
        destruct Hnew as [next_month Hnew].
        split.
        -- unfold calendar_load. rewrite Hallowed, Hparse.
           cbn zeta. rewrite Hnew, Hget. reflexivity.
        -- right. right. split; [done|]. exists sid. split; [done|].
           by apply get_service_Raise.
    + exists (Raise month_not_allowed).
      split; [by apply calendar_load_month_not_allowed|]. right. left. done.
    + exfalso.
      rewrite (is_month_allowed_parsed today ym first_day max_month Hmax Hparse)
        in Hallowed. discriminate Hallowed.
  - exists (Raise invalid_month_format). split; [|by left].
    unfold calendar_load.
    by rewrite (is_month_allowed_unparsed today ym max_month Hmax Hparse).
Qed.

Lemma calendar_load_always_answers_witness :
  ∃ res, calendar_load today_ex one_booking_db "2026-11" (Some 7) = Some res.
Proof.
  destruct (calendar_load_always_answers today_ex one_booking_db "2026-11"
              (Some 7) (mkdate 2027 3 1) eq_refl eq_refl) as (res & Hres & _).
  exists res. exact Hres.
Defined.

(** ** What a listing holds *)

Lemma filter_unique_id (svcs : list Service.row) s :
  NoDup (Service.id <$> svcs) → s ∈ svcs →
  filter (λ s', Service.id s' = Service.id s) svcs = [s].
Proof.
  induction svcs as [|x l IH]; intros Hnd Hin; [by apply elem_of_nil in Hin|].
  rewrite fmap_cons in Hnd. apply NoDup_cons in Hnd as [Hx Hnd].
  rewrite filter_cons. destruct (decide (Service.id x = Service.id s)) as [Heq|Hne].
  - assert (Hs : s = x).
    { apply elem_of_cons in Hin as [->|Hin]; [done|].
      exfalso. apply Hx. rewrite Heq. apply list_elem_of_fmap. by exists s. }
    subst x. f_equal.
    destruct (filter (λ s', Service.id s' = Service.id s) l) as [|y l'] eqn:Hf;
      [done|].
    assert (Hy : y ∈ filter (λ s', Service.id s' = Service.id s) l)
      by (rewrite Hf; by left).
    apply list_elem_of_filter in Hy as [Hid Hy].
    exfalso. apply Hx. rewrite <- Hid. apply list_elem_of_fmap. by exists y.
  - apply IH; [done|]. apply elem_of_cons in Hin as [->|Hin]; done.
Qed.

Lemma join_services_match (a : Appt.row) phone (svcs : list Service.row) :
  Appt.phone a = phone →
  fst <$> (s ← svcs;
           if bool_decide (Service.id s = Appt.service_id a ∧ Appt.phone a = phone)
           then [(a, s)] else [])
  = (λ _, a) <$> filter (λ s, Service.id s = Appt.service_id a) svcs.
Proof.
  intros Hp. induction svcs as [|x l IH]; [done|].
  rewrite bind_cons, fmap_app, IH, filter_cons.
  case_bool_decide as Hb.
  - destruct Hb as [Hid _]. by rewrite decide_True.
  - rewrite decide_False; [done|]. intros Hid. by apply Hb.
Qed.

Lemma join_services_nomatch (a : Appt.row) phone (svcs : list Service.row) :
  Appt.phone a ≠ phone →
  (s ← svcs;
   if bool_decide (Service.id s = Appt.service_id a ∧ Appt.phone a = phone)
   then [(a, s)] else [])
  = [].
Proof.
  intros Hp. induction svcs as [|x l IH]; [done|].
  rewrite bind_cons, IH. case_bool_decide as Hb; [|done].
  by destruct Hb as [_ Hb].
Qed.

Lemma join_by_phone_fst st phone :
  services_ok st →
  (∀ a, a ∈ appointments st → ∃ s, get_service st (Appt.service_id a) = Ok s) →
  fst <$> join_by_phone st phone
  = filter (λ a, Appt.phone a = phone) (appointments st).
Proof.
  unfold services_ok, join_by_phone. intros Hnd Hsvc.
  assert (Hfind : ∀ a, a ∈ appointments st →
            filter (λ s, Service.id s = Appt.service_id a) (services st) ≠ []
            ∧ (length (filter (λ s, Service.id s = Appt.service_id a)
                         (services st)) = 1)%nat).
  { intros a Ha. destruct (Hsvc a Ha) as [s Hget].
    apply get_service_Ok in Hget as [Hin Hid].
    rewrite <- Hid, (filter_unique_id _ s Hnd Hin). done. }
  clear Hsvc. revert Hfind.
  generalize (services st) as svcs. clear Hnd.
  induction (appointments st) as [|a l IH]; intros svcs Hfind; [done|].
  rewrite bind_cons, fmap_app, filter_cons.
  rewrite IH by (intros b Hb; apply Hfind; by right).
  destruct (decide (Appt.phone a = phone)) as [Hp|Hp].
  - rewrite (join_services_match a phone svcs Hp).
    destruct (Hfind a) as [_ Hlen]; [by left|].
    destruct (filter (λ s, Service.id s = Appt.service_id a) svcs)
      as [|s [|s' rest]]; [discriminate Hlen|done|discriminate Hlen].
  - by rewrite (join_services_nomatch a phone svcs Hp).
Qed.

Lemma reachable_invariants rs :
  services_ok (run rs (init_db new_database))
  ∧ rows_ok (run rs (init_db new_database))
  ∧ ids_ok (run rs (init_db new_database)).
Proof.
  split; [|split].
  - unfold services_ok. rewrite run_services.
    refine (bool_decide_unpack (NoDup _) _). vm_compute. exact I.
  - apply (run_invariant rows_ok handle_rows_ok). apply Forall_nil_2.
  - apply (run_invariant ids_ok handle_ids_ok).
    unfold ids_ok. vm_compute. split; [constructor|]. split; [constructor|].
    discriminate.
Qed.

(** X16: a listing holds one record for each appointment of the phone.  When
    the service ids are distinct and every stored appointment names a known
    service, the ids that [list_appointments] returns are, up to order, the
    ids of the stored appointments whose phone is the trimmed phone of the
    request: none is dropped and none is repeated.  Spaces around the phone
    of the request make no difference.  Every database that creates and
    cancels build from the seeded one is of this kind. *)
Theorem list_appointments_one_record_each (st : database) (phone : string) :
  services_ok st →
  rows_ok st →
  AppointmentOut.id <$> list_appointments st phone
    ≡ₚ Appt.id <$> filter (λ a, Appt.phone a = strip phone) (appointments st)
  ∧ length (list_appointments st phone)
    = length (filter (λ a, Appt.phone a = strip phone) (appointments st))
  ∧ (ids_ok st → NoDup (AppointmentOut.id <$> list_appointments st phone))
  ∧ list_appointments st (strip phone) = list_appointments st phone
  ∧ (∀ rs, services_ok (run rs (init_db new_database))
           ∧ rows_ok (run rs (init_db new_database))).
Proof.
  intros Hsvcs Hrows.
  assert (Hknown : ∀ a, a ∈ appointments st →
                        ∃ s, get_service st (Appt.service_id a) = Ok s).
  { intros a Ha. unfold rows_ok in Hrows. rewrite Forall_forall in Hrows.
    by destruct (Hrows a Ha) as (_ & _ & ? & _). }
  assert (Hids : AppointmentOut.id <$> list_appointments st phone
                 ≡ₚ Appt.id <$> filter (λ a, Appt.phone a = strip phone)
                                  (appointments st)).
  { unfold list_appointments.
    rewrite <- (join_by_phone_fst st (strip phone) Hsvcs Hknown).
    rewrite <- !list_fmap_compose.
    rewrite (order_by_perm newest_first (join_by_phone st (strip phone))).
    done. }
  split; [exact Hids|]. split; [|split; [|split]].
  - apply Permutation_length in Hids. by rewrite !length_fmap in Hids.
  - intros (Hnd & _). rewrite Hids.
    apply (sublist_NoDup _ (Appt.id <$> appointments st)); [exact Hnd|].
    apply fmap_sublist, sublist_filter.
  - unfold list_appointments. by rewrite strip_idemp.
  - intros rs. destruct (reachable_invariants rs) as (? & ? & _). done.
Qed.

Lemma list_appointments_one_record_each_witness :
  length (list_appointments full_day_db " 555-0100 ") = 16%nat.
Proof.
  destruct (reachable_invariants
              ((λ t, Create today_ex now_ex (booking t)) <$> ALL_SLOTS))
    as (Hsvcs & Hrows & _).
  rewrite (proj1 (proj2 (list_appointments_one_record_each full_day_db
                           " 555-0100 " Hsvcs Hrows))).
  vm_compute. reflexivity.
Defined.

(** ** [GET /services] *)

Lemma StronglySorted_leb_le (l : list Service.row) :
  StronglySorted (λ a b, (Service.id a <=? Service.id b) = true) l →
  StronglySorted (λ a b, Service.id a <= Service.id b) l.
Proof.
  induction 1 as [|x l _ IH Hall]; constructor; [exact IH|].
  eapply Forall_impl; [exact Hall|]. intros y Hy. by apply Z.leb_le.
Qed.

(** X17: [get_services] returns every row of the services table once, in
    ascending order of id.  The service that [get_service] finds for an id
    is one of them, and no create or cancel changes the answer: after any
    history on the seeded database it is the three seeded services. *)
Theorem get_services_sorted_by_id (st : database) :
  get_services st ≡ₚ services st
  ∧ StronglySorted (λ a b, Service.id a <= Service.id b) (get_services st)
  ∧ (∀ sid s, get_service st sid = Ok s →
              s ∈ get_services st ∧ Service.id s = sid)
  ∧ (∀ rs, get_services (run rs st) = get_services st)
  ∧ (∀ rs,
       (λ s, (Service.id s, Service.name s)) <$>
         get_services (run rs (init_db new_database))
       = [(1, "General Consultation"); (2, "Lab Services");
          (3, "Follow-up Consultation")]).
Proof.
  unfold get_services.
  split; [apply order_by_perm|]. split; [|split; [|split]].
  - apply StronglySorted_leb_le, order_by_sorted.
    + intros a b. destruct (Z.leb_spec (Service.id a) (Service.id b)); [by left|].
      right. apply Z.leb_le. lia.
    + intros a b c Hab Hbc. apply Z.leb_le in Hab, Hbc. apply Z.leb_le. lia.
  - intros sid s Hget. apply get_service_Ok in Hget as [Hin Hid].
    split; [|done]. by apply order_by_elem_of.
  - intros rs. by rewrite run_services.
  - intros rs. rewrite run_services. vm_compute. reflexivity.
Qed.

(** ** Dates are compared as written *)

Lemma re_tail_md_short {A} (a : A) m d :
  1 <= m <= 12 → 1 <= d <= 9 →
  re_lit "-" (re_m (λ m', re_lit "-" (re_d (λ d', consumed (a, m', d')))))
    ("-" +:+ pad2 m +:+ "-" +:+ String (digit_char d) EmptyString)
  = Some ((a, m, d), EmptyString).
Proof.
  intros Hm Hd. enum_range m 1 12; enum_range d 1 9; vm_compute; reflexivity.
Qed.

Lemma strptime_Ymd_short d :
  valid_date d = true → day d <= 9 → strptime_Ymd (short_Ymd d) = Ok d.
Proof.
  destruct d as [y m dd]. unfold valid_date. cbn [year month day].
  intros Hvalid Hshort. pose proof Hvalid as Hb.
  apply valid_ymd_bounds in Hb as (Hy & Hm & Hd).
  unfold strptime_Ymd, short_Ymd. cbn [year month day].
  rewrite re_Y_pad4 by lia. rewrite re_tail_md_short by lia.
  by rewrite date_new_valid.
Qed.

Lemma short_Ymd_ne d : short_Ymd d ≠ strftime_Ymd d.
Proof.
  unfold short_Ymd, strftime_Ymd. intros Heq.
  apply (f_equal String.length) in Heq.
  cbv [String.length String.append pad4 pad2] in Heq. discriminate Heq.
Qed.

Lemma is_date_allowed_same_date today s1 s2 :
  strptime_Ymd s1 = strptime_Ymd s2 →
  is_date_allowed today s1 = is_date_allowed today s2.
Proof. intros Heq. unfold is_date_allowed. by rewrite Heq. Qed.

(** X18: the checks of [create_appointment] compare the date as it is
    written, while the window check reads it with [strptime].  When two
    different texts are read as the same day, a booking stored under one of
    them is not seen by the capacity and double-booking checks of a request
    that uses the other: after a booking under the first text, the same
    service and time can be booked again under the second, and both
    appointments are stored as booked.  [strptime] reads a day from 1 to 9
    with or without its leading zero, so every such day has two texts. *)
Theorem date_texts_are_separate_days (today : date) (now : string)
    (p1 p2 : AppointmentCreate.t) (d : date) (st st1 : database)
    (out1 : AppointmentOut.t) :
  strptime_Ymd (AppointmentCreate.appt_date p1) = Ok d →
  strptime_Ymd (AppointmentCreate.appt_date p2) = Ok d →
  AppointmentCreate.appt_date p1 ≠ AppointmentCreate.appt_date p2 →
  AppointmentCreate.service_id p2 = AppointmentCreate.service_id p1 →
  AppointmentCreate.appt_time p2 = AppointmentCreate.appt_time p1 →
  create_appointment today now p1 st = (Ok out1, st1) →
  count_booked_for_day st (AppointmentCreate.service_id p2)
    (AppointmentCreate.appt_date p2) < DAILY_CAPACITY →
  count_booked_at st (AppointmentCreate.service_id p2)
    (AppointmentCreate.appt_date p2) (AppointmentCreate.appt_time p2) = 0 →
  (∃ out2 st2,
     create_appointment today now p2 st1 = (Ok out2, st2)
     ∧ AppointmentOut.id out2 ≠ AppointmentOut.id out1
     ∧ new_row (AppointmentOut.id out1) now p1 ∈ appointments st2
     ∧ new_row (AppointmentOut.id out2) now p2 ∈ appointments st2
     ∧ AppointmentOut.status out1 = "booked"
     ∧ AppointmentOut.status out2 = "booked")
  ∧ (∀ x, valid_date x = true → day x <= 9 →
          strptime_Ymd (short_Ymd x) = strptime_Ymd (strftime_Ymd x)
          ∧ short_Ymd x ≠ strftime_Ymd x).
Proof.
  intros Hd1 Hd2 Hne Hsid Htime Hc1 Hcap Hfree. split.
  - pose proof (create_appointment_accepted _ _ _ _ _ _ Hc1)
      as (Hdate & [s Hget] & Hslot & _ & _).
    destruct (create_appointment_accepts today now p2 st1) as (out2 & st2 & Hc2).
    + rewrite <- Hdate. apply is_date_allowed_same_date. by rewrite Hd1, Hd2.
    + exists s. rewrite Hsid, <- Hget. apply get_service_services.
      by eapply create_appointment_services.
    + by rewrite Htime.
    + rewrite (count_booked_for_day_after_create _ _ _ _ _ _ _ _ Hc1).
      rewrite decide_False; [lia|]. by intros [_ ?].
    + rewrite (count_booked_at_after_create _ _ _ _ _ _ _ _ _ Hc1).
      rewrite decide_False; [lia|]. by intros (_ & ? & _).
    + exists out2, st2. split; [exact Hc2|].
      pose proof (create_appointment_inserted _ _ _ _ _ _ Hc1) as [Hst1 Hid1].
      pose proof (create_appointment_inserted _ _ _ _ _ _ Hc2) as [Hst2 Hid2].
      assert (Hnext : next_rowid st1 ≠ next_rowid st).
      { intros Heq.
        assert (Hlt : Appt.id (new_row (next_rowid st) now p1) < next_rowid st1).
        { apply next_rowid_fresh. rewrite Hst1. cbn [appointments].
          apply elem_of_app. right. by left. }
        cbn [new_row Appt.id] in Hlt. lia. }
      split; [congruence|].
      rewrite Hst2, Hid1, Hid2. cbn [appointments]. rewrite Hst1 at 1.
      cbn [appointments].
      split; [apply elem_of_app; left; apply elem_of_app; right; by left|].
      split; [apply elem_of_app; right; by left|].
      apply create_appointment_Ok in Hc1 as (? & _ & _ & _ & Hi1).
      apply create_appointment_Ok in Hc2 as (? & _ & _ & _ & Hi2).
      unfold insert_appointment in Hi1, Hi2.
      injection Hi1 as <- _. injection Hi2 as <- _. done.
  - intros x Hx Hshort.
    split; [|apply short_Ymd_ne].
    by rewrite strptime_Ymd_short, strptime_Ymd_strftime.
Qed.

Lemma date_texts_are_separate_days_witness :
  ∃ out2 st2,
    create_appointment today_ex now_ex
      (AppointmentCreate.mk "Bo Ray" "555-0101" "Follow-up" 1 "2026-11-3" "09:00")
      one_booking_db = (Ok out2, st2).
Proof.
  destruct (date_texts_are_separate_days today_ex now_ex (booking "09:00")
              (AppointmentCreate.mk "Bo Ray" "555-0101" "Follow-up" 1
                 "2026-11-3" "09:00")
              (mkdate 2026 11 3) (init_db new_database) one_booking_db
              first_record)
    as [(out2 & st2 & Hc2 & _) _].
  - vm_compute. reflexivity.
  - vm_compute. reflexivity.
  - discriminate.
  - reflexivity.
  - reflexivity.
  - vm_compute. reflexivity.
  - vm_compute. reflexivity.
  - vm_compute. reflexivity.
  - exists out2, st2. exact Hc2.
Defined.

(** ** Why a booking is refused *)

Lemma is_date_allowed_Raise today ds upper e :
  valid_date today = true →
  add_months (first_day_of_month today) (ALLOWED_MONTHS_AHEAD + 1) = Ok upper →
  is_date_allowed today ds = Raise e →
  e = invalid_date_format ∧ strptime_Ymd ds = Raise ValueError.
Proof.
  intros Htoday Hup Hraise.
  destruct (strptime_Ymd_cases ds) as [(d & Hparse & _)|Hparse].
  - rewrite (is_date_allowed_parsed today ds d upper Htoday Hparse Hup) in Hraise.
    discriminate Hraise.
  - split; [|exact Hparse].
    apply valid_ymd_bounds in Htoday as (Hty & Htm & _).
    destruct (add_months_3_1 (first_day_of_month today) upper)
      as (max_month & Hmax & _); [simpl; lia|simpl; lia|exact Hup|].
    unfold is_date_allowed in Hraise. rewrite Hmax, Hparse in Hraise.
    cbn [bind] in Hraise. by injection Hraise as <-.
Qed.

(** X19: a refused [create_appointment] changes nothing and names the first
    check that fails, in the order of the handler: a date text that
    [strptime] cannot read (400 "Invalid date format"), a date outside the
    window (400 "Date not allowed"), a service id that SQLite cannot bind
    ([OverflowError], for an id outside the signed 64-bit range), an
    unknown service (400 "Invalid service_id"), a time that is not a slot
    (400 "Invalid time slot"), a full day (409 "This day is FULL") and last
    an occupied slot (409 "This time slot is already booked").  No other
    error is raised. *)
Theorem create_appointment_first_failure (today : date) (now : string)
    (payload : AppointmentCreate.t) (st st' : database) (upper : date) (e : exn) :
  valid_date today = true →
  add_months (first_day_of_month today) (ALLOWED_MONTHS_AHEAD + 1) = Ok upper →
  create_appointment today now payload st = (Raise e, st') →
  st' = st
  ∧ ((e = invalid_date_format
      ∧ strptime_Ymd (AppointmentCreate.appt_date payload) = Raise ValueError)
     ∨ (e = date_not_allowed
        ∧ is_date_allowed today (AppointmentCreate.appt_date payload) = Ok false)
     ∨ (is_date_allowed today (AppointmentCreate.appt_date payload) = Ok true
        ∧ ((e = OverflowError
            ∧ fits_sqlite_int (AppointmentCreate.service_id payload) = false)
           ∨ (e = HTTPException 400 "Invalid service_id"
              ∧ fits_sqlite_int (AppointmentCreate.service_id payload) = true
              ∧ ∀ s, s ∈ services st →
                     Service.id s ≠ AppointmentCreate.service_id payload)
           ∨ ((∃ s, get_service st (AppointmentCreate.service_id payload) = Ok s)
              ∧ ((e = invalid_slot
                  ∧ AppointmentCreate.appt_time payload ∉ ALL_SLOTS)
                 ∨ (AppointmentCreate.appt_time payload ∈ ALL_SLOTS
                    ∧ ((e = day_full
                        ∧ DAILY_CAPACITY
                          <= count_booked_for_day st
                               (AppointmentCreate.service_id payload)
                               (AppointmentCreate.appt_date payload))
                       ∨ (e = slot_taken
                          ∧ count_booked_for_day st
                              (AppointmentCreate.service_id payload)
                              (AppointmentCreate.appt_date payload)
                            < DAILY_CAPACITY
                          ∧ 0 < count_booked_at st
                                  (AppointmentCreate.service_id payload)
                                  (AppointmentCreate.appt_date payload)
                                  (AppointmentCreate.appt_time payload))))))))).
Proof.
  intros Htoday Hup Hc.
  split; [by eapply create_appointment_Raise|].
  unfold create_appointment, validate_request in Hc.
  destruct (is_date_allowed today (AppointmentCreate.appt_date payload))
    as [[|]|e0] eqn:Hdate; cbn [bind negb] in Hc.
  - right. right. split; [done|].
    destruct (get_service st (AppointmentCreate.service_id payload))
      as [service|e1] eqn:Hget; cbn [bind] in Hc.
    + right. right. split; [by exists service|].
      case_bool_decide as Hslot.
      * left. injection Hc as <- _. done.
      * right. split; [exact Hslot|].
        unfold check_capacity in Hc.
        destruct (Z.leb_spec DAILY_CAPACITY
                    (count_booked_for_day st
                       (AppointmentCreate.service_id payload)
                       (AppointmentCreate.appt_date payload))) as [Hfull|Hroom].
        -- left. injection Hc as <- _. done.
        -- right. unfold check_conflict in Hc.
           destruct (Z.ltb_spec 0
                       (count_booked_at st
                          (AppointmentCreate.service_id payload)
                          (AppointmentCreate.appt_date payload)
                          (AppointmentCreate.appt_time payload))) as [Hocc|Hfree].
           ++ injection Hc as <- _. done.
           ++ destruct (insert_appointment now payload service st).
              discriminate Hc.
    + injection Hc as <- _.
      apply get_service_Raise in Hget as [[-> Hf]|(-> & Hf & Hno)];
        [left|right; left]; done.
  - right. left. injection Hc as <- _. done.
  - left. injection Hc as <- _.
    by eapply is_date_allowed_Raise.
Qed.

Lemma create_appointment_first_failure_witness :
  create_appointment today_ex now_ex (booking "09:00") full_day_db
  = (Raise day_full, full_day_db).
Proof.
  assert (Hc : ∃ e, create_appointment today_ex now_ex (booking "09:00") full_day_db
                    = (Raise e, full_day_db)).
  { apply create_appointment_occupied. vm_compute. reflexivity. }
  destruct Hc as [e Hc]. rewrite Hc. f_equal. f_equal.
  destruct (create_appointment_first_failure today_ex now_ex (booking "09:00")
              full_day_db full_day_db (mkdate 2027 3 1) e eq_refl eq_refl Hc)
    as [_ [[_ Hbad]|[[_ Hbad]|[_ [[_ Hbad]|[[_ [_ Hbad]]
          |[_ [[_ Hbad]|[_ [[He _]|[_ [Hbad _]]]]]]]]]]]].
  - vm_compute in Hbad. discriminate Hbad.
  - vm_compute in Hbad. discriminate Hbad.
  - discriminate Hbad.
  - exfalso. apply (Hbad (Service.mk 1 "General Consultation" 30)); [|reflexivity].
    unfold full_day_db. rewrite run_services. vm_compute. left.
  - exfalso. apply Hbad. refine (bool_decide_unpack (_ ∈ _) _). vm_compute. exact I.
  - exact He.
  - vm_compute in Hbad. discriminate Hbad.
Defined.

(** * One day under two texts

    [is_date_allowed] reads the date of a request with [strptime], which
    takes a day or a month with or without its leading zero, where the API
    model and the error message ask for YYYY-MM-DD.  [create_appointment]
    stores the text as it came, and every query compares the text.  The
    theorems of this section run the handlers on requests that write
    3 November 2026 as "2026-11-3". *)

(** C1: the at-most-one invariant fails on the code for requests handled
    one after the other.  On the seeded database a create for service 1 on
    "2026-11-03" at 09:00 succeeds, and so does the next create for service
    1 on "2026-11-3" at 09:00: both texts are 3 November 2026, the
    double-booking query compares the texts and counts nothing, and two
    booked appointments occupy the same service, date and time. *)
Theorem same_slot_booked_twice_sequential :
  ∃ out1 st1 out2 st2,
    create_appointment today_ex now_ex (booking "09:00") (init_db new_database)
    = (Ok out1, st1)
    ∧ create_appointment today_ex now_ex (short_date_booking "09:00") st1
      = (Ok out2, st2)
    ∧ st2 = run [Create today_ex now_ex (booking "09:00");
                 Create today_ex now_ex (short_date_booking "09:00")]
              (init_db new_database)
    ∧ strptime_Ymd (AppointmentOut.appt_date out1) = Ok (mkdate 2026 11 3)
    ∧ strptime_Ymd (AppointmentOut.appt_date out2) = Ok (mkdate 2026 11 3)
    ∧ AppointmentOut.service_id out1 = AppointmentOut.service_id out2
    ∧ AppointmentOut.appt_time out1 = AppointmentOut.appt_time out2
    ∧ AppointmentOut.status out1 = "booked"
    ∧ AppointmentOut.status out2 = "booked"
    ∧ count_booked_at st1 1 "2026-11-3" "09:00" = 0
    ∧ spec_count_booked_at st2 1 (mkdate 2026 11 3) "09:00" = 2.
Proof.
  do 4 eexists.
  split; [vm_compute; reflexivity|].
  split; [vm_compute; reflexivity|].
  split; [vm_compute; reflexivity|].
  split; [vm_compute; reflexivity|].
  split; [vm_compute; reflexivity|].
  split; [reflexivity|]. split; [reflexivity|].
  split; [reflexivity|]. split; [reflexivity|].
  split; vm_compute; reflexivity.
Qed.

(** C3: the daily capacity fails on the code.  After the 16 successful
    bookings of service 1 on "2026-11-03", one for each slot, a create for
    service 1 on "2026-11-3" at 09:00 does not fail with DayFull: the
    capacity query compares the texts and counts nothing, the create
    succeeds with id 17, and 17 booked appointments, one more than
    [DAILY_CAPACITY], are on 3 November 2026 for the service. *)
Theorem full_day_accepts_another_booking :
  ∃ out st',
    all_booked today_ex full_day_bookings (init_db new_database)
    = Some full_day_db
    ∧ Z.of_nat (length full_day_bookings) = DAILY_CAPACITY
    ∧ DAILY_CAPACITY = 16
    ∧ spec_count_booked_for_day full_day_db 1 (mkdate 2026 11 3) = 16
    ∧ count_booked_for_day full_day_db 1 "2026-11-3" = 0
    ∧ create_appointment today_ex now_ex (short_date_booking "09:00") full_day_db
      = (Ok out, st')
    ∧ AppointmentOut.id out = 17
    ∧ strptime_Ymd (AppointmentOut.appt_date out) = Ok (mkdate 2026 11 3)
    ∧ spec_count_booked_for_day st' 1 (mkdate 2026 11 3) = 17.
Proof.
  do 2 eexists.
  split; [vm_compute; reflexivity|].
  split; [vm_compute; reflexivity|].
  split; [vm_compute; reflexivity|].
  split; [vm_compute; reflexivity|].
  split; [vm_compute; reflexivity|].
  split; [vm_compute; reflexivity|].
  split; [reflexivity|].
  split; vm_compute; reflexivity.
Qed.

(** C8: the listing is not newest first on the code.  After a booking for
    "2026-11-20" and one for "2026-11-3", both for the same phone, the
    listing puts 3 November before 20 November: the query orders the
    texts, and "2026-11-3" is the larger text.  The round trip itself holds:
    both records are listed as they were returned. *)
Theorem listing_puts_older_day_first :
  ∃ out1 st1 out2,
    create_appointment today_ex now_ex later_booking (init_db new_database)
    = (Ok out1, st1)
    ∧ create_appointment today_ex now_ex (short_date_booking "09:00") st1
      = (Ok out2, two_dates_db)
    ∧ list_appointments two_dates_db "555-0101" = [out2; out1]
    ∧ strptime_Ymd (AppointmentOut.appt_date out2) = Ok (mkdate 2026 11 3)
    ∧ strptime_Ymd (AppointmentOut.appt_date out1) = Ok (mkdate 2026 11 20)
    ∧ date_lt (mkdate 2026 11 3) (mkdate 2026 11 20)
    ∧ text_ltb (AppointmentOut.appt_date out1) (AppointmentOut.appt_date out2)
      = true.
Proof.
  do 3 eexists.
  split; [vm_compute; reflexivity|].
  split; [vm_compute; reflexivity|].
  split; [vm_compute; reflexivity|].
  split; [vm_compute; reflexivity|].
  split; [vm_compute; reflexivity|].
  split; [|vm_compute; reflexivity].
  unfold date_lt. cbn [year month day]. lia.
Qed.

(** C5: the count of the calendar fails on the code.  With the 16 slots of
    3 November 2026 booked for service 1 under the text "2026-11-3",
    [calendar_load] for November and service 1 reports the day "2026-11-03"
    with count 0, level "Low", not full and not disabled: its query groups
    the texts and looks up "2026-11-03".  The 16 booked appointments of the
    service on that day call for count 16, level "High", full and
    disabled. *)
Theorem calendar_load_misses_bookings :
  ∃ resp,
    calendar_load today_ex short_date_day_db "2026-11" (Some 1) = Some (Ok resp)
    ∧ CalendarLoad.days resp !! 2%nat
      = Some (DayLoad.mk "2026-11-03" 0 "Low" false false)
    ∧ length (appointments short_date_day_db) = 16%nat
    ∧ spec_count_booked_for_day short_date_day_db 1 (mkdate 2026 11 3) = 16
    ∧ DAILY_CAPACITY = 16
    ∧ level 16 = "High"
    ∧ date_ltb (mkdate 2026 11 3) today_ex = false.
Proof.
  destruct (calendar_load_run today_ex short_date_day_db "2026-11" (Some 1)
              (mkdate 2026 11 1)) as (next_month & Hnext & _ & Hload).
  - vm_compute. reflexivity.
  - vm_compute. reflexivity.
  - left. vm_compute. reflexivity.
  - intros sid [= <-]. eexists. vm_compute. reflexivity.
  - eexists. split; [exact Hload|]. cbn [CalendarLoad.days].
    split.
    + rewrite list_lookup_fmap.
      change (month_days (mkdate 2026 11 1) !! 2%nat) with (Some (mkdate 2026 11 3)).
      cbn [fmap option_fmap option_map]. f_equal.
      unfold day_load. rewrite Hnext.
      rewrite (month_counts_day short_date_day_db 1 (mkdate 2026 11 1)
                 (mkdate 2026 11 3) eq_refl eq_refl);
        [|left; vm_compute; reflexivity
         |refine (bool_decide_unpack (_ ∈ _) _); vm_compute; exact I].
      vm_compute. reflexivity.
    + split; [vm_compute; reflexivity|]. split; [vm_compute; reflexivity|].
      split; [vm_compute; reflexivity|]. split; vm_compute; reflexivity.
Qed.
